(** * Face-comparison pipeline: a shallow embedding and its properties

    The development follows the four Python programs of the repository:

    - [Face_Cropping.py]: the directory walk that detects faces, keeps the
      largest box of each image and writes numbered crops
      (module [Cropping]);
    - [Face_Recognition_System.py]: the scan of the numbered crops, the
      pairwise comparison and the text report (module [Recognition]), and
      the distance of two embeddings (module [Embedding]);
    - [server_api.py]: the [/compare] and [/clear] endpoints
      (module [Server]);
    - [test.py]: the triplet dataset (module [Triplets]), and the reading
      of model outputs and the evaluation loop (module [Evaluation]).

    Module [Scenarios] holds the concrete runs on which the statements are
    exercised.

    The pretrained networks, image decoding, the clock, the random source
    and child processes are outside the repository; they appear as section variables
    (oracles), and every statement holds for all of them. *)

From Stdlib Require Import ZArith List String Ascii Lia Bool.
From Stdlib Require Import DecimalString DecimalNat DecimalZ Floats.
From Stdlib Require Reals.
From stdpp Require Import gmap strings list fin_maps sorting.
Import ListNotations.

Local Open Scope string_scope.
Local Open Scope nat_scope.
Local Open Scope list_scope.

(** ** Python text helpers *)

Module Text.

(** [str(n)] for a non-negative integer. *)
Definition str (n : nat) : string :=
  NilEmpty.string_of_uint (Nat.to_uint n).

(** [str(z)] for an integer. *)
Definition str_int (z : Z) : string :=
  NilEmpty.string_of_int (Z.to_int z).

(** ASCII part of [str.lower]. *)
Definition lower_ascii (c : ascii) : ascii :=
  let n := nat_of_ascii c in
  if (65 <=? n) && (n <=? 90) then ascii_of_nat (n + 32) else c.

Fixpoint lower (s : string) : string :=
  match s with
  | EmptyString => EmptyString
  | String c s' => String (lower_ascii c) (lower s')
  end.

(** [s.endswith(suffix)]. *)
Definition endswith (s suffix : string) : bool :=
  let n := String.length s in
  let k := String.length suffix in
  (k <=? n) && String.eqb (substring (n - k) k s) suffix.

(** [s.endswith((a, b, ...))] with a tuple of suffixes. *)
Definition endswith_any (s : string) (suffixes : list string) : bool :=
  existsb (endswith s) suffixes.

Fixpoint has_slash (s : string) : bool :=
  match s with
  | EmptyString => false
  | String c s' => Ascii.eqb c "/"%char || has_slash s'
  end.

(** Components of a POSIX path: the pieces between slashes. *)
Fixpoint split_slash (s : string) (cur : string) : list string :=
  match s with
  | EmptyString => [cur]
  | String c s' =>
      if Ascii.eqb c "/"%char then cur :: split_slash s' EmptyString
      else split_slash s' (cur +:+ String c EmptyString)
  end.

(** [Path(p).name] (POSIX flavour): the last component that is neither
    empty nor a single dot, and the empty string when there is none. *)
Definition path_name (p : string) : string :=
  List.last
    (List.filter (fun c => negb (String.eqb c EmptyString || String.eqb c "."))
       (split_slash p EmptyString))
    EmptyString.

(** [s.startswith("/")]. *)
Definition starts_with_slash (s : string) : bool :=
  match s with
  | String c _ => Ascii.eqb c "/"%char
  | EmptyString => false
  end.

Definition tail (s : string) : string :=
  match s with
  | String _ s' => s'
  | EmptyString => EmptyString
  end.

(** The root of a POSIX path as [pathlib] parses it: nothing for a
    relative path, two slashes when the path starts with exactly two, and
    one slash otherwise. *)
Definition path_root (p : string) : string :=
  if negb (starts_with_slash p) then EmptyString
  else if negb (starts_with_slash (tail p)) then "/"
  else if starts_with_slash (tail (tail p)) then "/"
  else "//".

(** The parts of a path after its root: the components that are neither
    empty nor a single dot. *)
Definition path_parts (p : string) : list string :=
  List.filter (fun c => negb (String.eqb c EmptyString || String.eqb c "."))
    (split_slash p EmptyString).

(** A name that is one part of a path. *)
Definition one_part (name : string) : Prop :=
  has_slash name = false /\ name <> EmptyString /\ name <> ".".

(** [str] of the path with a root and parts. *)
Definition path_of (root : string) (parts : list string) : string :=
  match parts with
  | [] => if String.eqb root EmptyString then "." else root
  | _ :: _ => root +:+ String.concat "/" parts
  end.

(** [str(Path(p))]: repeated slashes, single dots and a trailing slash
    are dropped, and the empty path is the current directory. *)
Definition path_str (p : string) : string :=
  path_of (path_root p) (path_parts p).

(** [str(Path(d) / name)]: an absolute [name] replaces [d]. *)
Definition path_div (d name : string) : string :=
  if starts_with_slash name then path_str name
  else path_of (path_root d) (path_parts d ++ path_parts name).

(** What stands before the name of an entry of the directory [d] in
    [str(Path(d) / name)]. *)
Definition dir_prefix (d : string) : string :=
  match path_parts d with
  | [] => path_root d
  | _ :: _ => path_str d +:+ "/"
  end.

(** [Path(d).parents] with the path itself in front, the nearest first,
    down to its first part: the root or the current directory is left
    out. *)
Fixpoint chain_from (root : string) (before parts : list string)
    : list string :=
  match parts with
  | [] => []
  | c :: rest =>
      chain_from root (before ++ [c]) rest ++ [path_of root (before ++ [c])]
  end.

Definition path_chain (p : string) : list string :=
  chain_from (path_root p) [] (path_parts p).

Fixpoint has_underscore (s : string) : bool :=
  match s with
  | EmptyString => false
  | String c s' => Ascii.eqb c "_"%char || has_underscore s'
  end.

(** [os.path.join(a, b)] of [posixpath]. *)
Definition os_path_join (a b : string) : string :=
  if starts_with_slash b then b
  else if String.eqb a EmptyString || endswith a "/" then a +:+ b
  else a +:+ "/" +:+ b.

End Text.

(** ** Exceptions and the file system *)

Module Py.

(** A computation that returns or raises an [Exception] with a message. *)
Inductive Exc (A : Type) : Type :=
| Ok (a : A)
| Raise (msg : string).
Arguments Ok {A} a.
Arguments Raise {A} msg.

Global Instance exc_ret : MRet Exc := fun _ a => Ok a.

Global Instance exc_bind : MBind Exc := fun _ _ k m =>
  match m with
  | Ok a => k a
  | Raise msg => Raise msg
  end.

(** What a path of the file system holds. *)
Inductive node : Type :=
| File
| Dir.

Global Instance node_eq_dec : EqDecision node.
Proof. solve_decision. Defined.

(** The file system: the paths that exist. *)
Abbreviation FS := (gmap string node).

(** [Path.exists]. *)
Definition exists_ (fs : FS) (p : string) : bool :=
  bool_decide (is_Some (fs !! p)).

(** What [subprocess.run(..., capture_output=True)] returns. *)
Record CompletedProcess : Type := {
  returncode : Z;
  stdout : string;
  stderr : string
}.

End Py.

(** ** Face_Cropping.py *)

Module Cropping.

Import Py.

(** The numbers of the detector's boxes: IEEE binary32, as [numpy.float32]
    has them (24 bits of precision, exponents below 128), with the
    operations rounding to nearest, ties to even. *)
Definition float32 : Type := spec_float.

Definition f32_sub (x y : float32) : float32 := SFsub 24 128 x y.
Definition f32_mul (x y : float32) : float32 := SFmul 24 128 x y.
(** [x < y] and [x == y]: false when one side is a NaN. *)
Definition f32_ltb (x y : float32) : bool := SFltb x y.
Definition f32_eqb (x y : float32) : bool := SFeqb x y.
Definition f32_leb (x y : float32) : bool := SFleb x y.
Definition is_nan (x : float32) : bool :=
  match x with
  | S754_nan => true
  | _ => false
  end.

(** The binary32 value of an integer (rounded when it has more than 24
    bits). *)
Definition f32_of_Z (z : Z) : float32 := binary_normalize 24 128 z 0 false.

(** A bounding box [(x1, y1, x2, y2)] of the detector. *)
Record Box : Type := { x1 : float32; y1 : float32; x2 : float32; y2 : float32 }.

(** [(x2 - x1) * (y2 - y1)]. *)
Definition area (b : Box) : float32 :=
  f32_mul (f32_sub (x2 b) (x1 b)) (f32_sub (y2 b) (y1 b)).

(** [max] over the rest of a list, the next item having the position
    [i]: an item replaces the running maximum when it is greater.  The
    maximum is an item of the list; it is kept with its position, which
    tells the object returned from equal ones. *)
Fixpoint max_from (m : nat * float32) (i : nat) (l : list float32)
    : nat * float32 :=
  match l with
  | [] => m
  | a :: l' => max_from (if f32_ltb m.2 a then (i, a) else m) (S i) l'
  end.

(** [max(areas)]. *)
Definition py_max (areas : list float32) : Exc (nat * float32) :=
  match areas with
  | [] => Raise "max() arg is an empty sequence"
  | a :: l => Ok (max_from (0, a) 1 l)
  end.

(** [areas.index(v)], counting from [i]: the first position whose item
    is the object [v] itself or equals it.  The [ValueError] names the
    value; it is not raised for the maximum of the list. *)
Fixpoint index_from (areas : list float32) (v : nat * float32) (i : nat)
    : Exc nat :=
  match areas with
  | [] => Raise "x is not in list"
  | a :: l =>
      if (i =? v.1) || f32_eqb a v.2 then Ok i else index_from l v (S i)
  end.

(** [areas.index(max(areas))]. *)
Definition largest_index (boxes : list Box) : Exc nat :=
  let areas := map area boxes in
  m ← py_max areas;
  index_from areas m 0.

(** [faces[i]] for the tensor of the faces of an image. *)
Definition getitem {A} (l : list A) (i : nat) : Exc A :=
  match l !! i with
  | Some a => Ok a
  | None =>
      Raise ("index " +:+ Text.str i
             +:+ " is out of bounds for dimension 0 with size "
             +:+ Text.str (length l))
  end.

Definition image_suffixes : list string := [".png"; ".jpg"; ".jpeg"].

(** The file names of a walk that pass the extension test, in the order
    the loops meet them. *)
Definition image_files (walk : list (string * list string * list string))
    : list string :=
  flat_map
    (fun entry =>
       List.filter (fun file => Text.endswith_any (Text.lower file) image_suffixes)
         entry.2)
    walk.

Section Walk.

(** Decoded images, face tensors and the pictures written to disk. *)
Variables Image Tensor Picture : Type.

(** [Image.open(img_path).convert("RGB")]. *)
Variable image_open : string -> Exc Image.
(** [mtcnn(img, return_prob=True)]: the face crops, or [None]. *)
Variable mtcnn_forward : Image -> Exc (option (list Tensor)).
(** [mtcnn.detect(img)]: the boxes, or [None]. *)
Variable mtcnn_detect : Image -> Exc (option (list Box)).
(** The conversion of a crop to [Image.fromarray(...)]. *)
Variable to_picture : Tensor -> Exc Picture.
(** [face_img.save(save_file)]: returns, or raises and leaves no file. *)
Variable save : Picture -> string -> Exc unit.

Variable output_dir : string.

(** The state of the script: the counter, the files written so far, in
    order, and the lines printed. *)
Record State : Type := {
  face_counter : nat;
  saved : list (string * Picture);
  printed : list string
}.

Definition print (st : State) (line : string) : State :=
  {| face_counter := face_counter st;
     saved := saved st;
     printed := printed st ++ [line] |}.

(** [os.path.join(output_dir, f"{face_counter}.jpg")]. *)
Definition save_file (n : nat) : string :=
  Text.os_path_join output_dir (Text.str n +:+ ".jpg").

(** The body of the [try] for one image path. *)
Definition try_body (st : State) (img_path : string) : Exc State :=
  img ← image_open img_path;
  faces ← mtcnn_forward img;
  match faces with
  | Some ((_ :: _) as faces) =>
      boxes ← mtcnn_detect img;
      match boxes with
      | Some boxes =>
          largest_idx ← largest_index boxes;
          face ← getitem faces largest_idx;
          face_img ← to_picture face;
          _ ← save face_img (save_file (face_counter st));
          Ok {| face_counter := face_counter st + 1;
                saved := saved st ++ [(save_file (face_counter st), face_img)];
                printed := printed st |}
      | None => Ok (print st (" No valid bounding box in " +:+ img_path))
      end
  | _ => Ok (print st (" No face detected in " +:+ img_path))
  end.

(** One iteration of [for file in files]. *)
Definition process_file (root : string) (st : State) (file : string) : State :=
  if negb (Text.endswith_any (Text.lower file) image_suffixes) then st
  else
    let img_path := Text.os_path_join root file in
    match try_body st img_path with
    | Ok st' => st'
    | Raise e => print st (" Could not process " +:+ img_path +:+ ": " +:+ e)
    end.

(** [for file in files] for one directory of the walk. *)
Definition process_files (root : string) (files : list string) (st : State)
    : State :=
  fold_left (process_file root) files st.

(** [for root, dirs, files in os.walk(input_dir)]. *)
Definition walk_loop (walk : list (string * list string * list string))
    (st : State) : State :=
  fold_left (fun st entry => process_files entry.1.1 entry.2 st) walk st.

(** The script from [face_counter = 1] on, for the triples [os.walk]
    yields. *)
Definition face_cropping (walk : list (string * list string * list string))
    : State :=
  walk_loop walk {| face_counter := 1; saved := []; printed := [] |}.

(** A step either leaves counter and files alone or writes one file under
    the current number and moves the counter by one. *)
Definition step_effect (st st' : State) : Prop :=
  (saved st' = saved st /\ face_counter st' = face_counter st)
  \/ (exists face_img,
        saved st' = saved st ++ [(save_file (face_counter st), face_img)]
        /\ face_counter st' = face_counter st + 1).

(** The files written so far are numbered 1, 2, ... and the counter is the
    next number. *)
Definition numbered (st : State) : Prop :=
  map fst (saved st) = map save_file (seq 1 (length (saved st)))
  /\ face_counter st = 1 + length (saved st).

(** Crops written plus lines printed. *)
Definition traces (st : State) : nat :=
  length (saved st) + length (printed st).

End Walk.

Arguments face_counter {Picture} _.
Arguments saved {Picture} _.
Arguments printed {Picture} _.
Arguments print {Picture} _ _.
Arguments traces {Picture} _.

End Cropping.

(** ** Face_Recognition_System.py *)

Module Recognition.

Import Py.

(** *** Collecting the crops *)

(** [startswith] and the rest after the prefix. *)
Fixpoint strip_prefix (pre s : string) : option string :=
  match pre, s with
  | EmptyString, _ => Some s
  | String a pre', String b s' =>
      if Ascii.eqb a b then strip_prefix pre' s' else None
  | String _ _, EmptyString => None
  end.

(** What a directory entry can be called: a name without a slash that
    is not empty, [.] or [..]. *)
Definition entry_like (name : string) : bool :=
  negb (String.eqb name EmptyString || Text.has_slash name
        || String.eqb name "." || String.eqb name "..").

(** The name of [p] when it is an entry of the directory [d]
    ([Path(d).iterdir()] yields [Path(d) / name]). *)
Definition entry_name (d p : string) : option string :=
  match strip_prefix (Text.dir_prefix d) p with
  | Some name => if entry_like name then Some name else None
  | None => None
  end.

(** Index of the last dot of [s], counted from [i]. *)
Fixpoint rfind_dot (s : string) (i : nat) : option nat :=
  match s with
  | EmptyString => None
  | String c s' =>
      match rfind_dot s' (S i) with
      | Some k => Some k
      | None => if Ascii.eqb c "."%char then Some i else None
      end
  end.

(** [Path.suffix] of a final component: from its last dot on, unless that
    dot is the first or the last character. *)
Definition suffix (name : string) : string :=
  match rfind_dot name 0 with
  | Some i =>
      if (0 <? i) && (i <? String.length name - 1)
      then substring i (String.length name - i) name
      else EmptyString
  | None => EmptyString
  end.

Definition crop_suffixes : list string := [".jpg"; ".jpeg"; ".png"].

(** [item.is_file() and item.suffix.lower() in {".jpg", ".jpeg", ".png"}]
    for the entries of [output_dir]. *)
Definition stale_crop (output_dir : string) (p : string) (n : node) : bool :=
  match entry_name output_dir p with
  | Some name =>
      bool_decide (n = File)
      && existsb (String.eqb (Text.lower (suffix name))) crop_suffixes
  | None => false
  end.

(** Whether the nearest of the paths [up] that exists is a file. *)
Fixpoint under_file (up : list string) (fs : FS) : bool :=
  match up with
  | [] => false
  | q :: up' =>
      match fs !! q with
      | Some File => true
      | Some Dir => false
      | None => under_file up' fs
      end
  end.

(** [Path.mkdir(parents=True, exist_ok=True)] for a path given with its
    parents, the nearest first.  [os.mkdir] fails when the path exists,
    which is accepted for a directory; it fails when the path leads
    through a file, and this error is raised; when the parent is missing
    the parents are made first.  The root and the current directory
    exist. *)
Fixpoint mkdir_parents (chain : list string) (fs : FS) : Exc FS :=
  match chain with
  | [] => Ok fs
  | p :: up =>
      match fs !! p with
      | Some Dir => Ok fs
      | Some File => Raise ("[Errno 17] File exists: '" +:+ p +:+ "'")
      | None =>
          if under_file up fs
          then Raise ("[Errno 20] Not a directory: '" +:+ p +:+ "'")
          else
            match up with
            | [] => Ok (<[p := Dir]> fs)
            | parent :: _ =>
                match fs !! parent with
                | Some _ => Ok (<[p := Dir]> fs)
                | None =>
                    fs' ← mkdir_parents up fs;
                    Ok (<[p := Dir]> fs')
                end
            end
      end
  end.

(** [output_path.mkdir(parents=True, exist_ok=True)] followed by the loop
    that unlinks the image files of the output directory. *)
Definition prepare_output_dir (output_dir : string) (fs : FS) : Exc FS :=
  fs1 ← mkdir_parents (Text.path_chain output_dir) fs;
  Ok (filter (fun e => stale_crop output_dir e.1 e.2 = false) fs1).

(** [str(output_path / f"{i}.jpg")]. *)
Definition numbered_crop (output_dir : string) (i : nat) : string :=
  Text.path_div output_dir (Text.str i +:+ ".jpg").

(** The [while True] loop that collects [1.jpg], [2.jpg], ... while they
    exist.  [fuel] bounds the number of tests of [img.exists()]; [None]
    means the bound was reached before the loop left. *)
Fixpoint collect_saved_faces (fuel : nat) (fs : FS) (output_dir : string)
    (i : nat) (saved_faces : list string) : option (list string) :=
  match fuel with
  | 0 => None
  | S fuel' =>
      let img := numbered_crop output_dir i in
      if exists_ fs img
      then collect_saved_faces fuel' fs output_dir (i + 1) (saved_faces ++ [img])
      else Some saved_faces
  end.

Section Cropper.

(** [subprocess.run([sys.executable, "Face_Cropping.py", ...])]: the child
    process, from its argument list and the file system it starts in to
    what it returns and the file system it leaves. *)
Variable run_subprocess : list string -> FS -> CompletedProcess * FS.
(** [sys.executable]. *)
Variable sys_executable : string.

Definition cropping_argv (input_dir output_dir device : string) : list string :=
  [sys_executable; "Face_Cropping.py"; "--input-dir"; input_dir;
   "--output-dir"; output_dir; "--device"; device].

(** [FaceRecognitionSystem.crop_faces_from_directory].  The result pairs
    what the call returns (or raises) with the file system afterwards;
    [None] only when [fuel] is too small for the collecting loop. *)
Definition crop_faces_from_directory (fuel : nat) (device : string)
    (input_dir output_dir : string) (fs : FS)
    : option (Exc (list string) * FS) :=
  match prepare_output_dir output_dir fs with
  | Raise msg => Some (Raise msg, fs)
  | Ok fs1 =>
      let '(result, fs2) :=
        run_subprocess (cropping_argv input_dir output_dir device) fs1 in
      if negb (returncode result =? 0)%Z then Some (Ok [], fs2)
      else
        match collect_saved_faces fuel fs2 output_dir 1 [] with
        | Some saved_faces => Some (Ok saved_faces, fs2)
        | None => None
        end
  end.

End Cropper.

(** The list [output_dir/1.jpg, ..., output_dir/k.jpg]. *)
Definition crop_run (output_dir : string) (k : nat) : list string :=
  map (numbered_crop output_dir) (seq 1 k).

(** [l] is the longest run of numbered crops present in [fs]: the crops 1
    to [k] exist and crop [k + 1] does not. *)
Definition maximal_crop_run (fs : FS) (output_dir : string) (l : list string)
    : Prop :=
  exists k,
    l = crop_run output_dir k
    /\ (forall j, 1 <= j <= k -> exists_ fs (numbered_crop output_dir j) = true)
    /\ exists_ fs (numbered_crop output_dir (k + 1)) = false.

(** *** Comparing all pairs *)

(** One comparison result: [(img1, img2, distance, same)]. *)
Definition result : Type := string * string * float * bool.

Definition res_img1 (r : result) : string := r.1.1.1.
Definition res_img2 (r : result) : string := r.1.1.2.
Definition res_dist (r : result) : float := r.1.2.
Definition res_same (r : result) : bool := r.2.

(** [range(a, b)]. *)
Definition range (a b : nat) : list nat := seq a (b - a).

Section Comparator.

(** [FaceRecognitionSystem.compare_faces]: the Python float returned by
    [.item()] for two crop paths.  The images are only read, so within one
    run it is a function of the two paths. *)
Variable compare_faces : string -> string -> float.

(** The body of the inner loop for the indices [i] and [j], both below
    [len(face_images)] in every iteration. *)
Definition pair_entry (face_images : list string) (threshold : float)
    (i j : nat) : result :=
  let d := compare_faces (face_images !!! i) (face_images !!! j) in
  let same := PrimFloat.ltb d threshold in
  (face_images !!! i, face_images !!! j, d, same).

(** [for j in range(i + 1, len(face_images)): ... results.append(...)]. *)
Definition inner_loop (face_images : list string) (threshold : float)
    (i : nat) (results : list result) : list result :=
  fold_left
    (fun results j => results ++ [pair_entry face_images threshold i j])
    (range (i + 1) (length face_images))
    results.

(** [FaceRecognitionSystem.compare_all_pairs]. *)
Definition compare_all_pairs (face_images : list string) (threshold : float)
    : list result :=
  if length face_images <? 2 then []
  else
    fold_left
      (fun results i => inner_loop face_images threshold i results)
      (range 0 (length face_images))
      [].

End Comparator.

(** *** The report *)

(** The newline character. *)
Definition nl : string := String (ascii_of_nat 10) EmptyString.

(** [num / den] rounded to the nearest integer, ties to even ([den > 0]). *)
Definition round_half_even (num den : Z) : Z :=
  let q := (num / den)%Z in
  let r := (num mod den)%Z in
  match (2 * r ?= den)%Z with
  | Lt => q
  | Gt => (q + 1)%Z
  | Eq => if Z.even q then q else (q + 1)%Z
  end.

(** A count of ten-thousandths written with four decimals. *)
Definition fixed4 (n : Z) : string :=
  let frac := Text.str_int (n mod 10000) in
  Text.str_int (n / 10000) +:+ "."
  +:+ String.concat EmptyString (repeat "0" (4 - String.length frac))
  +:+ frac.

(** [f"{x:.4f}"]: the exact value of the float, correctly rounded to four
    decimals (ties to even), with Python's spelling of the special values. *)
Definition format_4f (x : float) : string :=
  match Prim2SF x with
  | S754_nan => "nan"
  | S754_infinity s => if s then "-inf" else "inf"
  | S754_zero s => (if s then "-" else EmptyString) +:+ "0.0000"
  | S754_finite s m e =>
      let scaled :=
        if (0 <=? e)%Z then (Z.pos m * 2 ^ e * 10000)%Z
        else round_half_even (Z.pos m * 10000) (2 ^ (- e)) in
      (if s then "-" else EmptyString) +:+ fixed4 scaled
  end.

(** The line written for one result. *)
Definition report_line (r : result) : string :=
  Text.path_name (res_img1 r) +:+ " vs " +:+ Text.path_name (res_img2 r)
  +:+ " -> " +:+ format_4f (res_dist r)
  +:+ " (" +:+ (if res_same r then "SAME" else "DIFFERENT") +:+ ")" +:+ nl.

Definition report_header : string :=
  "=== Face Recognition Results ===" +:+ nl +:+ nl.

(** The loop of [main] over the results: the text written so far and
    [same_count]. *)
Definition write_lines (results : list result) (f : string) (same_count : nat)
    : string * nat :=
  fold_left
    (fun st r =>
       (st.1 +:+ report_line r, if res_same r then st.2 + 1 else st.2))
    results (f, same_count).

(** The summary block for a total and a count of SAME pairs. *)
Definition report_summary (total same_count : nat) : string :=
  nl +:+ "=== Summary ===" +:+ nl
  +:+ "Total comparisons: " +:+ Text.str total +:+ nl
  +:+ "Same person: " +:+ Text.str same_count +:+ nl
  +:+ "Different persons: " +:+ Text.str (total - same_count) +:+ nl.

(** The text [main] writes to the results file (the [with open] block). *)
Definition write_report (results : list result) : string :=
  let '(f, same_count) := write_lines results report_header 0 in
  f +:+ report_summary (length results) same_count.

Section Main.

Variable run_subprocess : list string -> FS -> CompletedProcess * FS.
Variable sys_executable : string.
(** The distance [compare_faces] returns for two crop paths. *)
Variable compare_faces : string -> string -> float.
(** The exception [compare_faces] ends with instead, if any: [load_image]
    on a crop that cannot be opened or decoded, or the model. *)
Variable compare_raises : string -> string -> option string.
(** The exception of [open(results_path, "w")] and of the writes, if
    any. *)
Variable open_raises : FS -> string -> option string.
(** [Path.resolve], used only in the last message. *)
Variable resolve : string -> string.

Record Args : Type := {
  input_dir : string;
  output_dir : string;
  threshold : float;
  results_file : string
}.

(** What a run of [main] leaves: the lines printed and the results file
    written, if any, as (path, text). *)
Record Run : Type := {
  printed : list string;
  written : option (string * string)
}.

(** The exception that ends [compare_all_pairs]: that of the first
    comparison, in the order of the two loops, that raises. *)
Definition comparison_error (face_images : list string) : option string :=
  if length face_images <? 2 then None
  else
    head
      (omap
         (fun i =>
            head
              (omap
                 (fun j =>
                    compare_raises (face_images !!! i) (face_images !!! j))
                 (range (i + 1) (length face_images))))
         (range 0 (length face_images))).

(** [main], for a constructed system on [device].  [None] is the fuel of
    the collecting loop running out; an exception that leaves [main] ends
    the run, and the results file is then not written. *)
Definition main (fuel : nat) (device : string) (args : Args) (fs : FS)
    : option (Exc Run) :=
  let step1 := [nl +:+ "=== Step 1: Cropping faces from " +:+ input_dir args +:+ " ==="] in
  match crop_faces_from_directory run_subprocess sys_executable fuel device
          (input_dir args) (output_dir args) fs with
  | None => None
  | Some (Raise msg, _) => Some (Raise msg)
  | Some (Ok [], _) =>
      Some (Ok {| printed := step1 ++ ["No faces detected."]; written := None |})
  | Some (Ok faces, fs') =>
      let step2 :=
        step1 ++ ["Cropped " +:+ Text.str (length faces) +:+ " faces.";
                  nl +:+ "=== Step 2: Comparing ALL face pairs ==="] in
      match comparison_error faces with
      | Some msg => Some (Raise msg)
      | None =>
          match compare_all_pairs compare_faces faces (threshold args) with
          | [] =>
              Some (Ok {| printed := step2 ++ ["No comparisons made."];
                          written := None |})
          | results =>
              match open_raises fs' (results_file args) with
              | Some msg => Some (Raise msg)
              | None =>
                  Some (Ok {| printed :=
                                step2 ++ [nl +:+ "Results saved to: "
                                          +:+ resolve (results_file args)];
                              written :=
                                Some (results_file args,
                                      write_report results) |})
              end
          end
      end
  end.

End Main.

(** Number of entries labelled SAME. *)
Definition count_same (results : list result) : nat :=
  length (filter (fun r => res_same r = true) results).

(** Number of entries labelled DIFFERENT. *)
Definition count_different (results : list result) : nat :=
  length (filter (fun r => res_same r = false) results).

(** The index pairs visited by the two loops over [n] faces, in order. *)
Definition pair_indices (n : nat) : list (nat * nat) :=
  flat_map (fun i => map (pair i) (range (i + 1) n)) (range 0 n).

(** Pairs of indices in dictionary order. *)
Definition lex_lt (p q : nat * nat) : Prop :=
  p.1 < q.1 \/ (p.1 = q.1 /\ p.2 < q.2).

End Recognition.

(** ** The distance of two embeddings *)

Module Embedding.

Import Reals.
Local Open Scope R_scope.

Section Distance.

(** The tensor of a loaded crop. *)
Variable ImageTensor : Type.
(** [FaceRecognitionSystem.load_image]. *)
Variable load_image : string -> ImageTensor.
(** [self.model]: the embedding of a crop, a vector of real numbers. *)
Variable model : ImageTensor -> list R.

(** [emb1 - emb2], for two embeddings of the same shape. *)
Definition tensor_sub (emb1 emb2 : list R) : list R :=
  zip_with Rminus emb1 emb2.

Definition sum_squares (v : list R) : R :=
  fold_right (fun x acc => x * x + acc) 0 v.

(** [torch.norm(v, p=2)]. *)
Definition norm_p2 (v : list R) : R := sqrt (sum_squares v).

(** [FaceRecognitionSystem.compare_faces]. *)
Definition compare_faces (img1_path img2_path : string) : R :=
  let img1 := load_image img1_path in
  let img2 := load_image img2_path in
  let emb1 := model img1 in
  let emb2 := model img2 in
  norm_p2 (tensor_sub emb1 emb2).

End Distance.

End Embedding.

(** ** server_api.py *)

Module Server.

Import Py.

(** An entry of [RAW_DIR]: a file with its bytes, or a sub-directory. *)
Inductive entry : Type :=
| FileE (content : string)
| DirE.

(** What the handlers touch on disk: [RAW_DIR] ([None] when it does not
    exist), by entry name, and [RESULTS_FILE]. *)
Record Disk : Type := {
  raw_dir : option (gmap string entry);
  results_txt : option string
}.

(** The server's surroundings: the disk, the number of clock readings
    taken so far, and the child processes started, latest last. *)
Record World : Type := {
  disk : Disk;
  ticks : nat;
  invoked : list (list string)
}.

(** A JSON value of the response bodies. *)
Inductive json : Type :=
| JBool (b : bool)
| JStr (s : string).

Record Response : Type := {
  status_code : nat;
  content : list (string * json)
}.

(** The value of a field of a response body. *)
Definition field (key : string) (r : Response) : option json :=
  snd <$> List.find (fun kv => String.eqb kv.1 key) (content r).

Record UploadFile : Type := {
  filename : string;
  file : string
}.

(** A handler step: it returns or raises, and changes the world either
    way. *)
Definition Handler (A : Type) : Type := World -> Exc A * World.

Definition hret {A} (a : A) : Handler A := fun w => (Ok a, w).

Definition hbind {A B} (m : Handler A) (k : A -> Handler B) : Handler B :=
  fun w =>
    match m w with
    | (Ok a, w') => k a w'
    | (Raise msg, w') => (Raise msg, w')
    end.

Notation "x ←ₕ m ; k" := (hbind m (fun x => k))
  (at level 20, m at level 100, k at level 200, only parsing).
Notation "m ;ₕ k" := (hbind m (fun _ => k))
  (at level 100, k at level 200, right associativity, only parsing).

(** [int(x)]: truncation toward zero. *)
Definition py_int (x : float) : Exc Z :=
  match Prim2SF x with
  | S754_nan => Raise "cannot convert float NaN to integer"
  | S754_infinity _ => Raise "cannot convert float infinity to integer"
  | S754_zero _ => Ok 0%Z
  | S754_finite s m e =>
      let a := if (0 <=? e)%Z then (Z.pos m * 2 ^ e)%Z
               else (Z.pos m / 2 ^ (- e))%Z in
      Ok (if s then (- a)%Z else a)
  end.

(** [f"{int(t * 1000)}_{name}"] for a clock reading [t]. *)
Definition saved_filename (t : float) (name : string) : Exc string :=
  ms ← py_int (t * 1000)%float;
  Ok (Text.str_int ms +:+ "_" +:+ name).

Definition is_file_entry (e : entry) : bool :=
  match e with
  | FileE _ => true
  | DirE => false
  end.

Definition set_raw_dir (raw : option (gmap string entry)) (w : World) : World :=
  {| disk := {| raw_dir := raw; results_txt := results_txt (disk w) |};
     ticks := ticks w;
     invoked := invoked w |}.

(** The world after one more reading of the clock. *)
Definition tick (w : World) : World :=
  {| disk := disk w; ticks := ticks w + 1; invoked := invoked w |}.

(** [clear_raw_images]. *)
Definition clear_raw_images : Handler unit := fun w =>
  match raw_dir (disk w) with
  | Some entries =>
      (Ok tt,
       set_raw_dir (Some (filter (fun kv => is_file_entry kv.2 = false) entries)) w)
  | None => (Ok tt, set_raw_dir (Some ∅) w)
  end.

(** The [/clear] handler. *)
Definition clear_images (w : World) : Response * World :=
  let '(_, w') := clear_raw_images w in
  ({| status_code := 200; content := [("success", JBool true)] |}, w').

(** The entries a clearing leaves. *)
Definition cleared (raw : option (gmap string entry)) : gmap string entry :=
  match raw with
  | Some entries => filter (fun kv => is_file_entry kv.2 = false) entries
  | None => ∅
  end.

(** The world after a clearing, in which the uploads of a request are
    saved. *)
Definition cleared_world (w : World) : World :=
  set_raw_dir (Some (cleared (raw_dir (disk w)))) w.

Section Endpoint.

(** [time.time()]: the reading returned by the n-th call. *)
Variable clock : nat -> float.
(** [subprocess.run] of the pipeline: its result and the disk it leaves. *)
Variable run_subprocess : list string -> Disk -> CompletedProcess * Disk.
(** [str] of a float, for the threshold argument. *)
Variable str_float : float -> string.
(** [str.strip]. *)
Variable strip : string -> string.
(** [PYTHON_EXECUTABLE], and [BASE_DIR], the resolved directory of the
    script. *)
Variable python_executable : string.
Variable base_dir : string.
(** The [detail] of the body the framework gives a request that fails
    validation. *)
Variable validation_detail : json.
(** The exception [open] raises for a reason the disk below does not
    show, if any: a name that is too long or holds a NUL, permissions. *)
Variable open_refused : Disk -> string -> option string.
(** What opening and writing a path that leads through a sub-directory of
    [RAW_DIR] does: the contents of sub-directories are not part of the
    disk below, and the path may lead out of them again. *)
Variable write_below : Disk -> string -> string -> Exc Disk.

Definition time_time : Handler float := fun w =>
  (Ok (clock (ticks w)), tick w).

(** [str(RAW_DIR / name)]. *)
Definition destination (name : string) : string :=
  Text.path_div (Text.path_div base_dir "RawImages") name.

(** [str] of an [OSError] of [open] for a path. *)
Definition os_error (strerror : string) (path : string) : string :=
  strerror +:+ ": '" +:+ path +:+ "'".

(** [destination = RAW_DIR / filename], [destination.open("wb")] and
    [shutil.copyfileobj].  A name of one part is an entry of [RAW_DIR]:
    the file is created or replaced, and opening a directory raises.  A
    name of several parts leads through its first part, which has to be a
    sub-directory. *)
Definition write_upload (name : string) (data : string) : Handler unit := fun w =>
  let no_entry :=
    os_error "[Errno 2] No such file or directory" (destination name) in
  let is_dir := os_error "[Errno 21] Is a directory" (destination name) in
  let not_dir := os_error "[Errno 20] Not a directory" (destination name) in
  match raw_dir (disk w) with
  | None => (Raise no_entry, w)
  | Some entries =>
      match open_refused (disk w) name with
      | Some msg => (Raise msg, w)
      | None =>
          match Text.path_parts name with
          | [] => (Raise is_dir, w)
          | [part] =>
              match entries !! part with
              | Some DirE => (Raise is_dir, w)
              | _ =>
                  (Ok tt, set_raw_dir (Some (<[part := FileE data]> entries)) w)
              end
          | part :: _ =>
              match entries !! part with
              | None => (Raise no_entry, w)
              | Some (FileE _) => (Raise not_dir, w)
              | Some DirE =>
                  match write_below (disk w) name data with
                  | Ok d =>
                      (Ok tt,
                       {| disk := d; ticks := ticks w; invoked := invoked w |})
                  | Raise msg => (Raise msg, w)
                  end
              end
          end
      end
  end.

(** [for upload in images: ...]. *)
Fixpoint save_uploads (images : list UploadFile) : Handler unit :=
  match images with
  | [] => hret tt
  | upload :: rest =>
      t ←ₕ time_time;
      name ←ₕ (fun w => (saved_filename t (filename upload), w));
      (write_upload name (file upload) ;ₕ
       save_uploads rest)
  end.

(** The names computed for the uploads of a request, the first reading of
    the clock being number [tick]. *)
Fixpoint request_names (tick : nat) (images : list UploadFile)
    : list (Exc string) :=
  match images with
  | [] => []
  | upload :: rest =>
      saved_filename (clock tick) (filename upload)
      :: request_names (S tick) rest
  end.

(** The argument list of [subprocess.run], with [str(RAW_DIR)],
    [str(PAIRS_DIR)] and [str(RESULTS_FILE)]. *)
Definition pipeline_argv (threshold : float) : list string :=
  [python_executable; "Face_Recognition_System.py";
   "--input-dir"; Text.path_div base_dir "RawImages";
   "--output-dir"; Text.path_div base_dir "pairs";
   "--threshold"; str_float threshold;
   "--results-file"; Text.path_div base_dir "results.txt"].

Definition subprocess_run (argv : list string) : Handler CompletedProcess :=
  fun w =>
    let '(result, d) := run_subprocess argv (disk w) in
    (Ok result,
     {| disk := d; ticks := ticks w; invoked := invoked w ++ [argv] |}).

Definition json_response (code : nat) (body : list (string * json)) : Response :=
  {| status_code := code; content := body |}.

(** The answer to a request whose uploads were saved, from what the
    pipeline returned and the disk it left. *)
Definition pipeline_response (result : CompletedProcess) (d : Disk) : Response :=
  if negb (returncode result =? 0)%Z then
    json_response 500
      [("success", JBool false);
       ("error",
        JStr (if String.eqb (strip (stderr result)) EmptyString
              then "Face recognition failed."
              else strip (stderr result)));
       ("output", JStr (stdout result))]
  else
    match results_txt d with
    | None =>
        json_response 500
          [("success", JBool false); ("error", JStr "Results file not found.")]
    | Some results_text =>
        json_response 200
          [("success", JBool true); ("results", JStr results_text);
           ("output", JStr (stdout result))]
    end.

(** The [try] block of the [/compare] handler. *)
Definition compare_body (images : list UploadFile) (threshold : float)
    : Handler Response :=
  if length images <? 2 then
    hret (json_response 400
            [("success", JBool false);
             ("error", JStr "Please upload at least two images.")])
  else
    (clear_raw_images ;ₕ
     save_uploads images ;ₕ
     result ←ₕ subprocess_run (pipeline_argv threshold);
     if negb (returncode result =? 0)%Z then
       hret (json_response 500
               [("success", JBool false);
                ("error",
                 JStr (if String.eqb (strip (stderr result)) EmptyString
                       then "Face recognition failed."
                       else strip (stderr result)));
                ("output", JStr (stdout result))])
     else
       fun w =>
         match results_txt (disk w) with
         | None =>
             (Ok (json_response 500
                    [("success", JBool false);
                     ("error", JStr "Results file not found.")]), w)
         | Some results_text =>
             (Ok (json_response 200
                    [("success", JBool true);
                     ("results", JStr results_text);
                     ("output", JStr (stdout result))]), w)
         end).

(** The [/compare] endpoint.  [images] is declared with [File(...)], a
    required field: a request that carries no image fails the validation
    of the framework, which answers 422 without calling the handler.
    Otherwise the [try] block runs, and the [except] turns any exception
    into a 500 response. *)
Definition compare_faces (images : list UploadFile) (threshold : float)
    (w : World) : Response * World :=
  match images with
  | [] => (json_response 422 [("detail", validation_detail)], w)
  | _ :: _ =>
      match compare_body images threshold w with
      | (Ok response, w') => (response, w')
      | (Raise exc, w') =>
          (json_response 500 [("success", JBool false); ("error", JStr exc)],
           w')
      end
  end.

End Endpoint.

End Server.

(** ** test.py: the triplet dataset *)

Module Triplets.

Import Py.

(** A dict from labels to lists of sample indices, in insertion order of
    its keys. *)
Definition index_table : Type := list (nat * list nat).

(** [d[label]]. *)
Fixpoint table_get (d : index_table) (label : nat) : option (list nat) :=
  match d with
  | [] => None
  | (k, l) :: d' => if k =? label then Some l else table_get d' label
  end.

(** [d.setdefault(label, []).append(idx)]. *)
Fixpoint setdefault_append (label idx : nat) (d : index_table) : index_table :=
  match d with
  | [] => [(label, [idx])]
  | (k, l) :: d' =>
      if k =? label then (k, l ++ [idx]) :: d'
      else (k, l) :: setdefault_append label idx d'
  end.

(** [enumerate(samples)], counting from [start]. *)
Definition enumerate {A} (start : nat) (l : list A) : list (nat * A) :=
  combine (seq start (length l)) l.

(** The loop of [__init__] that groups the sample indices by label. *)
Definition group_by_label (samples : list (string * nat)) : index_table :=
  fold_left
    (fun d entry => setdefault_append entry.2.2 entry.1 d)
    (enumerate 0 samples) [].

(** The grouping loop from a table [d] on, the first sample having the
    index [start]. *)
Definition group_from (start : nat) (samples : list (string * nat))
    (d : index_table) : index_table :=
  fold_left
    (fun d entry => setdefault_append entry.2.2 entry.1 d)
    (enumerate start samples) d.

(** [{v: k for k, v in class_to_idx.items()}]. *)
Definition invert (class_to_idx : list (string * nat)) : gmap nat string :=
  fold_left (fun m kv => <[kv.2 := kv.1]> m) class_to_idx ∅.

Record TripletFaceDataset : Type := {
  samples : list (string * nat);
  class_to_idx : list (string * nat);
  idx_to_class : gmap nat string;
  class_indices : index_table
}.

(** [TripletFaceDataset.__init__] from its second line on, for the
    samples and the class table [ImageFolder] returned. *)
Definition init (samples : list (string * nat))
    (class_to_idx : list (string * nat)) : Exc TripletFaceDataset :=
  let class_indices := group_by_label samples in
  if length class_indices <? 2 then
    Raise "Dataset must contain at least 2 classes for negative sampling."
  else
    Ok {| samples := samples;
          class_to_idx := class_to_idx;
          idx_to_class := invert class_to_idx;
          class_indices := class_indices |}.

(** [TripletFaceDataset.__init__] for a root directory: [ImageFolder]
    (of [torchvision], a parameter here) returns the samples and the class
    table or raises, and then the lines above run. *)
Definition init_root
    (image_folder : string -> Exc (list (string * nat) * list (string * nat)))
    (root : string) : Exc TripletFaceDataset :=
  folder ← image_folder root;
  init folder.1 folder.2.

(** [len(dataset)]. *)
Definition len (ds : TripletFaceDataset) : nat := length (samples ds).

Section Sampling.

(** An image after loading and transforming. *)
Variable Img : Type.
(** The loader and transform of the image folder. *)
Variable load : string -> Img.
(** The random source: the number drawn by the n-th call. *)
Variable draw : nat -> nat.

(** [self.dataset[index]]. *)
Definition dataset_getitem (ds : TripletFaceDataset) (index : nat)
    : Exc (Img * nat) :=
  match samples ds !! index with
  | Some (path, label) => Ok (load path, label)
  | None => Raise "list index out of range"
  end.

(** [random.choice(seq)] as the call number [k]. *)
Definition choice {A} (k : nat) (seq : list A) : Exc A :=
  match seq with
  | [] => Raise "Cannot choose from an empty sequence"
  | _ :: _ =>
      match seq !! (draw k mod length seq) with
      | Some a => Ok a
      | None => Raise "list index out of range"
      end
  end.

(** [self.class_indices[label]]. *)
Definition members (ds : TripletFaceDataset) (label : nat) : Exc (list nat) :=
  match table_get (class_indices ds) label with
  | Some l => Ok l
  | None => Raise "KeyError"
  end.

(** [while positive_index == index: positive_index = random.choice(...)];
    returns the index and the number of the next draw.  [None]: the loop
    has not left after [fuel] draws. *)
Fixpoint positive_loop (fuel : nat) (ds : TripletFaceDataset)
    (index anchor_label positive_index k : nat) : option (Exc (nat * nat)) :=
  if positive_index =? index then
    match fuel with
    | 0 => None
    | S fuel' =>
        match l ← members ds anchor_label; choice k l with
        | Ok p => positive_loop fuel' ds index anchor_label p (S k)
        | Raise e => Some (Raise e)
        end
    end
  else Some (Ok (positive_index, k)).

(** [while negative_label == anchor_label: negative_label = ...]. *)
Fixpoint negative_loop (fuel : nat) (ds : TripletFaceDataset)
    (anchor_label negative_label k : nat) : option (Exc (nat * nat)) :=
  if negative_label =? anchor_label then
    match fuel with
    | 0 => None
    | S fuel' =>
        match choice k (map fst (class_indices ds)) with
        | Ok label => negative_loop fuel' ds anchor_label label (S k)
        | Raise e => Some (Raise e)
        end
    end
  else Some (Ok (negative_label, k)).

(** [TripletFaceDataset.__getitem__], the next draw being number [k];
    returns the triplet with the anchor's label, and the number of the
    draw after the last one used. *)
Definition getitem (fuel : nat) (ds : TripletFaceDataset) (index k : nat)
    : option (Exc (Img * Img * Img * nat * nat)) :=
  match dataset_getitem ds index with
  | Raise e => Some (Raise e)
  | Ok (anchor_img, anchor_label) =>
      match positive_loop fuel ds index anchor_label index k with
      | None => None
      | Some (Raise e) => Some (Raise e)
      | Some (Ok (positive_index, k1)) =>
          match dataset_getitem ds positive_index with
          | Raise e => Some (Raise e)
          | Ok (positive_img, _) =>
              match negative_loop fuel ds anchor_label anchor_label k1 with
              | None => None
              | Some (Raise e) => Some (Raise e)
              | Some (Ok (negative_label, k2)) =>
                  Some
                    (negative_index ←
                       (l ← members ds negative_label; choice k2 l);
                     sample ← dataset_getitem ds negative_index;
                     Ok (anchor_img, positive_img, sample.1, anchor_label,
                         S k2))
              end
          end
      end
  end.

End Sampling.

(** The indices of the samples with a given label, in increasing order,
    counted from [start]. *)
Fixpoint indices_of (label start : nat) (samples : list (string * nat))
    : list nat :=
  match samples with
  | [] => []
  | (_, l) :: rest =>
      if l =? label then start :: indices_of label (S start) rest
      else indices_of label (S start) rest
  end.

End Triplets.

(** ** test.py: the evaluation *)

Module Evaluation.

Import Py.

Section Outputs.

(** A tensor. *)
Variable Tensor : Type.

(** What a model call returns: a tensor, or another object, with the
    name of its type, its [logits] attribute when it has one, and its
    items when it is a tuple or a list. *)
#[warnings="-register-all"]
Inductive output : Type :=
| OTensor (t : Tensor)
| OObject (type_name : string) (logits : option output)
    (items : option (list output)).

(** [x.logits] when [hasattr(x, "logits") and torch.is_tensor(x.logits)]. *)
Definition tensor_logits (x : output) : option Tensor :=
  match x with
  | OObject _ (Some (OTensor t)) _ => Some t
  | _ => None
  end.

(** The two tests made on an element [e] of a tuple or list. *)
Definition element_tensor (e : output) : option Tensor :=
  match e with
  | OTensor t => Some t
  | _ => tensor_logits e
  end.

(** [for e in x: ...]: the tensor of the first element that passes one of
    the tests. *)
Fixpoint first_tensor (items : list output) : option Tensor :=
  match items with
  | [] => None
  | e :: rest =>
      match element_tensor e with
      | Some t => Some t
      | None => first_tensor rest
      end
  end.

(** [ensure_tensor]. *)
Definition ensure_tensor (x : output) : Exc Tensor :=
  match x with
  | OTensor t => Ok t
  | OObject type_name _ items =>
      match tensor_logits x with
      | Some t => Ok t
      | None =>
          match items with
          | Some l =>
              match first_tensor l with
              | Some t => Ok t
              | None => Raise ("Unsupported model output: " +:+ type_name)
              end
          | None => Raise ("Unsupported model output: " +:+ type_name)
          end
      end
  end.

End Outputs.

Arguments OTensor {Tensor} t.
Arguments OObject {Tensor} type_name logits items.
Arguments tensor_logits {Tensor} x.
Arguments element_tensor {Tensor} e.
Arguments first_tensor {Tensor} items.
Arguments ensure_tensor {Tensor} x.

Section Evaluate.

(** Batches of images, tensors, distances and the means of distances. *)
Variables Batch Tensor Dist Mean : Type.

(** [model(x)]. *)
Variable model : Batch -> output Tensor.
(** [criterion(a, p, n).item()]. *)
Variable criterion : Tensor -> Tensor -> Tensor -> float.
(** [torch.norm(a - b, p=2, dim=1)], as the list of its entries. *)
Variable row_norms : Tensor -> Tensor -> list Dist.
(** The entry-wise tests [dist < threshold] and [dist > threshold]. *)
Variable below above : Dist -> float -> bool.
(** [anchor.size(0)]. *)
Variable size0 : Batch -> nat.
(** [/] of a float by an integer and of two integers. *)
Variable float_div : float -> nat -> float.
Variable int_div : nat -> nat -> float.
(** [sum(l) / len(l)] for a list that is not empty. *)
Variable mean : list Dist -> Mean.

(** The running totals of one epoch. *)
Record Totals : Type := {
  total_loss : float;
  total_samples : nat;
  correct : nat;
  total_pairs : nat;
  all_ap_dist : list Dist;
  all_an_dist : list Dist
}.

Definition zero_totals : Totals :=
  {| total_loss := 0%float; total_samples := 0; correct := 0;
     total_pairs := 0; all_ap_dist := []; all_an_dist := [] |}.

(** [(mask).sum().item()] for the mask of a test. *)
Definition count_true (test : Dist -> bool) (dists : list Dist) : nat :=
  length (List.filter test dists).

(** The body of the loop over the batches. *)
Definition batch_step (threshold : float) (acc : Totals)
    (batch : Batch * Batch * Batch) : Exc Totals :=
  let '(anchor, positive, negative) := batch in
  anchor_out ← ensure_tensor (model anchor);
  positive_out ← ensure_tensor (model positive);
  negative_out ← ensure_tensor (model negative);
  let loss := criterion anchor_out positive_out negative_out in
  let ap_dist := row_norms anchor_out positive_out in
  let an_dist := row_norms anchor_out negative_out in
  Ok {| total_loss := (total_loss acc + loss)%float;
        total_samples := total_samples acc + 1;
        correct :=
          correct acc
          + (count_true (fun d => below d threshold) ap_dist
             + count_true (fun d => above d threshold) an_dist);
        total_pairs := total_pairs acc + 2 * size0 anchor;
        all_ap_dist := all_ap_dist acc ++ ap_dist;
        all_an_dist := all_an_dist acc ++ an_dist |}.

(** [for step, (anchor, positive, negative, _) in enumerate(dataloader, 1)]. *)
Fixpoint run_batches (threshold : float) (acc : Totals)
    (batches : list (Batch * Batch * Batch)) : Exc Totals :=
  match batches with
  | [] => Ok acc
  | batch :: rest =>
      acc' ← batch_step threshold acc batch;
      run_batches threshold acc' rest
  end.

(** The batches keep the row count of their anchors: both distance
    vectors of a batch have [anchor.size(0)] entries. *)
Definition rows_match (batches : list (Batch * Batch * Batch)) : Prop :=
  forall anchor positive negative a p n,
    In (anchor, positive, negative) batches ->
    ensure_tensor (model anchor) = Ok a ->
    ensure_tensor (model positive) = Ok p ->
    ensure_tensor (model negative) = Ok n ->
    length (row_norms a p) = size0 anchor
    /\ length (row_norms a n) = size0 anchor.

(** [sum(l) / len(l)]: division by zero on the empty list. *)
Definition mean_or_raise (l : list Dist) : Exc Mean :=
  match l with
  | [] => Raise "division by zero"
  | _ :: _ => Ok (mean l)
  end.

(** The figures of one epoch: loss, accuracy and the two mean distances. *)
Definition epoch_summary (t : Totals) : Exc (float * float * Mean * Mean) :=
  let avg_loss := float_div (total_loss t) (Nat.max (total_samples t) 1) in
  let accuracy := int_div (correct t) (Nat.max (total_pairs t) 1) in
  mean_ap ← mean_or_raise (all_ap_dist t);
  mean_an ← mean_or_raise (all_an_dist t);
  Ok (avg_loss, accuracy, mean_ap, mean_an).

(** The four histories. *)
Definition Histories : Type :=
  (list float * list float * list Mean * list Mean)%type.

(** [for epoch in range(epochs)], the epochs still to run being [todo] and
    the next one having the number [epoch]. *)
Fixpoint run_epochs (dataloader : nat -> list (Batch * Batch * Batch))
    (threshold : float) (todo epoch : nat) (h : Histories) : Exc Histories :=
  match todo with
  | 0 => Ok h
  | S todo' =>
      t ← run_batches threshold zero_totals (dataloader epoch);
      s ← epoch_summary t;
      let '(loss_history, acc_history, ap_history, an_history) := h in
      let '(avg_loss, accuracy, mean_ap, mean_an) := s in
      run_epochs dataloader threshold todo' (S epoch)
        (loss_history ++ [avg_loss], acc_history ++ [accuracy],
         ap_history ++ [mean_ap], an_history ++ [mean_an])
  end.

(** [evaluate], the dataloader yielding the batches of each epoch. *)
Definition evaluate (dataloader : nat -> list (Batch * Batch * Batch))
    (epochs : nat) (threshold : float) : Exc Histories :=
  run_epochs dataloader threshold epochs 0 ([], [], [], []).

End Evaluate.

Arguments total_loss {Dist} _.
Arguments total_samples {Dist} _.
Arguments correct {Dist} _.
Arguments total_pairs {Dist} _.
Arguments all_ap_dist {Dist} _.
Arguments all_an_dist {Dist} _.

End Evaluation.

(** ** Concrete runs used below *)

Module Scenarios.

Import Py.

(** *** Collecting crops and reporting *)

Section Pipeline.

Import Recognition.

(** A cropping run that leaves crops 1, 2 and 4 and exits with status 0. *)
Definition gapped_run (argv : list string) (fs : FS) : CompletedProcess * FS :=
  ({| returncode := 0; stdout := EmptyString; stderr := EmptyString |},
   <["pairs/4.jpg" := File]>
     (<["pairs/2.jpg" := File]> (<["pairs/1.jpg" := File]> fs))).

Definition stale_fs : FS :=
  <["pairs/3.jpg" := File]> (<["pairs" := Dir]> ∅).

Definition prepared_fs : FS := <["pairs" := Dir]> ∅.

(** A cropping run that writes the first crop and then dies. *)
Definition failing_run (argv : list string) (fs : FS) : CompletedProcess * FS :=
  ({| returncode := 1; stdout := EmptyString; stderr := "Killed" |},
   <["pairs/1.jpg" := File]> fs).

Definition failed_fs : FS := <["pairs/1.jpg" := File]> (<["pairs" := Dir]> ∅).

(** Three crops written by a successful cropping run. *)
Definition three_crops_run (argv : list string) (fs : FS)
    : CompletedProcess * FS :=
  ({| returncode := 0; stdout := EmptyString; stderr := EmptyString |},
   <["pairs/3.jpg" := File]>
     (<["pairs/2.jpg" := File]> (<["pairs/1.jpg" := File]> fs))).

(** Distances 0.5 for faces (1,2), 1.5 for (1,3) and 2.0 for (2,3). *)
Definition mocked_distance (a b : string) : float :=
  if String.eqb a "pairs/1.jpg" && String.eqb b "pairs/2.jpg" then 0.5%float
  else if String.eqb a "pairs/1.jpg" && String.eqb b "pairs/3.jpg"
       then 1.5%float
       else 2.0%float.

(** Comparisons that all return, and a results file that can be
    written. *)
Definition all_readable (a b : string) : option string := None.

Definition writable (fs : FS) (p : string) : option string := None.

(** The second crop cannot be decoded. *)
Definition second_unreadable (a b : string) : option string :=
  if String.eqb a "pairs/2.jpg" || String.eqb b "pairs/2.jpg"
  then Some "cannot identify image file 'pairs/2.jpg'"
  else None.

(** The results file is to be written into a directory that is
    missing. *)
Definition no_folder (fs : FS) (p : string) : option string :=
  Some ("[Errno 2] No such file or directory: '" +:+ p +:+ "'").

Definition example_args : Args :=
  {| input_dir := "RawImages"; output_dir := "pairs";
     threshold := 1.0%float; results_file := "results.txt" |}.

Definition example_report : string :=
  String.concat nl
    ["=== Face Recognition Results ===";
     EmptyString;
     "1.jpg vs 2.jpg -> 0.5000 (SAME)";
     "1.jpg vs 3.jpg -> 1.5000 (DIFFERENT)";
     "2.jpg vs 3.jpg -> 2.0000 (DIFFERENT)";
     EmptyString;
     "=== Summary ===";
     "Total comparisons: 3";
     "Same person: 1";
     "Different persons: 2";
     EmptyString].

End Pipeline.

(** *** A walk over images *)

Section Walks.

Import Cropping.

(** Images are named by their path, crops and pictures by a number. *)
Definition demo_open (p : string) : Exc string :=
  if String.eqb p "RawImages/bad.jpg" then Raise "cannot identify image file"
  else Ok p.

Definition demo_forward (img : string) : Exc (option (list nat)) :=
  if String.eqb img "RawImages/empty.jpg" then Ok None else Ok (Some [7; 8; 9]).

Definition demo_box (w h : Z) : Box :=
  {| x1 := f32_of_Z 10; y1 := f32_of_Z 20;
     x2 := f32_of_Z (10 + w); y2 := f32_of_Z (20 + h) |}.

Definition demo_boxes : list Box := [demo_box 2 2; demo_box 5 4; demo_box 4 5].

Definition demo_detect (img : string) : Exc (option (list Box)) :=
  Ok (Some demo_boxes).

Definition demo_picture (face : nat) : Exc nat := Ok (100 + face).

Definition demo_save (face_img : nat) (p : string) : Exc unit := Ok tt.

Definition demo_state : State nat :=
  {| face_counter := 1; saved := []; printed := [] |}.

(** A detector that reports a fourth box, larger than the others. *)
Definition crowded_detect (img : string) : Exc (option (list Box)) :=
  Ok (Some (demo_boxes ++ [demo_box 9 9])).

End Walks.

(** *** Requests *)

Section Requests.

Import Server.

(** Two readings of the clock 0.49 ms apart, within one millisecond. *)
Definition burst_clock (n : nat) : float :=
  match n with
  | 0 => 1700000000.125%float
  | _ => 1700000000.12548828125%float
  end.

(** A pipeline run that succeeds and leaves a report. *)
Definition idle_pipeline (argv : list string) (d : Disk) : CompletedProcess * Disk :=
  ({| returncode := 0; stdout := EmptyString; stderr := EmptyString |},
   {| raw_dir := raw_dir d; results_txt := Some "report" |}).

Definition repr_threshold (x : float) : string := "1.0".

Definition no_strip (s : string) : string := s.

(** The detail of the framework's answer to a request without the
    required field. *)
Definition field_required : json := JStr "Field required".

(** No name is refused, and nothing is written through a
    sub-directory. *)
Definition never_refused (d : Disk) (name : string) : option string := None.

Definition no_subdirectory (d : Disk) (name data : string) : Exc Disk :=
  Raise ("[Errno 2] No such file or directory: '" +:+ name +:+ "'").

Definition world0 : World :=
  {| disk := {| raw_dir := Some ∅; results_txt := None |};
     ticks := 0;
     invoked := [] |}.

Definition same_named : list UploadFile :=
  [{| filename := "face.jpg"; file := "first" |};
   {| filename := "face.jpg"; file := "second" |}].

Definition two_named : list UploadFile :=
  [{| filename := "left.jpg"; file := "first" |};
   {| filename := "right.jpg"; file := "second" |}].

(** A world that holds a staged file and the report of an earlier
    request. *)
Definition served_world : World :=
  {| disk := {| raw_dir := Some {[ "1699999999000_old.jpg" := FileE "old" ]};
                results_txt := Some "earlier report" |};
     ticks := 0;
     invoked := [] |}.

(** A pipeline run that exits with status 0 and writes nothing. *)
Definition silent_pipeline (argv : list string) (d : Disk)
    : CompletedProcess * Disk :=
  ({| returncode := 0; stdout := EmptyString; stderr := EmptyString |}, d).

End Requests.

(** *** A dataset of two classes *)

Section Datasets.

Import Triplets.

Definition demo_samples : list (string * nat) :=
  [("faces/ann/1.jpg", 0); ("faces/ann/2.jpg", 0); ("faces/bob/1.jpg", 1)].

Definition demo_classes : list (string * nat) := [("ann", 0); ("bob", 1)].

Definition demo_dataset : TripletFaceDataset :=
  {| samples := demo_samples;
     class_to_idx := demo_classes;
     idx_to_class := invert demo_classes;
     class_indices := group_by_label demo_samples |}.

(** The draws 1, 1, 0, 0, ... *)
Definition demo_draw (k : nat) : nat := if k <? 2 then 1 else 0.

End Datasets.

(** *** One batch of two triplets *)

Section Epochs.

Import Evaluation.

(** Embeddings of one coordinate: a batch and its output are the list of
    the rows. *)
Definition line_model (batch : list float) : output (list float) :=
  OTensor batch.

Definition line_norms (a b : list float) : list float :=
  zip_with (fun x y => PrimFloat.abs (x - y)) a b.

Definition line_loss (a p n : list float) : float := 0.5%float.

Definition demo_batches : list (list float * list float * list float) :=
  [([0; 1], [0.25; 1.5], [2; 1.25])]%float.

End Epochs.

End Scenarios.

(** * Properties *)

(** ** Text helpers on examples *)

Example path_name_crop : Text.path_name "pairs/12.jpg" = "12.jpg".
Proof. reflexivity. Qed.

Example image_suffix_upper_case :
  Text.endswith_any (Text.lower "a/B.JPG") Cropping.image_suffixes = true.
Proof. reflexivity. Qed.

Example str_small : Text.str 0 = "0" /\ Text.str 120 = "120".
Proof. split; reflexivity. Qed.

Example format_4f_rounds :
  map Recognition.format_4f [0.5; 0.03125; 1234.5; 0.0001220703125]%float
  = ["0.5000"; "0.0312"; "1234.5000"; "0.0001"].
Proof. vm_compute. reflexivity. Qed.

(** ** Strings and paths *)

Section TextFacts.

Import Recognition.

Lemma string_app_cons c (s t : string) :
  String c s +:+ t = String c (s +:+ t).
Proof. reflexivity. Qed.

Lemma string_app_length (s t : string) :
  String.length (s +:+ t) = String.length s + String.length t.
Proof.
  induction s as [|c s IH]; [done|].
  rewrite string_app_cons. simpl. by rewrite IH.
Qed.

Lemma string_app_inv_tail (s1 s2 t : string) :
  s1 +:+ t = s2 +:+ t -> s1 = s2.
Proof.
  revert s2. induction s1 as [|c s1 IH]; intros [|c' s2] H.
  - done.
  - apply (f_equal String.length) in H.
    rewrite !string_app_length in H. simpl in H. lia.
  - apply (f_equal String.length) in H.
    rewrite !string_app_length in H. simpl in H. lia.
  - rewrite !string_app_cons in H. injection H as -> H. f_equal. by apply IH.
Qed.

Lemma string_app_assoc (s t u : string) : (s +:+ t) +:+ u = s +:+ (t +:+ u).
Proof.
  induction s as [|c s IH]; [done|].
  rewrite !string_app_cons. by rewrite IH.
Qed.

Lemma string_app_nil_r (s : string) : s +:+ EmptyString = s.
Proof.
  induction s as [|c s IH]; [done|]. rewrite string_app_cons. by rewrite IH.
Qed.

Lemma concat_cons (s : string) (l : list string) :
  String.concat EmptyString (s :: l) = s +:+ String.concat EmptyString l.
Proof.
  destruct l as [|t l]; simpl; [by rewrite string_app_nil_r|done].
Qed.

Lemma str_inj (n m : nat) : Text.str n = Text.str m -> n = m.
Proof.
  unfold Text.str. intros H.
  apply DecimalNat.Unsigned.to_uint_inj.
  apply (f_equal NilEmpty.uint_of_string) in H.
  rewrite !NilEmpty.usu in H. by injection H.
Qed.

Lemma str_nonempty (n : nat) : 0 < String.length (Text.str n).
Proof.
  unfold Text.str.
  assert (Hnn : Nat.to_uint n <> Decimal.Nil).
  { rewrite <- (DecimalNat.Unsigned.of_to n) at 1.
    rewrite DecimalNat.Unsigned.to_of. apply DecimalFacts.unorm_nonnil. }
  destruct (Nat.to_uint n); simpl; try lia. done.
Qed.

Lemma string_of_uint_no_slash (d : Decimal.uint) :
  Text.has_slash (NilEmpty.string_of_uint d) = false.
Proof. induction d; simpl; done. Qed.

Lemma str_no_slash (n : nat) : Text.has_slash (Text.str n) = false.
Proof. apply string_of_uint_no_slash. Qed.

Lemma has_slash_app (s t : string) :
  Text.has_slash (s +:+ t) = Text.has_slash s || Text.has_slash t.
Proof.
  induction s as [|c s IH]; [done|].
  rewrite string_app_cons. simpl. rewrite IH. by rewrite orb_assoc.
Qed.

Lemma starts_with_slash_has_slash (s : string) :
  Text.starts_with_slash s = true -> Text.has_slash s = true.
Proof. destruct s as [|c s]; simpl; [done|]. by intros ->. Qed.

(** The name [n.jpg] has no slash. *)
Lemma jpg_name_no_slash (n : nat) :
  Text.has_slash (Text.str n +:+ ".jpg") = false.
Proof. rewrite has_slash_app, str_no_slash. reflexivity. Qed.

Lemma os_path_join_inj (a b1 b2 : string) :
  Text.has_slash b1 = false -> Text.has_slash b2 = false ->
  Text.os_path_join a b1 = Text.os_path_join a b2 -> b1 = b2.
Proof.
  intros H1 H2. unfold Text.os_path_join.
  destruct (Text.starts_with_slash b1) eqn:E1.
  { apply starts_with_slash_has_slash in E1. congruence. }
  destruct (Text.starts_with_slash b2) eqn:E2.
  { apply starts_with_slash_has_slash in E2. congruence. }
  destruct (_ || _); intros H.
  - by apply (inj (String.app a)) in H.
  - by apply (inj (String.app a)), (inj (String.app "/")) in H.
Qed.

Lemma split_slash_no_slash (name cur : string) :
  Text.has_slash name = false ->
  Text.split_slash name cur = [cur +:+ name].
Proof.
  revert cur. induction name as [|c name IH]; intros cur H; simpl.
  - by rewrite string_app_nil_r.
  - simpl in H. apply orb_false_iff in H as [Hc H]. rewrite Hc.
    rewrite IH by done. by rewrite string_app_assoc.
Qed.

Lemma split_slash_app (s t cur : string) :
  Text.split_slash (s +:+ String "/" t) cur
  = Text.split_slash s cur ++ Text.split_slash t EmptyString.
Proof.
  revert cur. induction s as [|c s IH]; intros cur.
  - reflexivity.
  - rewrite string_app_cons. simpl.
    destruct (Ascii.eqb c _); rewrite IH; reflexivity.
Qed.

Lemma path_name_last_component (d name : string) :
  Text.has_slash name = false ->
  name <> EmptyString -> name <> "." ->
  Text.path_name (d +:+ "/" +:+ name) = name.
Proof.
  intros Hslash Hne Hdot. unfold Text.path_name.
  change (d +:+ "/" +:+ name) with (d +:+ String "/" name).
  rewrite split_slash_app, (split_slash_no_slash name) by done.
  change (EmptyString +:+ name) with name.
  rewrite List.filter_app. cbn [List.filter].
  apply String.eqb_neq in Hne, Hdot. rewrite Hne, Hdot. cbn [orb negb].
  apply last_last.
Qed.

Lemma path_name_plain (name : string) :
  Text.has_slash name = false ->
  name <> EmptyString -> name <> "." ->
  Text.path_name name = name.
Proof.
  intros Hslash Hne Hdot. unfold Text.path_name.
  rewrite split_slash_no_slash by done.
  change (EmptyString +:+ name) with name. cbn [List.filter].
  apply String.eqb_neq in Hne, Hdot. by rewrite Hne, Hdot.
Qed.

Lemma strip_prefix_app (pre s : string) :
  strip_prefix pre (pre +:+ s) = Some s.
Proof.
  induction pre as [|c pre IH]; [by destruct s|].
  rewrite string_app_cons. simpl. by rewrite Ascii.eqb_refl.
Qed.

Lemma strip_prefix_length (pre s rest : string) :
  strip_prefix pre s = Some rest ->
  String.length s = String.length pre + String.length rest.
Proof.
  revert s. induction pre as [|c pre IH]; intros s H.
  - destruct s; simpl in H; injection H as <-; done.
  - destruct s as [|c' s]; simpl in H; [done|].
    destruct (Ascii.eqb c c'); [|done]. simpl. by rewrite (IH _ H).
Qed.

Lemma rfind_dot_app (s t : string) (i : nat) :
  rfind_dot (s +:+ t) i
  = match rfind_dot t (i + String.length s) with
    | Some k => Some k
    | None => rfind_dot s i
    end.
Proof.
  revert i. induction s as [|c s IH]; intros i.
  - simpl. rewrite Nat.add_0_r. change (EmptyString +:+ t) with t.
    by destruct (rfind_dot t i).
  - rewrite string_app_cons. cbn [rfind_dot String.length]. rewrite IH.
    replace (S i + String.length s) with (i + S (String.length s)) by lia.
    by destruct (rfind_dot t _).
Qed.

Lemma substring_app_tail (s t : string) :
  substring (String.length s) (String.length t) (s +:+ t) = t.
Proof.
  induction s as [|c s IH].
  - change (EmptyString +:+ t) with t. simpl.
    induction t as [|c t IHt]; [done|]. simpl. by rewrite IHt.
  - by rewrite string_app_cons.
Qed.

Lemma suffix_jpg (stem : string) :
  0 < String.length stem -> suffix (stem +:+ ".jpg") = ".jpg".
Proof.
  intros Hlen. unfold suffix. rewrite rfind_dot_app. cbn [rfind_dot].
  simpl Ascii.eqb. cbn iota. rewrite string_app_length. simpl String.length.
  replace (0 + String.length stem) with (String.length stem) by lia.
  assert (H1 : (0 <? String.length stem) = true) by by apply Nat.ltb_lt.
  assert (H2 : (String.length stem <? String.length stem + 4 - 1) = true)
    by (apply Nat.ltb_lt; lia).
  rewrite H1, H2. cbn [andb].
  replace (String.length stem + 4 - String.length stem) with
    (String.length ".jpg") by (simpl; lia).
  apply substring_app_tail.
Qed.

Lemma string_app_inv_head (s t1 t2 : string) :
  s +:+ t1 = s +:+ t2 -> t1 = t2.
Proof.
  induction s as [|c s IH]; [done|].
  rewrite !string_app_cons. intros [= H]. by apply IH.
Qed.

Lemma one_part_no_root (name : string) :
  Text.one_part name -> Text.starts_with_slash name = false.
Proof.
  intros (Hs & _ & _). destruct (Text.starts_with_slash name) eqn:E; [|done].
  apply starts_with_slash_has_slash in E. congruence.
Qed.

Lemma path_parts_one_part (name : string) :
  Text.one_part name -> Text.path_parts name = [name].
Proof.
  intros (Hs & Hne & Hdot). unfold Text.path_parts.
  rewrite split_slash_no_slash by done.
  change (EmptyString +:+ name) with name. cbn [List.filter].
  apply String.eqb_neq in Hne, Hdot. by rewrite Hne, Hdot.
Qed.

Lemma jpg_name_one_part (n : nat) : Text.one_part (Text.str n +:+ ".jpg").
Proof.
  assert (Hlen : 4 < String.length (Text.str n +:+ ".jpg")).
  { rewrite string_app_length. pose proof (str_nonempty n). simpl. lia. }
  split; [apply jpg_name_no_slash|].
  split; intros H; rewrite H in Hlen; simpl in Hlen; lia.
Qed.

Lemma concat_snoc (sep x name : string) (l : list string) :
  String.concat sep ((x :: l) ++ [name])
  = String.concat sep (x :: l) +:+ sep +:+ name.
Proof.
  revert x. induction l as [|y l IH]; intros x; [done|].
  change (String.concat sep ((x :: y :: l) ++ [name]))
    with (x +:+ sep +:+ String.concat sep ((y :: l) ++ [name])).
  rewrite IH.
  change (String.concat sep (x :: y :: l))
    with (x +:+ sep +:+ String.concat sep (y :: l)).
  by rewrite !string_app_assoc.
Qed.

(** [str(Path(d) / name)] for a name of one part is the name behind the
    prefix of the directory. *)
Lemma path_div_one_part (d name : string) :
  Text.one_part name -> Text.path_div d name = Text.dir_prefix d +:+ name.
Proof.
  intros Hname. unfold Text.path_div, Text.dir_prefix, Text.path_str.
  rewrite (one_part_no_root name), (path_parts_one_part name) by done.
  destruct (Text.path_parts d) as [|c l].
  - reflexivity.
  - unfold Text.path_of.
    change ((c :: l) ++ [name]) with (c :: l ++ [name]).
    change (c :: l ++ [name]) with ((c :: l) ++ [name]).
    rewrite concat_snoc. by rewrite !string_app_assoc.
Qed.

Lemma path_root_cases (p : string) :
  Text.path_root p = EmptyString \/ Text.path_root p = "/"
  \/ Text.path_root p = "//".
Proof.
  unfold Text.path_root.
  destruct (Text.starts_with_slash p); [|by left].
  destruct (Text.starts_with_slash (Text.tail p)); [|by right; left].
  destruct (Text.starts_with_slash (Text.tail (Text.tail p)));
    [by right; left|by right; right].
Qed.

(** The prefix of a directory is empty or ends with a slash. *)
Lemma dir_prefix_cases (d : string) :
  Text.dir_prefix d = EmptyString
  \/ exists a, Text.dir_prefix d = a +:+ "/".
Proof.
  unfold Text.dir_prefix. destruct (Text.path_parts d).
  - destruct (path_root_cases d) as [->|[->| ->]].
    + by left.
    + right. by exists EmptyString.
    + right. by exists "/".
  - right. by eexists.
Qed.

(** [Path(Path(d) / name).name] is the name. *)
Lemma path_name_path_div (d name : string) :
  Text.one_part name -> Text.path_name (Text.path_div d name) = name.
Proof.
  intros Hname. rewrite path_div_one_part by done.
  destruct Hname as (Hs & Hne & Hdot).
  destruct (dir_prefix_cases d) as [->|[a ->]].
  - by apply path_name_plain.
  - rewrite string_app_assoc. by apply path_name_last_component.
Qed.

Lemma path_div_inj (d a b : string) :
  Text.one_part a -> Text.one_part b ->
  Text.path_div d a = Text.path_div d b -> a = b.
Proof.
  intros Ha Hb. rewrite !path_div_one_part by done.
  apply string_app_inv_head.
Qed.

Lemma lookup_map {A B} (f : A -> B) (l : list A) (i : nat) :
  map f l !! i = f <$> l !! i.
Proof.
  revert i. induction l as [|a l IH]; intros [|i]; simpl; done.
Qed.

End TextFacts.

(** ** Pairwise comparison *)

Section ComparatorFacts.

Import Recognition.

Variable compare_faces : string -> string -> float.

Lemma inner_loop_app faces threshold i js results :
  fold_left
    (fun results j => results ++ [pair_entry compare_faces faces threshold i j])
    js results
  = results ++ map (pair_entry compare_faces faces threshold i) js.
Proof.
  revert results.
  induction js as [|j js IH]; intros results; simpl.
  - by rewrite app_nil_r.
  - rewrite IH. by rewrite <- app_assoc.
Qed.

Lemma outer_loop_app faces threshold is_ results :
  fold_left
    (fun results i => inner_loop compare_faces faces threshold i results)
    is_ results
  = results ++
    flat_map
      (fun i => map (pair_entry compare_faces faces threshold i)
                  (range (i + 1) (length faces)))
      is_.
Proof.
  revert results.
  induction is_ as [|i is_ IH]; intros results; simpl.
  - by rewrite app_nil_r.
  - rewrite IH. unfold inner_loop. rewrite inner_loop_app.
    by rewrite <- app_assoc.
Qed.

Lemma flat_map_map_pair {A B C} (f : A -> list B) (g : A -> B -> C) l :
  flat_map (fun a => map (g a) (f a)) l
  = map (fun p => g p.1 p.2) (flat_map (fun a => map (pair a) (f a)) l).
Proof.
  induction l as [|a l IH]; simpl; [done|].
  rewrite map_app, map_map. simpl. by rewrite IH.
Qed.

(** The loops, for two faces or more, visit [pair_indices]. *)
Lemma loops_visit_pair_indices faces threshold :
  fold_left
    (fun results i => inner_loop compare_faces faces threshold i results)
    (range 0 (length faces)) []
  = map (fun p => pair_entry compare_faces faces threshold p.1 p.2)
      (pair_indices (length faces)).
Proof.
  rewrite outer_loop_app. simpl.
  unfold pair_indices.
  apply (flat_map_map_pair (fun i => range (i + 1) (length faces))
           (pair_entry compare_faces faces threshold)).
Qed.

Lemma pair_indices_small n : n < 2 -> pair_indices n = [].
Proof.
  intros Hn. unfold pair_indices, range.
  destruct n as [|[|n]]; [done| |lia].
  reflexivity.
Qed.

Lemma compare_all_pairs_indices faces threshold :
  compare_all_pairs compare_faces faces threshold
  = map (fun p => pair_entry compare_faces faces threshold p.1 p.2)
      (pair_indices (length faces)).
Proof.
  unfold compare_all_pairs.
  destruct (length faces <? 2) eqn:Hlen.
  - apply Nat.ltb_lt in Hlen. by rewrite pair_indices_small.
  - apply loops_visit_pair_indices.
Qed.

Lemma in_pair_indices n i j :
  In (i, j) (pair_indices n) <-> i < j /\ j < n.
Proof.
  unfold pair_indices, range. rewrite in_flat_map. split.
  - intros (i' & Hi' & Hin). apply in_map_iff in Hin.
    destruct Hin as (j' & Heq & Hj'). inversion Heq; subst.
    apply in_seq in Hj'. lia.
  - intros [Hij Hjn]. exists i. split.
    + apply in_seq. lia.
    + apply in_map_iff. exists j. split; [done|]. apply in_seq. lia.
Qed.

Lemma NoDup_rows (f : nat -> list nat) a k :
  (forall i, NoDup (f i)) ->
  NoDup (flat_map (fun i => map (pair i) (f i)) (seq a k)).
Proof.
  intros Hf. revert a.
  induction k as [|k IH]; intros a; simpl; [constructor|].
  apply NoDup_app. split; [|split].
  - apply NoDup_fmap_2; [|apply Hf]. intros x y Hxy. by inversion Hxy.
  - intros [i j] Hin Hin'.
    apply list_elem_of_In, in_map_iff in Hin.
    destruct Hin as (j' & Heq & _). inversion Heq; subst.
    apply list_elem_of_In, in_flat_map in Hin'.
    destruct Hin' as (i' & Hi' & Hin').
    apply in_map_iff in Hin'. destruct Hin' as (j'' & Heq' & _).
    inversion Heq'; subst. apply in_seq in Hi'. lia.
  - apply IH.
Qed.

Lemma NoDup_pair_indices n : NoDup (pair_indices n).
Proof.
  unfold pair_indices, range.
  apply (NoDup_rows (fun i => seq (i + 1) (n - (i + 1)))).
  intros i. apply NoDup_ListNoDup, List.seq_NoDup.
Qed.

Lemma length_rows n a k :
  a + k = n ->
  2 * length (flat_map (fun i => map (pair i) (range (i + 1) n)) (seq a k))
  = k * (k - 1).
Proof.
  revert a. induction k as [|k IH]; intros a Hak; [done|].
  cbn [seq flat_map]. rewrite length_app, length_map.
  unfold range at 1. rewrite length_seq.
  specialize (IH (S a) ltac:(lia)).
  replace (n - (a + 1)) with k by lia.
  destruct k as [|k]; [simpl in *; lia|].
  replace (S k - 1) with k in IH by lia.
  replace (S (S k) - 1) with (S k) by lia. nia.
Qed.

Lemma length_pair_indices n : length (pair_indices n) = n * (n - 1) / 2.
Proof.
  unfold pair_indices, range at 2.
  assert (H := length_rows n 0 n eq_refl).
  replace (n - 0) with n by lia.
  rewrite <- H, Nat.mul_comm. symmetry. by apply Nat.div_mul.
Qed.

(** The entry of the faces at the positions [i < j]. *)
Lemma pair_entry_lookup faces threshold i j a b :
  faces !! i = Some a -> faces !! j = Some b ->
  pair_entry compare_faces faces threshold i j
  = (a, b, compare_faces a b, PrimFloat.ltb (compare_faces a b) threshold).
Proof.
  intros Ha Hb. unfold pair_entry.
  by rewrite (list_lookup_total_correct _ _ _ Ha),
    (list_lookup_total_correct _ _ _ Hb).
Qed.

(** Position by position, the results are the entries of [pair_indices]. *)
Lemma compare_all_pairs_lookup faces threshold k :
  compare_all_pairs compare_faces faces threshold !! k
  = (fun p => pair_entry compare_faces faces threshold p.1 p.2)
    <$> pair_indices (length faces) !! k.
Proof. rewrite compare_all_pairs_indices. apply lookup_map. Qed.

End ComparatorFacts.

Section FloatOrder.

(** Python's [<] on floats is [PrimFloat.ltb]; it is irreflexive, also at
    infinities and NaN. *)
Lemma SFcompare_refl_not_Lt (s : spec_float) : SFcompare s s <> Some Lt.
Proof.
  destruct s as [b|b| |b m e]; simpl; try destruct b; try discriminate;
    rewrite Z.compare_refl, ?Pos.compare_cont_refl, ?Pos.compare_refl;
    simpl; discriminate.
Qed.

Lemma float_ltb_irrefl (x : float) : PrimFloat.ltb x x = false.
Proof.
  rewrite FloatAxioms.ltb_spec. unfold SFltb.
  destruct (SFcompare (Prim2SF x) (Prim2SF x)) as [[| |]|] eqn:Hc; try done.
  by apply SFcompare_refl_not_Lt in Hc.
Qed.

Lemma float_eqb_not_ltb (x y : float) :
  PrimFloat.eqb x y = true -> PrimFloat.ltb x y = false.
Proof.
  rewrite FloatAxioms.eqb_spec, FloatAxioms.ltb_spec. unfold SFeqb, SFltb.
  by destruct (SFcompare (Prim2SF x) (Prim2SF y)) as [[| |]|].
Qed.

Lemma float_ltb_compare (x y : float) :
  PrimFloat.ltb x y = true <-> SFcompare (Prim2SF x) (Prim2SF y) = Some Lt.
Proof.
  rewrite FloatAxioms.ltb_spec. unfold SFltb.
  destruct (SFcompare (Prim2SF x) (Prim2SF y)) as [[| |]|]; split; congruence.
Qed.


Ltac compare_cases :=
  repeat match goal with
    | H : context [Z.compare ?a ?b] |- _ =>
        destruct (Z.compare_spec a b); simpl in H
    | H : context [Pos.compare ?a ?b] |- _ =>
        destruct (Pos.compare_spec a b); simpl in H
    | |- context [Z.compare ?a ?b] => destruct (Z.compare_spec a b); simpl
    | |- context [Pos.compare ?a ?b] => destruct (Pos.compare_spec a b); simpl
    end.

(** The order of the float comparison is transitive: below something that
    is below or equal to a third value means below the third. *)
Lemma SFcompare_lt_le_trans (x y z : spec_float) :
  SFcompare x y = Some Lt ->
  SFcompare y z = Some Lt \/ SFcompare y z = Some Eq ->
  SFcompare x z = Some Lt.
Proof.
  destruct x as [sx|sx| |sx mx ex], y as [sy|sy| |sy my ey],
    z as [sz|sz| |sz mz ez];
    try destruct sx; try destruct sy; try destruct sz; simpl;
    intros H1 H2; try discriminate H1;
    try (destruct H2 as [H2|H2]; discriminate H2); try reflexivity;
    change (Pos.compare_cont Eq) with Pos.compare in *;
    destruct H2 as [H2|H2];
    compare_cases; try discriminate; try reflexivity; subst; lia.
Qed.

Lemma float_ltb_leb_trans (d t1 t2 : float) :
  PrimFloat.ltb d t1 = true -> PrimFloat.leb t1 t2 = true ->
  PrimFloat.ltb d t2 = true.
Proof.
  rewrite !FloatAxioms.ltb_spec, FloatAxioms.leb_spec.
  unfold SFltb, SFleb. intros H1 H2.
  rewrite (SFcompare_lt_le_trans (Prim2SF d) (Prim2SF t1) (Prim2SF t2)).
  - done.
  - by destruct (SFcompare (Prim2SF d) (Prim2SF t1)) as [[| |]|].
  - destruct (SFcompare (Prim2SF t1) (Prim2SF t2)) as [[| |]|]; auto; done.
Qed.

(** Two values that compare equal compare alike with any third. *)
Lemma SFcompare_eq_l (a v x : spec_float) :
  SFcompare a v = Some Eq -> SFcompare a x = SFcompare v x.
Proof.
  destruct a as [sa|sa| |sa ma ea], v as [sv|sv| |sv mv ev],
    x as [sx|sx| |sx mx ex];
    try destruct sa; try destruct sv; try destruct sx; simpl;
    intros H; try discriminate H; try reflexivity;
    change (Pos.compare_cont Eq) with Pos.compare in *;
    compare_cases; try discriminate; subst; try reflexivity; lia.
Qed.

Lemma SFcompare_eq_r (a v x : spec_float) :
  SFcompare a v = Some Eq -> SFcompare x a = SFcompare x v.
Proof.
  destruct a as [sa|sa| |sa ma ea], v as [sv|sv| |sv mv ev],
    x as [sx|sx| |sx mx ex];
    try destruct sa; try destruct sv; try destruct sx; simpl;
    intros H; try discriminate H; try reflexivity;
    change (Pos.compare_cont Eq) with Pos.compare in *;
    compare_cases; try discriminate; subst; try reflexivity; lia.
Qed.

Lemma SFcompare_antisym (a b : spec_float) (c : comparison) :
  SFcompare a b = Some c -> SFcompare b a = Some (CompOpp c).
Proof.
  destruct a as [sa|sa| |sa ma ea], b as [sb|sb| |sb mb eb];
    try destruct sa; try destruct sb; simpl;
    intros H; try discriminate H; injection H as <-; try reflexivity;
    change (Pos.compare_cont Eq) with Pos.compare in *;
    rewrite (Z.compare_antisym ea eb), (Pos.compare_antisym ma mb);
    destruct (ea ?= eb)%Z; simpl; try reflexivity;
    by destruct (ma ?= mb)%positive.
Qed.

Lemma SFcompare_total (a b : spec_float) :
  a <> S754_nan -> b <> S754_nan -> exists c, SFcompare a b = Some c.
Proof.
  destruct a as [sa|sa| |sa ma ea], b as [sb|sb| |sb mb eb];
    try done; intros _ _; simpl; by eexists.
Qed.

Lemma SFltb_trans (a b c : spec_float) :
  SFltb a b = true -> SFltb b c = true -> SFltb a c = true.
Proof.
  unfold SFltb. intros H1 H2.
  rewrite (SFcompare_lt_le_trans a b c); [done| |].
  - by destruct (SFcompare a b) as [[| |]|].
  - left. by destruct (SFcompare b c) as [[| |]|].
Qed.

(** Where neither value is a NaN, "not below" is "above or equal". *)
Lemma SFltb_false_leb (a b : spec_float) :
  a <> S754_nan -> b <> S754_nan -> SFltb a b = false -> SFleb b a = true.
Proof.
  intros Ha Hb. destruct (SFcompare_total a b Ha Hb) as [c Hc].
  unfold SFltb, SFleb. rewrite (SFcompare_antisym a b c Hc), Hc.
  by destruct c.
Qed.

Lemma SFeqb_false_ltb (a b : spec_float) :
  SFleb a b = true -> SFeqb a b = false -> SFltb a b = true.
Proof.
  unfold SFleb, SFeqb, SFltb. by destruct (SFcompare a b) as [[| |]|].
Qed.

End FloatOrder.

Section ComparatorClaims.

Import Recognition.

Variable compare_faces : string -> string -> float.

(** C1.  Over [n] faces and any threshold, [compare_all_pairs] returns
    one entry for each pair of positions [i < j < n] and no other: the
    entry of such a pair holds the two faces at these positions, their
    distance and the decision, it stands at one position of the result,
    and every entry of the result is the entry of such a pair.  The pairs
    are listed once each and never with their mirror image, so there are
    [n * (n - 1) / 2] entries; with fewer than two faces the result is
    empty. *)
Theorem compare_all_pairs_each_pair_once (faces : list string) (threshold : float) :
  let n := length faces in
  let results := compare_all_pairs compare_faces faces threshold in
  results
  = map
      (fun p =>
         (faces !!! p.1, faces !!! p.2,
          compare_faces (faces !!! p.1) (faces !!! p.2),
          PrimFloat.ltb (compare_faces (faces !!! p.1) (faces !!! p.2))
            threshold))
      (pair_indices n)
  /\ NoDup (pair_indices n)
  /\ (forall i j, In (i, j) (pair_indices n) <-> i < j /\ j < n)
  /\ (forall i j, In (i, j) (pair_indices n) -> ~ In (j, i) (pair_indices n))
  /\ (forall i j a b,
        i < j -> faces !! i = Some a -> faces !! j = Some b ->
        exists k,
          pair_indices n !! k = Some (i, j)
          /\ results !! k
             = Some (a, b, compare_faces a b,
                     PrimFloat.ltb (compare_faces a b) threshold)
          /\ (forall k', pair_indices n !! k' = Some (i, j) -> k' = k))
  /\ (forall k r,
        results !! k = Some r ->
        exists i j a b,
          i < j /\ faces !! i = Some a /\ faces !! j = Some b
          /\ pair_indices n !! k = Some (i, j)
          /\ r = (a, b, compare_faces a b,
                  PrimFloat.ltb (compare_faces a b) threshold))
  /\ length results = n * (n - 1) / 2
  /\ (n < 2 -> results = []).
Proof.
  intros n results. subst results.
  split; [by rewrite compare_all_pairs_indices|].
  split; [apply NoDup_pair_indices|].
  split; [apply in_pair_indices|].
  split; [|split; [|split; [|split]]].
  - intros i j Hij Hji. apply in_pair_indices in Hij, Hji. lia.
  - intros i j a b Hij Ha Hb.
    assert (Hin : (i, j) ∈ pair_indices n).
    { apply list_elem_of_In, in_pair_indices. split; [done|].
      by apply lookup_lt_Some in Hb. }
    apply list_elem_of_lookup in Hin as [k Hk]. exists k.
    split; [done|]. split.
    + rewrite compare_all_pairs_lookup. fold n. rewrite Hk. cbn [fmap option_fmap option_map fst snd].
      f_equal. by apply pair_entry_lookup.
    + intros k' Hk'.
      by apply (NoDup_lookup _ _ _ _ (NoDup_pair_indices n) Hk' Hk).
  - intros k r Hr. rewrite compare_all_pairs_lookup in Hr. fold n in Hr.
    destruct (pair_indices n !! k) as [[i j]|] eqn:Hk; [|done].
    injection Hr as <-.
    assert (Hin : i < j /\ j < n).
    { apply in_pair_indices, list_elem_of_In. by eapply list_elem_of_lookup_2. }
    destruct (lookup_lt_is_Some_2 faces i) as [a Ha]; [unfold n in Hin; lia|].
    destruct (lookup_lt_is_Some_2 faces j) as [b Hb]; [unfold n in Hin; lia|].
    exists i, j, a, b. split; [lia|]. split; [done|]. split; [done|].
    split; [done|]. by apply pair_entry_lookup.
  - rewrite compare_all_pairs_indices, length_map. apply length_pair_indices.
  - intros Hn. by rewrite compare_all_pairs_indices, pair_indices_small.
Qed.

(** C2.  Every pair of faces gets a decision: for the faces at positions
    [i < j] the result holds the entry with their distance and the flag
    [distance < threshold].  In every entry the flag is this comparison of
    floats: true exactly when the distance compares as strictly less,
    hence false when the two are equal (as floats compare them, or
    identical).  Nothing but the two numbers enters the decision. *)
Theorem same_iff_distance_below_threshold (faces : list string) (threshold : float) :
  (forall i j a b,
     i < j -> faces !! i = Some a -> faces !! j = Some b ->
     In (a, b, compare_faces a b, PrimFloat.ltb (compare_faces a b) threshold)
       (compare_all_pairs compare_faces faces threshold))
  /\ Forall
       (fun r : result =>
          res_dist r = compare_faces (res_img1 r) (res_img2 r)
          /\ res_same r = PrimFloat.ltb (res_dist r) threshold
          /\ (res_same r = true
              <-> SFcompare (Prim2SF (res_dist r)) (Prim2SF threshold) = Some Lt)
          /\ (PrimFloat.eqb (res_dist r) threshold = true -> res_same r = false)
          /\ (res_dist r = threshold -> res_same r = false))
       (compare_all_pairs compare_faces faces threshold).
Proof.
  split.
  - intros i j a b Hij Ha Hb. rewrite compare_all_pairs_indices.
    apply in_map_iff. exists (i, j). split.
    + by apply pair_entry_lookup.
    + apply in_pair_indices. split; [done|]. by apply lookup_lt_Some in Hb.
  - rewrite compare_all_pairs_indices.
    apply List.Forall_forall. intros r Hr.
    apply in_map_iff in Hr. destruct Hr as ([i j] & <- & _).
    unfold pair_entry, res_dist, res_same, res_img1, res_img2. simpl.
    split; [done|]. split; [done|]. split; [apply float_ltb_compare|].
    split.
    + apply float_eqb_not_ltb.
    + intros ->. apply float_ltb_irrefl.
Qed.

End ComparatorClaims.

(** ** Collecting the numbered crops *)

Section CropScanFacts.

Import Py Recognition.

Lemma numbered_crop_inj d i j :
  numbered_crop d i = numbered_crop d j -> i = j.
Proof.
  unfold numbered_crop. intros H.
  apply path_div_inj in H; try apply jpg_name_one_part.
  by apply string_app_inv_tail, str_inj in H.
Qed.

Lemma NoDup_crop_run d k : NoDup (crop_run d k).
Proof.
  unfold crop_run. apply NoDup_fmap_2.
  - intros i j. apply numbered_crop_inj.
  - apply NoDup_ListNoDup, List.seq_NoDup.
Qed.

Lemma exists_dom (fs : FS) p : exists_ fs p = true <-> p ∈ dom fs.
Proof.
  unfold exists_. rewrite bool_decide_eq_true. symmetry. apply elem_of_dom.
Qed.

(** No more numbered crops exist than the file system has paths. *)
Lemma crops_bounded (fs : FS) d k :
  (forall j, 1 <= j <= k -> exists_ fs (numbered_crop d j) = true) ->
  k <= size fs.
Proof.
  intros Hall.
  assert (Hsub : (list_to_set (crop_run d k) : gset string) ⊆ dom fs).
  { intros p Hp. apply elem_of_list_to_set in Hp.
    unfold crop_run in Hp. apply list_elem_of_fmap in Hp.
    destruct Hp as (j & -> & Hj).
    apply list_elem_of_In, in_seq in Hj.
    apply exists_dom, Hall. lia. }
  apply subseteq_size in Hsub.
  rewrite size_list_to_set in Hsub by apply NoDup_crop_run.
  rewrite size_dom in Hsub.
  unfold crop_run in Hsub. by rewrite length_map, length_seq in Hsub.
Qed.

(** The loop from index [i], all crops below [i] being present. *)
Lemma collect_saved_faces_run (fs : FS) d fuel :
  forall i acc,
    1 <= i ->
    (forall j, 1 <= j < i -> exists_ fs (numbered_crop d j) = true) ->
    size fs < fuel + (i - 1) ->
    exists k,
      i - 1 <= k
      /\ collect_saved_faces fuel fs d i acc
         = Some (acc ++ map (numbered_crop d) (seq i (k + 1 - i)))
      /\ (forall j, 1 <= j <= k -> exists_ fs (numbered_crop d j) = true)
      /\ exists_ fs (numbered_crop d (k + 1)) = false.
Proof.
  induction fuel as [|fuel IH]; intros i acc Hi Hbelow Hfuel.
  - assert (i - 1 <= size fs); [|lia].
    apply (crops_bounded fs d). intros j Hj. apply Hbelow. lia.
  - simpl. destruct (exists_ fs (numbered_crop d i)) eqn:Hex.
    + destruct (IH (i + 1) (acc ++ [numbered_crop d i])) as (k & Hk & Hrun & Hall & Hgap).
      * lia.
      * intros j Hj. destruct (decide (j = i)) as [->|]; [done|].
        apply Hbelow. lia.
      * lia.
      * exists k. split; [lia|]. split; [|done].
        rewrite Hrun, <- app_assoc. do 2 f_equal.
        replace (k + 1 - i) with (S (k + 1 - (i + 1))) by lia.
        simpl. by replace (i + 1) with (S i) by lia.
    + exists (i - 1). split; [lia|]. split; [|split].
      * replace (i - 1 + 1 - i) with 0 by lia. simpl. by rewrite app_nil_r.
      * intros j Hj. apply Hbelow. lia.
      * by replace (i - 1 + 1) with i by lia.
Qed.

Lemma collect_saved_faces_maximal (fs : FS) d fuel :
  size fs < fuel ->
  exists faces,
    collect_saved_faces fuel fs d 1 [] = Some faces
    /\ maximal_crop_run fs d faces.
Proof.
  intros Hfuel.
  destruct (collect_saved_faces_run fs d fuel 1 []) as (k & _ & Hrun & Hall & Hgap).
  - lia.
  - intros j Hj. lia.
  - lia.
  - exists (crop_run d k). split.
    + rewrite Hrun. simpl. unfold crop_run. by replace (k + 1 - 1) with k by lia.
    + by exists k.
Qed.

End CropScanFacts.

Section CropScanClaims.

Import Py Recognition Scenarios.

Lemma in_crop_run d k j :
  In (numbered_crop d j) (crop_run d k) <-> 1 <= j <= k.
Proof.
  unfold crop_run. rewrite in_map_iff. split.
  - intros (i & Heq & Hi). apply numbered_crop_inj in Heq. subst i.
    apply in_seq in Hi. lia.
  - intros Hj. exists j. split; [done|]. apply in_seq. lia.
Qed.

(** How [pathlib] spells the crops of an output directory. *)
Example numbered_crop_spelling :
  map (fun d => numbered_crop d 1)
    ["pairs"; "./pairs"; "pairs/"; "out//pairs/."; "/data/out"; EmptyString;
     "."; "/"]
  = ["pairs/1.jpg"; "pairs/1.jpg"; "pairs/1.jpg"; "out/pairs/1.jpg";
     "/data/out/1.jpg"; "1.jpg"; "1.jpg"; "/1.jpg"].
Proof. vm_compute. reflexivity. Qed.

(** C10, as amended.  After the output directory was prepared and the
    cropping child process has run: when the child exits with a non-zero
    status the call returns the empty list without looking at the files;
    when it exits with status 0 (and the loop is given more steps than the
    file system has paths) the call returns exactly the paths
    [str(Path(output_dir) / "1.jpg")], ..., [str(Path(output_dir) / "k.jpg")]
    in this order, where crop [k + 1] is the first that does not exist.
    So the list is empty when [1.jpg] is missing, and a numbered crop is
    returned only if every crop up to it exists. *)
Theorem crop_faces_from_directory_maximal_run
    (run_subprocess : list string -> FS -> CompletedProcess * FS)
    (sys_executable : string)
    (fuel : nat) (device input_dir output_dir : string)
    (fs fs1 fs2 : FS) (result : CompletedProcess) :
  prepare_output_dir output_dir fs = Ok fs1 ->
  run_subprocess (cropping_argv sys_executable input_dir output_dir device) fs1
  = (result, fs2) ->
  size fs2 < fuel ->
  (returncode result <> 0%Z ->
   crop_faces_from_directory run_subprocess sys_executable fuel device
     input_dir output_dir fs
   = Some (Ok [], fs2))
  /\ (returncode result = 0%Z ->
      exists faces,
        crop_faces_from_directory run_subprocess sys_executable fuel device
          input_dir output_dir fs
        = Some (Ok faces, fs2)
        /\ faces
           = map (fun i => Text.path_div output_dir (Text.str i +:+ ".jpg"))
               (seq 1 (length faces))
        /\ (forall i,
              1 <= i <= length faces ->
              exists_ fs2 (Text.path_div output_dir (Text.str i +:+ ".jpg"))
              = true)
        /\ exists_ fs2
             (Text.path_div output_dir
                (Text.str (length faces + 1) +:+ ".jpg"))
           = false
        /\ maximal_crop_run fs2 output_dir faces
        /\ (exists_ fs2 (numbered_crop output_dir 1) = false -> faces = [])
        /\ (forall j,
              In (numbered_crop output_dir j) faces ->
              forall i, 1 <= i <= j ->
                exists_ fs2 (numbered_crop output_dir i) = true)).
Proof.
  intros Hprep Hrun Hfuel. unfold crop_faces_from_directory.
  rewrite Hprep, Hrun. split.
  - intros Hrc. apply Z.eqb_neq in Hrc. by rewrite Hrc.
  - intros Hrc. rewrite Hrc. simpl.
    destruct (collect_saved_faces_maximal fs2 output_dir fuel Hfuel)
      as (faces & Hcollect & Hmax).
    exists faces. rewrite Hcollect. split; [done|].
    destruct Hmax as (k & -> & Hall & Hgap).
    assert (Hlen : length (crop_run output_dir k) = k).
    { unfold crop_run. by rewrite length_map, length_seq. }
    rewrite Hlen.
    split; [done|]. split; [exact Hall|]. split; [exact Hgap|].
    split; [by exists k|]. split.
    + intros Hone. destruct k as [|k]; [done|].
      rewrite Hall in Hone by lia. done.
    + intros j Hj i Hi. apply in_crop_run in Hj. apply Hall. lia.
Qed.

Lemma crop_faces_from_directory_maximal_run_witness :
  exists faces,
    crop_faces_from_directory gapped_run "python3" 8 "cpu" "RawImages"
      "./pairs/" stale_fs
    = Some (Ok faces, (gapped_run [] prepared_fs).2)
    /\ faces = ["pairs/1.jpg"; "pairs/2.jpg"]
    /\ maximal_crop_run (gapped_run [] prepared_fs).2 "./pairs/" faces.
Proof.
  destruct (proj2
    (crop_faces_from_directory_maximal_run gapped_run "python3" 8 "cpu"
       "RawImages" "./pairs/" stale_fs prepared_fs
       (gapped_run [] prepared_fs).2 (gapped_run [] prepared_fs).1
       ltac:(vm_compute; reflexivity) eq_refl ltac:(vm_compute; lia))
    eq_refl) as (faces & Hrun & Hnames & _ & _ & Hmax & _).
  exists faces. split; [exact Hrun|]. split; [|exact Hmax].
  assert (Hfaces :
    crop_faces_from_directory gapped_run "python3" 8 "cpu" "RawImages"
      "./pairs/" stale_fs
    = Some (Ok ["pairs/1.jpg"; "pairs/2.jpg"], (gapped_run [] prepared_fs).2))
    by (vm_compute; reflexivity).
  rewrite Hfaces in Hrun. by injection Hrun as <-.
Defined.

(** The stale crop 3 is unlinked before the child runs; the child leaves
    crops 1, 2 and 4, and crop 4, behind the gap, is not returned. *)
Example gapped_run_returns_first_two :
  fst <$> crop_faces_from_directory gapped_run "python3" 8 "cpu" "RawImages"
            "pairs" stale_fs
  = Some (Ok ["pairs/1.jpg"; "pairs/2.jpg"]).
Proof. vm_compute. reflexivity. Qed.

(** C10 as stated fails: the child wrote [pairs/1.jpg] and exited with
    status 1; the call returns the empty list although crop 1 exists. *)
Lemma crop_faces_from_directory_failed_child :
  crop_faces_from_directory failing_run "python3" 8 "cpu" "RawImages" "pairs" ∅
  = Some (Ok [], failed_fs)
  /\ exists_ failed_fs (numbered_crop "pairs" 1) = true
  /\ ~ maximal_crop_run failed_fs "pairs" [].
Proof.
  split; [vm_compute; reflexivity|]. split; [vm_compute; reflexivity|].
  intros (k & Hk & _ & Hgap).
  destruct k as [|k]; [|discriminate Hk].
  vm_compute in Hgap. discriminate.
Qed.

End CropScanClaims.

(** ** The report *)

Section ReportFacts.

Import Py Recognition.

Lemma count_same_cons r results :
  count_same (r :: results)
  = (if res_same r then 1 else 0) + count_same results.
Proof.
  unfold count_same. rewrite filter_cons.
  destruct (decide (res_same r = true)) as [->|Hr]; [done|].
  by destruct (res_same r).
Qed.

Lemma count_different_cons r results :
  count_different (r :: results)
  = (if res_same r then 0 else 1) + count_different results.
Proof.
  unfold count_different. rewrite filter_cons.
  destruct (decide (res_same r = false)) as [->|Hr]; [done|].
  by destruct (res_same r).
Qed.

(** The loop appends one line per result, in order, and counts the
    entries labelled SAME. *)
Lemma write_lines_spec results f same_count :
  write_lines results f same_count
  = (f +:+ String.concat EmptyString (map report_line results),
     same_count + count_same results).
Proof.
  unfold write_lines. revert f same_count.
  induction results as [|r results IH]; intros f same_count.
  - simpl. rewrite string_app_nil_r. f_equal. unfold count_same. simpl. lia.
  - cbn [fold_left map]. rewrite IH. cbn [fst snd].
    rewrite concat_cons, string_app_assoc, count_same_cons.
    f_equal. destruct (res_same r); lia.
Qed.

Lemma count_same_different results :
  count_same results + count_different results = length results.
Proof.
  induction results as [|r results IH]; [done|].
  rewrite count_same_cons, count_different_cons. simpl.
  destruct (res_same r); lia.
Qed.

End ReportFacts.

Section ReportClaims.

Import Py Recognition Scenarios.

(** C3.  The text [main] writes for a result list is the header, then one
    line [name_a vs name_b -> distance (SAME|DIFFERENT)] per result in the
    order of the list, then the summary with the total, the number of
    results labelled SAME and the number labelled DIFFERENT, which is the
    total minus the SAME count; [main] writes this text for the non-empty
    result of [compare_all_pairs] and writes nothing else.  With three
    crops at distances 0.5, 1.5 and 2.0 and threshold 1.0 the file holds
    three pair lines, the first SAME and the others DIFFERENT, and the
    summary reads 3, 1 and 2. *)
Theorem report_layout :
  (forall results : list result,
     write_report results
     = report_header
       +:+ String.concat EmptyString
             (map
                (fun r =>
                   Text.path_name (res_img1 r) +:+ " vs "
                   +:+ Text.path_name (res_img2 r) +:+ " -> "
                   +:+ format_4f (res_dist r) +:+ " ("
                   +:+ (if res_same r then "SAME" else "DIFFERENT")
                   +:+ ")" +:+ nl)
                results)
       +:+ (nl +:+ "=== Summary ===" +:+ nl
            +:+ "Total comparisons: " +:+ Text.str (length results) +:+ nl
            +:+ "Same person: " +:+ Text.str (count_same results) +:+ nl
            +:+ "Different persons: " +:+ Text.str (count_different results)
            +:+ nl)
     /\ count_different results = length results - count_same results)
  /\ (forall run_subprocess sys_executable compare_faces compare_raises
             open_raises resolve fuel device args fs r p text,
        main run_subprocess sys_executable compare_faces compare_raises
          open_raises resolve fuel device args fs
        = Some (Ok r) ->
        written r = Some (p, text) ->
        exists faces,
          compare_all_pairs compare_faces faces (threshold args) <> []
          /\ p = results_file args
          /\ text
             = write_report
                 (compare_all_pairs compare_faces faces (threshold args)))
  /\ (exists r,
        main three_crops_run "python3" mocked_distance all_readable writable
          id 8 "cpu" example_args ∅
        = Some (Ok r)
        /\ written r = Some ("results.txt", example_report))
  /\ map res_same
       (compare_all_pairs mocked_distance
          ["pairs/1.jpg"; "pairs/2.jpg"; "pairs/3.jpg"] 1.0%float)
     = [true; false; false].
Proof.
  split; [|split; [|split]].
  - intros results.
    assert (Hdiff : count_different results = length results - count_same results).
    { pose proof (count_same_different results). lia. }
    split; [|done].
    unfold write_report. rewrite write_lines_spec. simpl.
    rewrite Hdiff. reflexivity.
  - intros run_subprocess sys_executable compare_faces compare_raises
      open_raises resolve fuel device args fs r p text.
    unfold main.
    destruct (crop_faces_from_directory _ _ _ _ _ _ _) as [[[faces|msg] fs']|];
      [|done|done].
    destruct faces as [|face faces]; [intros [= <-]; done|].
    destruct (comparison_error compare_raises (face :: faces)); [done|].
    destruct (compare_all_pairs compare_faces (face :: faces) (threshold args))
      as [|res results] eqn:Hres; [intros [= <-]; done|].
    destruct (open_raises fs' (results_file args)); [done|].
    intros [= <-] [= <- <-]. exists (face :: faces).
    rewrite Hres. done.
  - eexists. split; [vm_compute; reflexivity|]. vm_compute. reflexivity.
  - vm_compute. reflexivity.
Qed.

End ReportClaims.

(** ** Choosing the largest box *)

Section LargestBoxFacts.

Import Py Cropping.

Lemma SFltb_irrefl (x : spec_float) : SFltb x x = false.
Proof.
  unfold SFltb. destruct (SFcompare x x) as [[| |]|] eqn:Hc; try done.
  by apply SFcompare_refl_not_Lt in Hc.
Qed.

(** [max] returns an item of the list, with its position, that no item
    exceeds. *)
Lemma max_from_spec (l : list float32) :
  forall (pre : list float32) (m : nat * float32),
    pre !! m.1 = Some m.2 ->
    (forall x, In x pre -> f32_ltb m.2 x = false) ->
    (pre ++ l) !! (max_from m (length pre) l).1
    = Some (max_from m (length pre) l).2
    /\ (forall x, In x (pre ++ l) ->
          f32_ltb (max_from m (length pre) l).2 x = false).
Proof.
  induction l as [|a l IH]; intros pre m Hm Hmax.
  - rewrite app_nil_r. by split.
  - cbn [max_from].
    replace (pre ++ a :: l) with ((pre ++ [a]) ++ l)
      by by rewrite <- app_assoc.
    replace (S (length pre)) with (length (pre ++ [a]))
      by (rewrite length_app; simpl; lia).
    apply IH.
    + destruct (f32_ltb m.2 a) eqn:Hlt; cbn [fst snd].
      * rewrite lookup_app_r by lia. by rewrite Nat.sub_diag.
      * by apply lookup_app_l_Some.
    + intros x Hx. apply in_app_or in Hx.
      destruct (f32_ltb m.2 a) eqn:Hlt; cbn [fst snd].
      * destruct Hx as [Hx|[<-|[]]]; [|apply SFltb_irrefl].
        destruct (f32_ltb a x) eqn:Hax; [|done].
        rewrite <- (Hmax x Hx). symmetry. by apply (SFltb_trans _ a).
      * destruct Hx as [Hx|[<-|[]]]; [by apply Hmax|done].
Qed.

(** [index] returns the first position whose item is the object looked
    for or equals it. *)
Lemma index_from_spec (l : list float32) (v : nat * float32) :
  forall pre : list float32,
    (pre ++ l) !! v.1 = Some v.2 ->
    (forall j b, pre !! j = Some b -> j <> v.1 /\ f32_eqb b v.2 = false) ->
    exists k a,
      index_from l v (length pre) = Ok k
      /\ (pre ++ l) !! k = Some a
      /\ (k = v.1 \/ f32_eqb a v.2 = true)
      /\ (forall j b, j < k -> (pre ++ l) !! j = Some b ->
            f32_eqb b v.2 = false).
Proof.
  induction l as [|a l IH]; intros pre Hv Hpre.
  - rewrite app_nil_r in Hv. by destruct (Hpre _ _ Hv).
  - cbn [index_from].
    destruct ((length pre =? v.1) || f32_eqb a v.2) eqn:Htest.
    + exists (length pre), a. split; [done|]. split.
      { rewrite lookup_app_r by lia. by rewrite Nat.sub_diag. }
      split.
      { apply orb_true_iff in Htest as [H|H]; [left|by right].
        by apply Nat.eqb_eq in H. }
      intros j b Hj Hb. rewrite lookup_app_l in Hb by done.
      by destruct (Hpre _ _ Hb).
    + apply orb_false_iff in Htest as [Hne Heq].
      apply Nat.eqb_neq in Hne.
      destruct (IH (pre ++ [a])) as (k & a' & Hidx & Hk & Hsame & Hfirst).
      * by rewrite <- app_assoc.
      * intros j b Hb. apply lookup_app_Some in Hb as [Hb|[Hj Hb]].
        { by apply Hpre. }
        destruct (j - length pre) as [|n] eqn:Hn; [|done].
        injection Hb as <-. split; [lia|done].
      * rewrite length_app in Hidx. cbn [length] in Hidx.
        rewrite Nat.add_1_r in Hidx.
        rewrite <- app_assoc in Hk. cbn [app] in Hk.
        exists k, a'. split; [done|]. split; [done|]. split; [done|].
        intros j b Hj Hb. apply (Hfirst j); [done|].
        by rewrite <- app_assoc.
Qed.

(** [largest_index] is the first position of a box whose area no box
    exceeds. *)
Lemma largest_index_spec (boxes : list Box) :
  boxes <> [] ->
  exists i box,
    largest_index boxes = Ok i
    /\ boxes !! i = Some box
    /\ (forall b, In b boxes -> SFltb (area box) (area b) = false)
    /\ (forall j b, j < i -> boxes !! j = Some b ->
          SFeqb (area b) (area box) = false).
Proof.
  intros Hne. destruct boxes as [|b0 boxes]; [done|].
  unfold largest_index. cbn [map py_max mbind exc_bind].
  set (areas := area b0 :: map area boxes).
  set (m := max_from (0, area b0) 1 (map area boxes)).
  destruct (max_from_spec (map area boxes) [area b0] (0, area b0))
    as [Hm Hmax]; [done| |].
  { intros x [<-|[]]. apply SFltb_irrefl. }
  cbn [length app] in Hm, Hmax. fold m in Hm, Hmax. fold areas in Hm, Hmax.
  destruct (index_from_spec areas m []) as (k & a & Hidx & Hk & Hsame & Hfirst);
    [done|done|].
  cbn [length app] in Hidx, Hk, Hfirst.
  change (area b0 :: map area boxes) with (map area (b0 :: boxes)) in areas.
  unfold areas in Hk. rewrite lookup_map in Hk.
  destruct ((b0 :: boxes) !! k) as [box|] eqn:Hbox; [|done].
  injection Hk as <-.
  exists k, box. split; [exact Hidx|]. split; [done|].
  assert (Heq : area box = m.2 \/ SFcompare (area box) m.2 = Some Eq).
  { destruct Hsame as [->|Heq].
    - left. unfold areas in Hm. rewrite lookup_map, Hbox in Hm.
      by injection Hm.
    - right. unfold f32_eqb, SFeqb in Heq.
      by destruct (SFcompare (area box) m.2) as [[| |]|]. }
  split.
  - intros b Hb.
    assert (Hle : SFltb m.2 (area b) = false).
    { apply Hmax. unfold areas. by apply in_map. }
    destruct Heq as [->|Heq]; [done|].
    unfold SFltb. rewrite (SFcompare_eq_l _ _ _ Heq). exact Hle.
  - intros j b Hj Hb.
    assert (Hne' : SFeqb (area b) m.2 = false).
    { apply (Hfirst j); [done|]. unfold areas. by rewrite lookup_map, Hb. }
    destruct Heq as [->|Heq]; [done|].
    unfold SFeqb. rewrite (SFcompare_eq_r _ _ _ Heq). exact Hne'.
Qed.

(** Where no area is a NaN the box chosen is the first of the largest
    area. *)
Lemma largest_among_numbers (boxes : list Box) (i : nat) (box : Box) :
  boxes !! i = Some box ->
  (forall b, In b boxes -> SFltb (area box) (area b) = false) ->
  (forall j b, j < i -> boxes !! j = Some b ->
     SFeqb (area b) (area box) = false) ->
  (forall b, In b boxes -> area b <> S754_nan) ->
  (forall b, In b boxes -> SFleb (area b) (area box) = true)
  /\ (forall j b, j < i -> boxes !! j = Some b ->
        SFltb (area b) (area box) = true).
Proof.
  intros Hbox Hmax Hfirst Hnum.
  assert (Hin : In box boxes).
  { by eapply list_elem_of_In, list_elem_of_lookup_2. }
  assert (Hle : forall b, In b boxes -> SFleb (area b) (area box) = true).
  { intros b Hb. apply SFltb_false_leb; auto. }
  split; [done|]. intros j b Hj Hb. apply SFeqb_false_ltb.
  - apply Hle. by eapply list_elem_of_In, list_elem_of_lookup_2.
  - by apply (Hfirst j).
Qed.

End LargestBoxFacts.

(** ** The cropping walk *)

Section CroppingFacts.

Import Py Cropping.

Variables Image Tensor Picture : Type.
Variable image_open : string -> Exc Image.
Variable mtcnn_forward : Image -> Exc (option (list Tensor)).
Variable mtcnn_detect : Image -> Exc (option (list Box)).
Variable to_picture : Tensor -> Exc Picture.
Variable save : Picture -> string -> Exc unit.
Variable output_dir : string.

Local Abbreviation try_body :=
  (try_body Image Tensor Picture image_open mtcnn_forward mtcnn_detect
     to_picture save output_dir).
Local Abbreviation process_file :=
  (process_file Image Tensor Picture image_open mtcnn_forward mtcnn_detect
     to_picture save output_dir).
Local Abbreviation process_files :=
  (process_files Image Tensor Picture image_open mtcnn_forward mtcnn_detect
     to_picture save output_dir).
Local Abbreviation walk_loop :=
  (walk_loop Image Tensor Picture image_open mtcnn_forward mtcnn_detect
     to_picture save output_dir).
Local Abbreviation face_cropping :=
  (face_cropping Image Tensor Picture image_open mtcnn_forward mtcnn_detect
     to_picture save output_dir).
Local Abbreviation State := (State Picture).
Local Abbreviation step_effect := (step_effect Picture output_dir).
Local Abbreviation numbered := (numbered Picture output_dir).

Ltac exc_cases :=
  repeat match goal with
    | |- context [mbind _ ?m] =>
        let E := fresh "E" in destruct m eqn:E; cbn [mbind exc_bind]
    | |- context [match ?m with _ => _ end] =>
        let E := fresh "E" in destruct m eqn:E
    end.

Lemma try_body_effect st img_path st' :
  try_body st img_path = Ok st' -> step_effect st st'.
Proof.
  unfold Cropping.try_body.
  exc_cases; intros [= <-]; try (left; done).
  right. by eexists.
Qed.

Lemma process_file_effect root st file :
  step_effect st (process_file root st file).
Proof.
  unfold Cropping.process_file.
  destruct (negb _); [by left|].
  destruct (try_body st _) as [st'|msg] eqn:Hbody.
  - by eapply try_body_effect.
  - by left.
Qed.

Lemma step_effect_numbered st st' :
  step_effect st st' -> numbered st -> numbered st'.
Proof.
  intros [[Hs Hc]|(face_img & Hs & Hc)] [Hnames Hnext]; unfold Cropping.numbered.
  - by rewrite Hs, Hc.
  - rewrite Hs, Hc, map_app, length_app, Hnames, Hnext. simpl.
    split; [|lia].
    rewrite Nat.add_1_r, seq_S, map_app. simpl. done.
Qed.

Lemma process_files_numbered root files st :
  numbered st -> numbered (process_files root files st).
Proof.
  unfold Cropping.process_files. revert st.
  induction files as [|file files IH]; intros st Hst; [done|].
  simpl. apply IH. eapply step_effect_numbered; [|done].
  apply process_file_effect.
Qed.

Lemma walk_loop_numbered walk st :
  numbered st -> numbered (walk_loop walk st).
Proof.
  unfold Cropping.walk_loop. revert st.
  induction walk as [|[[root dirs] files] walk IH]; intros st Hst; [done|].
  simpl. apply IH. by apply process_files_numbered.
Qed.

(** Files once written stay: a step, a directory and a walk only append. *)
Lemma process_files_appends root files st :
  exists later, saved (process_files root files st) = saved st ++ later.
Proof.
  unfold Cropping.process_files. revert st.
  induction files as [|file files IH]; intros st.
  - exists []. by rewrite app_nil_r.
  - simpl. destruct (IH (process_file root st file)) as (later & ->).
    destruct (process_file_effect root st file) as [[-> _]|(p & -> & _)].
    + by exists later.
    + eexists. by rewrite <- app_assoc.
Qed.

Lemma walk_loop_appends walk st :
  exists later, saved (walk_loop walk st) = saved st ++ later.
Proof.
  unfold Cropping.walk_loop. revert st.
  induction walk as [|[[root dirs] files] walk IH]; intros st.
  - exists []. by rewrite app_nil_r.
  - simpl. destruct (IH (process_files root files st)) as (later & ->).
    destruct (process_files_appends root files st) as (l & ->).
    eexists. by rewrite <- app_assoc.
Qed.

Lemma face_cropping_snoc walk root dirs files :
  face_cropping (walk ++ [(root, dirs, files)])
  = process_files root files (face_cropping walk).
Proof.
  unfold Cropping.face_cropping, Cropping.walk_loop.
  by rewrite fold_left_app.
Qed.

Lemma face_cropping_split before after root dirs pre post file :
  face_cropping (before ++ (root, dirs, pre ++ file :: post) :: after)
  = walk_loop after
      (process_files root post
         (process_file root (face_cropping (before ++ [(root, dirs, pre)]))
            file)).
Proof.
  rewrite face_cropping_snoc.
  unfold Cropping.face_cropping, Cropping.walk_loop, Cropping.process_files.
  rewrite fold_left_app. cbn [fold_left fst snd].
  by rewrite fold_left_app.
Qed.

Lemma process_file_raise root st file msg :
  Text.endswith_any (Text.lower file) image_suffixes = true ->
  try_body st (Text.os_path_join root file) = Raise msg ->
  process_file root st file
  = print st
      (" Could not process " +:+ Text.os_path_join root file +:+ ": " +:+ msg).
Proof.
  intros Hext Hraise. unfold Cropping.process_file.
  by rewrite Hext, Hraise.
Qed.

Lemma face_cropping_numbered walk : numbered (face_cropping walk).
Proof. apply walk_loop_numbered. by split. Qed.

Lemma save_file_inj (n m : nat) :
  Cropping.save_file output_dir n = Cropping.save_file output_dir m -> n = m.
Proof.
  unfold save_file. intros H.
  apply os_path_join_inj in H; try apply jpg_name_no_slash.
  by apply string_app_inv_tail, str_inj in H.
Qed.

(** C4.  After any walk the files written are
    [os.path.join(output_dir, "1.jpg")], [os.path.join(output_dir, "2.jpg")],
    ... up to their count, in this order and all different, and the
    counter is the next number: it starts at 1 and a step either writes
    one file under the current number and adds one, or leaves counter and
    files alone.  It leaves them alone for a name that has no image
    extension, for an image in which no face or no bounding box is found,
    and for an image whose processing raises. *)
Theorem crops_numbered_contiguously
    (walk : list (string * list string * list string)) :
  map fst (saved (face_cropping walk))
  = map (fun n => Text.os_path_join output_dir (Text.str n +:+ ".jpg"))
      (seq 1 (length (saved (face_cropping walk))))
  /\ NoDup (map fst (saved (face_cropping walk)))
  /\ (map fst (saved (face_cropping walk))
      = map (save_file output_dir) (seq 1 (length (saved (face_cropping walk))))
      /\ face_counter (face_cropping walk)
         = 1 + length (saved (face_cropping walk)))
  /\ face_counter (face_cropping []) = 1
  /\ (forall root st file,
        (saved (process_file root st file) = saved st
         /\ face_counter (process_file root st file) = face_counter st)
        \/ (exists face_img,
              saved (process_file root st file)
              = saved st ++ [(save_file output_dir (face_counter st), face_img)]
              /\ face_counter (process_file root st file)
                 = face_counter st + 1))
  /\ (forall root st file,
        Text.endswith_any (Text.lower file) image_suffixes = false ->
        process_file root st file = st)
  /\ (forall root st file msg,
        try_body st (Text.os_path_join root file) = Raise msg ->
        saved (process_file root st file) = saved st
        /\ face_counter (process_file root st file) = face_counter st)
  /\ (forall root st file img faces,
        image_open (Text.os_path_join root file) = Ok img ->
        mtcnn_forward img = Ok faces ->
        faces = None \/ faces = Some [] ->
        saved (process_file root st file) = saved st
        /\ face_counter (process_file root st file) = face_counter st)
  /\ (forall root st file img faces,
        image_open (Text.os_path_join root file) = Ok img ->
        mtcnn_forward img = Ok (Some faces) ->
        mtcnn_detect img = Ok None ->
        saved (process_file root st file) = saved st
        /\ face_counter (process_file root st file) = face_counter st).
Proof.
  split; [apply face_cropping_numbered|]. split.
  { rewrite (proj1 (face_cropping_numbered walk)). apply NoDup_fmap_2.
    - intros n m. apply save_file_inj.
    - apply NoDup_ListNoDup, List.seq_NoDup. }
  split; [apply face_cropping_numbered|]. split; [done|].
  split; [apply process_file_effect|].
  split; [|split; [|split]].
  - intros root st file Hext. unfold Cropping.process_file. by rewrite Hext.
  - intros root st file msg Hraise. unfold Cropping.process_file.
    destruct (negb _); [done|]. by rewrite Hraise.
  - intros root st file img faces Hopen Hfwd Hnone.
    unfold Cropping.process_file. destruct (negb _); [done|].
    unfold Cropping.try_body. rewrite Hopen. cbn [mbind exc_bind].
    rewrite Hfwd. by destruct Hnone as [-> | ->].
  - intros root st file img faces Hopen Hfwd Hdet.
    unfold Cropping.process_file. destruct (negb _); [done|].
    unfold Cropping.try_body. rewrite Hopen. cbn [mbind exc_bind].
    rewrite Hfwd. destruct faces as [|f faces]; [done|].
    cbn [mbind exc_bind]. by rewrite Hdet.
Qed.


(** C6.  For an image file in which the detector returns faces and as
    many boxes, at least one, the step takes the face at the first
    position whose box has the largest area, the area being
    [(x2 - x1) * (y2 - y1)] as the code computes it, in binary32: no box
    has an area above that of the box chosen and no earlier box has an
    equal one, so that, no area being a NaN, every area is below or equal
    and those of the earlier boxes are strictly below.  That face alone
    goes on to be converted and saved: when both succeed the step writes
    this one picture under the current number, and in no case does it
    write anything else. *)
Theorem largest_face_is_cropped
    (root file : string) (st : State) (img : Image)
    (faces : list Tensor) (boxes : list Box) :
  Text.endswith_any (Text.lower file) image_suffixes = true ->
  image_open (Text.os_path_join root file) = Ok img ->
  mtcnn_forward img = Ok (Some faces) ->
  mtcnn_detect img = Ok (Some boxes) ->
  boxes <> [] ->
  length faces = length boxes ->
  exists i box face,
    boxes !! i = Some box
    /\ faces !! i = Some face
    /\ (forall b,
          area b
          = SFmul 24 128 (SFsub 24 128 (x2 b) (x1 b))
              (SFsub 24 128 (y2 b) (y1 b)))
    /\ (forall b, In b boxes -> SFltb (area box) (area b) = false)
    /\ (forall j b, j < i -> boxes !! j = Some b ->
          SFeqb (area b) (area box) = false)
    /\ ((forall b, In b boxes -> area b <> S754_nan) ->
        (forall b, In b boxes -> SFleb (area b) (area box) = true)
        /\ (forall j b, j < i -> boxes !! j = Some b ->
              SFltb (area b) (area box) = true))
    /\ (forall face_img,
          to_picture face = Ok face_img ->
          save face_img (save_file output_dir (face_counter st)) = Ok tt ->
          process_file root st file
          = {| face_counter := face_counter st + 1;
               saved :=
                 saved st ++ [(save_file output_dir (face_counter st), face_img)];
               printed := printed st |})
    /\ (saved (process_file root st file) = saved st
        \/ exists face_img,
             to_picture face = Ok face_img
             /\ saved (process_file root st file)
                = saved st ++ [(save_file output_dir (face_counter st), face_img)]).
Proof.
  intros Hext Hopen Hfwd Hdet Hne Hlen.
  destruct (largest_index_spec boxes Hne) as (i & box & Hidx & Hbox & Hmax & Hfirst).
  assert (Hi : i < length faces).
  { rewrite Hlen. by eapply lookup_lt_Some. }
  destruct (lookup_lt_is_Some_2 faces i Hi) as [face Hface].
  exists i, box, face.
  split; [done|]. split; [done|]. split; [done|]. split; [done|].
  split; [done|]. split; [by apply largest_among_numbers|].
  assert (Hbody :
    try_body st (Text.os_path_join root file)
    = (face_img ← to_picture face;
       _ ← save face_img (save_file output_dir (face_counter st));
       Ok {| face_counter := face_counter st + 1;
             saved :=
               saved st ++ [(save_file output_dir (face_counter st), face_img)];
             printed := printed st |})).
  { unfold Cropping.try_body. rewrite Hopen. cbn [mbind exc_bind].
    rewrite Hfwd. cbn [mbind exc_bind].
    destruct faces as [|f faces]; [simpl in Hi; lia|].
    rewrite Hdet. cbn [mbind exc_bind]. rewrite Hidx. cbn [mbind exc_bind].
    unfold getitem. by rewrite Hface. }
  unfold Cropping.process_file. rewrite Hext, Hbody. cbn [negb]. split.
  - intros face_img Hpic Hsave. rewrite Hpic. cbn [mbind exc_bind].
    by rewrite Hsave.
  - destruct (to_picture face) as [face_img|e]; cbn [mbind exc_bind];
      [|by left].
    destruct (save face_img _) as [[]|e]; cbn [mbind exc_bind]; [|by left].
    right. by exists face_img.
Qed.

End CroppingFacts.

(** ** A concrete walk *)

Section CroppingExample.

Import Py Cropping Scenarios.

(** Three faces and three boxes of the areas 4, 20 and 20: the second
    face is taken. *)
Lemma largest_face_is_cropped_witness :
  largest_index demo_boxes = Ok 1
  /\ map area demo_boxes = [f32_of_Z 4; f32_of_Z 20; f32_of_Z 20]
  /\ exists i box face,
       demo_boxes !! i = Some box
       /\ [7; 8; 9] !! i = Some face
       /\ (forall b, In b demo_boxes -> SFltb (area box) (area b) = false)
       /\ (forall j b, j < i -> demo_boxes !! j = Some b ->
             SFeqb (area b) (area box) = false)
       /\ (saved
             (process_file string nat nat demo_open demo_forward demo_detect
                demo_picture demo_save "pairs" "RawImages" demo_state
                "group.JPG")
           = saved demo_state
           \/ exists face_img,
                demo_picture face = Ok face_img
                /\ saved
                     (process_file string nat nat demo_open demo_forward
                        demo_detect demo_picture demo_save "pairs" "RawImages"
                        demo_state "group.JPG")
                   = saved demo_state
                     ++ [(save_file "pairs" (face_counter demo_state),
                          face_img)]).
Proof.
  split; [vm_compute; reflexivity|]. split; [vm_compute; reflexivity|].
  destruct (largest_face_is_cropped string nat nat demo_open demo_forward
              demo_detect demo_picture demo_save "pairs" "RawImages"
              "group.JPG" demo_state "RawImages/group.JPG" [7; 8; 9]
              demo_boxes eq_refl eq_refl eq_refl eq_refl
              ltac:(discriminate) eq_refl)
    as (i & box & face & Hbox & Hface & _ & Hmax & Hfirst & _ & _ & Hsaved).
  exists i, box, face. repeat (split; [assumption|]). exact Hsaved.
Defined.

(** Two boxes whose areas differ by less than binary32 tells apart: the
    products round to one number, and the first box is taken. *)
Example near_tie_takes_first :
  let unit_box :=
    {| x1 := S754_zero false; y1 := S754_zero false;
       x2 := f32_of_Z 1; y2 := f32_of_Z 1 |} in
  let wider_box :=
    {| x1 := S754_zero false; y1 := S754_zero false;
       x2 := S754_finite false 8388609 (-23);
       y2 := S754_finite false 16777215 (-24) |} in
  area unit_box = f32_of_Z 1
  /\ area wider_box = f32_of_Z 1
  /\ largest_index [unit_box; wider_box] = Ok 0.
Proof. vm_compute. repeat split; reflexivity. Qed.

Example demo_walk_result :
  saved
    (face_cropping string nat nat demo_open demo_forward demo_detect
       demo_picture demo_save "pairs"
       [("RawImages", ["sub"], ["a.jpg"; "notes.txt"; "bad.jpg"; "empty.jpg"]);
        ("RawImages/sub", [], ["b.PNG"])])
  = [("pairs/1.jpg", 108); ("pairs/2.jpg", 108)].
Proof. vm_compute. reflexivity. Qed.


End CroppingExample.

(** ** Distance of embeddings *)

Section DistanceClaims.

Import Reals Embedding.
Local Open Scope R_scope.

Lemma sum_squares_sub_sym (e1 e2 : list R) :
  sum_squares (tensor_sub e1 e2) = sum_squares (tensor_sub e2 e1).
Proof.
  revert e2. induction e1 as [|x e1 IH]; intros [|y e2]; simpl; try done.
  rewrite IH. ring.
Qed.

Lemma sum_squares_sub_self (e : list R) :
  sum_squares (tensor_sub e e) = 0.
Proof.
  induction e as [|x e IH]; simpl; [done|]. rewrite IH. ring.
Qed.

(** C8.  For any two crop paths the distance does not depend on their
    order, and the distance of a crop to itself is 0. *)
Theorem compare_faces_symmetric_zero
    (ImageTensor : Type) (load_image : string -> ImageTensor)
    (model : ImageTensor -> list R) (a b : string) :
  compare_faces ImageTensor load_image model a b
  = compare_faces ImageTensor load_image model b a
  /\ compare_faces ImageTensor load_image model a a = 0.
Proof.
  unfold compare_faces, norm_p2. split.
  - by rewrite sum_squares_sub_sym.
  - rewrite sum_squares_sub_self. apply sqrt_0.
Qed.

End DistanceClaims.

(** ** The compare endpoint *)

Section SavedNameFacts.

Import Py Server.

Lemma string_of_uint_no_underscore (d : Decimal.uint) :
  Text.has_underscore (NilEmpty.string_of_uint d) = false.
Proof. induction d; simpl; done. Qed.

Lemma str_int_no_underscore (z : Z) :
  Text.has_underscore (Text.str_int z) = false.
Proof.
  unfold Text.str_int. destruct (Z.to_int z) as [d|d]; simpl;
    apply string_of_uint_no_underscore.
Qed.

Lemma str_int_inj (z1 z2 : Z) : Text.str_int z1 = Text.str_int z2 -> z1 = z2.
Proof.
  unfold Text.str_int. intros H.
  apply DecimalZ.to_int_inj.
  apply (f_equal NilEmpty.int_of_string) in H.
  rewrite !NilEmpty.isi in H. by injection H.
Qed.

(** A text is cut at its first underscore in one way only. *)
Lemma split_at_underscore (s1 s2 t1 t2 : string) :
  Text.has_underscore s1 = false ->
  Text.has_underscore s2 = false ->
  s1 +:+ "_" +:+ t1 = s2 +:+ "_" +:+ t2 ->
  s1 = s2 /\ t1 = t2.
Proof.
  revert s2. induction s1 as [|c s1 IH]; intros [|c' s2] H1 H2 Heq.
  - by injection Heq.
  - rewrite string_app_cons in Heq. injection Heq as <- _. done.
  - rewrite string_app_cons in Heq. injection Heq as -> _. done.
  - rewrite !string_app_cons in Heq. injection Heq as -> Heq.
    simpl in H1, H2. apply orb_false_iff in H1 as [_ H1].
    apply orb_false_iff in H2 as [_ H2].
    destruct (IH s2 H1 H2 Heq) as [-> ->]. done.
Qed.

Lemma saved_filename_eq (t1 t2 : float) (n1 n2 f1 f2 : string) :
  saved_filename t1 n1 = Ok f1 ->
  saved_filename t2 n2 = Ok f2 ->
  f1 = f2 <-> py_int (t1 * 1000)%float = py_int (t2 * 1000)%float /\ n1 = n2.
Proof.
  unfold saved_filename.
  destruct (py_int (t1 * 1000)%float) as [ms1|e1]; [|done].
  destruct (py_int (t2 * 1000)%float) as [ms2|e2]; [|done].
  cbn [mbind exc_bind]. intros [= <-] [= <-]. split.
  - intros Heq.
    apply split_at_underscore in Heq as [Hms ->];
      try apply str_int_no_underscore.
    apply str_int_inj in Hms. by subst.
  - intros [[= ->] ->]. done.
Qed.

Lemma str_int_no_slash (z : Z) : Text.has_slash (Text.str_int z) = false.
Proof.
  unfold Text.str_int. destruct (Z.to_int z) as [d|d]; simpl;
    apply string_of_uint_no_slash.
Qed.

Lemma has_underscore_app (s t : string) :
  Text.has_underscore (s +:+ t)
  = Text.has_underscore s || Text.has_underscore t.
Proof.
  induction s as [|c s IH]; [done|].
  rewrite string_app_cons. simpl. rewrite IH. by rewrite orb_assoc.
Qed.

(** The name made for an upload whose filename has no slash is one part
    of a path: the entry of [RAW_DIR] with this very name. *)
Lemma saved_filename_one_part (t : float) (name f : string) :
  saved_filename t name = Ok f ->
  Text.has_slash name = false ->
  Text.one_part f.
Proof.
  unfold saved_filename.
  destruct (py_int (t * 1000)%float) as [ms|e]; [|done].
  cbn [mbind exc_bind]. intros [= <-] Hname.
  assert (Hu : Text.has_underscore (Text.str_int ms +:+ "_" +:+ name) = true).
  { rewrite !has_underscore_app. simpl. by rewrite orb_true_r. }
  split; [|split].
  - rewrite !has_slash_app, str_int_no_slash, Hname. done.
  - intros H. by rewrite H in Hu.
  - intros H. by rewrite H in Hu.
Qed.

End SavedNameFacts.

Section EndpointFacts.

Import Py Server.

Variable clock : nat -> float.
Variable run_subprocess : list string -> Disk -> CompletedProcess * Disk.
Variable str_float : float -> string.
Variable strip : string -> string.
Variable python_executable : string.
Variable base_dir : string.
Variable validation_detail : json.
Variable open_refused : Disk -> string -> option string.
Variable write_below : Disk -> string -> string -> Exc Disk.

Local Abbreviation write_upload :=
  (write_upload base_dir open_refused write_below).
Local Abbreviation save_uploads :=
  (save_uploads clock base_dir open_refused write_below).
Local Abbreviation request_names := (request_names clock).
Local Abbreviation compare_faces :=
  (compare_faces clock run_subprocess str_float strip python_executable
     base_dir validation_detail open_refused write_below).

Lemma save_uploads_cons upload rest w :
  save_uploads (upload :: rest) w
  = match saved_filename (clock (ticks w)) (filename upload) with
    | Ok name =>
        match write_upload name (file upload) (tick w) with
        | (Ok _, w2) => save_uploads rest w2
        | (Raise e, w2) => (Raise e, w2)
        end
    | Raise e => (Raise e, tick w)
    end.
Proof. reflexivity. Qed.

(** A name of one part is written as the entry of this name. *)
Lemma write_upload_one_part name data w w' entries :
  Text.one_part name ->
  raw_dir (disk w) = Some entries ->
  write_upload name data w = (Ok tt, w') ->
  w' = set_raw_dir (Some (<[name := FileE data]> entries)) w.
Proof.
  intros Hname Hraw. unfold Server.write_upload. rewrite Hraw.
  destruct (open_refused (disk w) name); [done|].
  rewrite (path_parts_one_part name Hname).
  destruct (entries !! name) as [[c|]|]; by intros [= <-].
Qed.

(** An upload is saved only into an input directory that exists. *)
Lemma save_uploads_raw_dir (images : list UploadFile) (w w' : World) :
  images <> [] ->
  save_uploads images w = (Ok tt, w') ->
  is_Some (raw_dir (disk w)).
Proof.
  destruct images as [|upload rest]; [done|]. intros _.
  rewrite save_uploads_cons.
  destruct (saved_filename (clock (ticks w)) (filename upload))
    as [name|e]; [|done].
  unfold Server.write_upload. cbn [disk tick].
  destruct (raw_dir (disk w)) as [entries|]; [by eexists|done].
Qed.

(** When the saving loop completes for uploads whose filenames have no
    slash, the uploads were written under the names of [request_names]:
    a name holds what the last upload of this name carried, and entries
    under other names are as before. *)
Lemma save_uploads_spec (images : list UploadFile) :
  forall w w' entries,
    Forall (fun upload => Text.has_slash (filename upload) = false) images ->
    save_uploads images w = (Ok tt, w') ->
    raw_dir (disk w) = Some entries ->
    exists names entries',
      request_names (ticks w) images = map Ok names
      /\ raw_dir (disk w') = Some entries'
      /\ (forall k, ~ In k names -> entries' !! k = entries !! k)
      /\ (forall i upload name,
            images !! i = Some upload -> names !! i = Some name ->
            (forall j, i < j -> names !! j <> Some name) ->
            entries' !! name = Some (FileE (file upload)))
      /\ results_txt (disk w') = results_txt (disk w).
Proof.
  induction images as [|upload rest IH]; intros w w' entries Hplain Hrun Hraw.
  - injection Hrun as <-. exists [], entries. repeat split; try done.
  - rewrite save_uploads_cons in Hrun.
    apply Forall_cons in Hplain as [Hup Hplain].
    destruct (saved_filename (clock (ticks w)) (filename upload))
      as [name|e] eqn:Hname; [|done].
    pose proof (saved_filename_one_part _ _ _ Hname Hup) as Hone.
    destruct (write_upload name (file upload) (tick w)) as [[[]|e] w2] eqn:Hw;
      [|done].
    apply (write_upload_one_part name (file upload) (tick w) w2 entries Hone
             Hraw) in Hw.
    subst w2.
    destruct (IH _ w' (<[name := FileE (file upload)]> entries) Hplain Hrun
                eq_refl)
      as (names & entries' & Hnames & Hraw' & Hother & Hlast & Hres).
    exists (name :: names), entries'.
    split; [|split; [done|split; [|split]]].
    + cbn [Server.request_names map]. rewrite Hname. f_equal.
      rewrite <- Hnames. cbn [ticks set_raw_dir tick].
      by rewrite Nat.add_1_r.
    + intros k Hk. rewrite Hother by (intros Hin; apply Hk; by right).
      apply lookup_insert_ne. intros ->. apply Hk. by left.
    + intros i u n Hi Hn Hlater.
      destruct i as [|i]; simpl in Hi, Hn.
      * injection Hi as <-. injection Hn as <-.
        rewrite Hother.
        { apply lookup_insert_eq. }
        intros Hin. apply list_elem_of_In, list_elem_of_lookup in Hin as [j Hj].
        apply (Hlater (S j)); [lia|done].
      * apply (Hlast i); [done|done|].
        intros j Hj. apply (Hlater (S j)). lia.
    + done.
Qed.

(** The name at a position is made of the reading taken for it. *)
Lemma request_names_lookup (images : list UploadFile) :
  forall t names,
    request_names t images = map Ok names ->
    forall i u n,
      images !! i = Some u -> names !! i = Some n ->
      saved_filename (clock (t + i)) (filename u) = Ok n.
Proof.
  induction images as [|u0 rest IH]; intros t names Hnames i u n Hi Hn;
    [done|].
  destruct names as [|n0 names]; [done|].
  cbn [Server.request_names map] in Hnames. injection Hnames as Hn0 Hrest.
  destruct i as [|i]; simpl in Hi, Hn.
  - injection Hi as <-. injection Hn as <-. by rewrite Nat.add_0_r.
  - replace (t + S i) with (S t + i) by lia. by apply (IH (S t) names).
Qed.

(** C5, as amended.  A request with fewer than two uploads leaves the
    world as it was: no child process is started, the input directory is
    not cleared and nothing is saved.  With one upload the handler answers
    400 with [success] false.  With no upload the request fails the
    validation of the required field: the framework answers 422 with its
    [detail], and the handler does not run. *)
Theorem compare_rejects_fewer_than_two
    (images : list UploadFile) (threshold : float) (w : World) :
  length images < 2 ->
  (compare_faces images threshold w).2 = w
  /\ invoked (compare_faces images threshold w).2 = invoked w
  /\ disk (compare_faces images threshold w).2 = disk w
  /\ (forall upload,
        images = [upload] ->
        (compare_faces images threshold w).1
        = {| status_code := 400;
             content := [("success", JBool false);
                         ("error", JStr "Please upload at least two images.")] |}
        /\ field "success" (compare_faces images threshold w).1
           = Some (JBool false))
  /\ (images = [] ->
      (compare_faces images threshold w).1
      = {| status_code := 422; content := [("detail", validation_detail)] |}
      /\ field "success" (compare_faces images threshold w).1 = None).
Proof.
  intros Hlen. destruct images as [|upload [|upload' rest]];
    [| |simpl in Hlen; lia].
  - repeat split; try done.
  - split; [done|]. split; [done|]. split; [done|]. split; [|done].
    intros u [= <-]. done.
Qed.

(** C9, as amended.  For a request of at least two uploads whose
    filenames hold no slash and whose saving loop completes: two uploads
    are saved under the same name exactly when the clock readings taken
    for them fall in the same millisecond and their filenames are equal;
    each name holds what the last upload saved under it carried, so a
    later upload of the same name replaces an earlier one; and if the
    names are pairwise distinct every upload is on disk under its name. *)
Theorem saved_names_collide_iff
    (images : list UploadFile) (w w' : World) :
  2 <= length images ->
  Forall (fun upload => Text.has_slash (filename upload) = false) images ->
  save_uploads images w = (Ok tt, w') ->
  exists names entries',
    request_names (ticks w) images = map Ok names
    /\ raw_dir (disk w') = Some entries'
    /\ (forall i j ui uj ni nj,
          images !! i = Some ui -> images !! j = Some uj ->
          names !! i = Some ni -> names !! j = Some nj ->
          ni = nj
          <-> py_int (clock (ticks w + i) * 1000)%float
              = py_int (clock (ticks w + j) * 1000)%float
              /\ filename ui = filename uj)
    /\ (forall i upload name,
          images !! i = Some upload -> names !! i = Some name ->
          (forall j, i < j -> names !! j <> Some name) ->
          entries' !! name = Some (FileE (file upload)))
    /\ (forall i j ui uj name,
          i < j ->
          images !! i = Some ui -> images !! j = Some uj ->
          names !! i = Some name -> names !! j = Some name ->
          (forall k, j < k -> names !! k <> Some name) ->
          entries' !! name = Some (FileE (file uj)))
    /\ (NoDup names ->
        forall i upload name,
          images !! i = Some upload -> names !! i = Some name ->
          entries' !! name = Some (FileE (file upload))).
Proof.
  intros Hlen Hplain Hrun.
  destruct (save_uploads_raw_dir images w w') as [entries Hraw]; [|done|].
  { intros ->. simpl in Hlen. lia. }
  destruct (save_uploads_spec images w w' entries Hplain Hrun Hraw)
    as (names & entries' & Hnames & Hraw' & _ & Hlast & _).
  exists names, entries'. split; [done|]. split; [done|].
  pose proof (request_names_lookup images (ticks w) names Hnames) as Hname.
  split; [|split; [done|split]].
  - intros i j ui uj ni nj Hi Hj Hni Hnj.
    apply (saved_filename_eq _ _ (filename ui) (filename uj)).
    + by apply Hname.
    + by apply Hname.
  - intros i j ui uj name Hij Hi Hj Hni Hnj Hlater. by apply (Hlast j).
  - intros Hnd i u n Hi Hn. apply (Hlast i); [done|done|].
    intros j Hj Hnj.
    pose proof (NoDup_lookup _ _ _ _ Hnd Hn Hnj). lia.
Qed.

End EndpointFacts.

(** ** Concrete requests *)

Section EndpointExamples.

Import Py Server Scenarios.

(** A request with one upload, and one with none. *)
Lemma compare_rejects_fewer_than_two_witness :
  ((compare_faces burst_clock idle_pipeline repr_threshold no_strip "python3"
      "/srv/app" field_required never_refused no_subdirectory
      [{| filename := "face.jpg"; file := "first" |}] 1.0%float world0).2
   = world0
   /\ (compare_faces burst_clock idle_pipeline repr_threshold no_strip
         "python3" "/srv/app" field_required never_refused no_subdirectory
         [{| filename := "face.jpg"; file := "first" |}] 1.0%float world0).1
      = {| status_code := 400;
           content := [("success", JBool false);
                       ("error", JStr "Please upload at least two images.")] |})
  /\ ((compare_faces burst_clock idle_pipeline repr_threshold no_strip
         "python3" "/srv/app" field_required never_refused no_subdirectory
         [] 1.0%float world0).2
      = world0
      /\ (compare_faces burst_clock idle_pipeline repr_threshold no_strip
            "python3" "/srv/app" field_required never_refused no_subdirectory
            [] 1.0%float world0).1
         = {| status_code := 422; content := [("detail", field_required)] |}).
Proof.
  split.
  - destruct (compare_rejects_fewer_than_two burst_clock idle_pipeline
                repr_threshold no_strip "python3" "/srv/app" field_required
                never_refused no_subdirectory
                [{| filename := "face.jpg"; file := "first" |}] 1.0%float
                world0 ltac:(simpl; lia))
      as (Hworld & _ & _ & Hone & _).
    split; [exact Hworld|exact (proj1 (Hone _ eq_refl))].
  - destruct (compare_rejects_fewer_than_two burst_clock idle_pipeline
                repr_threshold no_strip "python3" "/srv/app" field_required
                never_refused no_subdirectory [] 1.0%float world0
                ltac:(simpl; lia))
      as (Hworld & _ & _ & _ & Hnone).
    split; [exact Hworld|exact (proj1 (Hnone eq_refl))].
Defined.

(** C5 as stated fails: a request that carries no image is answered 422
    by the framework, not 400, and its body has no [success] field. *)
Lemma no_upload_is_answered_422 :
  status_code
    (compare_faces burst_clock idle_pipeline repr_threshold no_strip "python3"
       "/srv/app" field_required never_refused no_subdirectory [] 1.0%float
       world0).1
  = 422
  /\ status_code
       (compare_faces burst_clock idle_pipeline repr_threshold no_strip
          "python3" "/srv/app" field_required never_refused no_subdirectory
          [] 1.0%float world0).1
     <> 400
  /\ field "success"
       (compare_faces burst_clock idle_pipeline repr_threshold no_strip
          "python3" "/srv/app" field_required never_refused no_subdirectory
          [] 1.0%float world0).1
     = None.
Proof. split; [reflexivity|]. split; [discriminate|reflexivity]. Qed.

(** C9 as stated fails: two uploads named [face.jpg], read 0.49 ms apart,
    get one and the same name; the second replaces the first, and the
    pipeline is started on a directory holding a single file. *)
Lemma same_named_uploads_collide :
  request_names burst_clock 0 same_named
  = [Ok "1700000000125_face.jpg"; Ok "1700000000125_face.jpg"]
  /\ ~ NoDup (request_names burst_clock 0 same_named)
  /\ (compare_faces burst_clock idle_pipeline repr_threshold no_strip
        "python3" "/srv/app" field_required never_refused no_subdirectory
        same_named 1.0%float world0).1
     = {| status_code := 200;
          content := [("success", JBool true); ("results", JStr "report");
                      ("output", JStr EmptyString)] |}
  /\ raw_dir
       (disk
          (compare_faces burst_clock idle_pipeline repr_threshold no_strip
             "python3" "/srv/app" field_required never_refused
             no_subdirectory same_named 1.0%float world0).2)
     = Some {[ "1700000000125_face.jpg" := FileE "second" ]}.
Proof.
  assert (Hnames :
    request_names burst_clock 0 same_named
    = [Ok "1700000000125_face.jpg"; Ok "1700000000125_face.jpg"])
    by (vm_compute; reflexivity).
  split; [done|]. split; [|split].
  - rewrite Hnames. intros Hnd. apply NoDup_cons in Hnd as [Hnotin _].
    apply Hnotin. by left.
  - vm_compute. reflexivity.
  - vm_compute. reflexivity.
Qed.

(** Two uploads of different names, and two of one name: the second
    replaces the first. *)
Lemma saved_names_collide_iff_witness :
  (exists names entries',
     request_names burst_clock 0 two_named = map Ok names
     /\ raw_dir
          (disk
             (save_uploads burst_clock "/srv/app" never_refused
                no_subdirectory two_named world0).2)
        = Some entries'
     /\ (NoDup names ->
         forall i upload name,
           two_named !! i = Some upload -> names !! i = Some name ->
           entries' !! name = Some (FileE (file upload))))
  /\ (exists names entries',
        request_names burst_clock 0 same_named = map Ok names
        /\ raw_dir
             (disk
                (save_uploads burst_clock "/srv/app" never_refused
                   no_subdirectory same_named world0).2)
           = Some entries'
        /\ (forall i j ui uj name,
              i < j ->
              same_named !! i = Some ui -> same_named !! j = Some uj ->
              names !! i = Some name -> names !! j = Some name ->
              (forall k, j < k -> names !! k <> Some name) ->
              entries' !! name = Some (FileE (file uj)))).
Proof.
  split.
  - destruct (saved_names_collide_iff burst_clock "/srv/app" never_refused
                no_subdirectory two_named world0
                (save_uploads burst_clock "/srv/app" never_refused
                   no_subdirectory two_named world0).2
                ltac:(simpl; lia) ltac:(repeat constructor)
                ltac:(vm_compute; reflexivity))
      as (names & entries' & Hnames & Hraw & _ & _ & _ & Hdistinct).
    by exists names, entries'.
  - destruct (saved_names_collide_iff burst_clock "/srv/app" never_refused
                no_subdirectory same_named world0
                (save_uploads burst_clock "/srv/app" never_refused
                   no_subdirectory same_named world0).2
                ltac:(simpl; lia) ltac:(repeat constructor)
                ltac:(vm_compute; reflexivity))
      as (names & entries' & Hnames & Hraw & _ & _ & Hreplace & _).
    by exists names, entries'.
Defined.

End EndpointExamples.

(** * Further properties of the cropping walk *)

Section CroppingAccounts.

Import Py Cropping.

Variables Image Tensor Picture : Type.
Variable image_open : string -> Exc Image.
Variable mtcnn_forward : Image -> Exc (option (list Tensor)).
Variable mtcnn_detect : Image -> Exc (option (list Box)).
Variable to_picture : Tensor -> Exc Picture.
Variable save : Picture -> string -> Exc unit.
Variable output_dir : string.

Local Abbreviation try_body :=
  (try_body Image Tensor Picture image_open mtcnn_forward mtcnn_detect
     to_picture save output_dir).
Local Abbreviation process_file :=
  (process_file Image Tensor Picture image_open mtcnn_forward mtcnn_detect
     to_picture save output_dir).
Local Abbreviation process_files :=
  (process_files Image Tensor Picture image_open mtcnn_forward mtcnn_detect
     to_picture save output_dir).
Local Abbreviation walk_loop :=
  (walk_loop Image Tensor Picture image_open mtcnn_forward mtcnn_detect
     to_picture save output_dir).
Local Abbreviation face_cropping :=
  (face_cropping Image Tensor Picture image_open mtcnn_forward mtcnn_detect
     to_picture save output_dir).
Local Abbreviation State := (State Picture).

Ltac exc_split :=
  repeat match goal with
    | |- context [mbind _ ?m] =>
        let E := fresh "E" in destruct m eqn:E; cbn [mbind exc_bind]
    | |- context [match ?m with _ => _ end] =>
        let E := fresh "E" in destruct m eqn:E
    end.

Lemma try_body_traces st img_path st' :
  try_body st img_path = Ok st' -> traces st' = S (traces st).
Proof.
  unfold Cropping.try_body, traces.
  exc_split; intros [= <-]; cbn [saved printed print];
    rewrite ?length_app; simpl; lia.
Qed.

Lemma process_file_traces root st file :
  traces (process_file root st file)
  = traces st
    + (if Text.endswith_any (Text.lower file) image_suffixes then 1 else 0).
Proof.
  unfold Cropping.process_file.
  destruct (Text.endswith_any (Text.lower file) image_suffixes); cbn [negb].
  - destruct (try_body st _) as [st'|msg] eqn:Hbody.
    + rewrite (try_body_traces _ _ _ Hbody). lia.
    + unfold traces. cbn [saved printed print]. rewrite length_app. simpl. lia.
  - lia.
Qed.

Lemma process_files_traces root files st :
  traces (process_files root files st)
  = traces st
    + length
        (List.filter
           (fun file => Text.endswith_any (Text.lower file) image_suffixes)
           files).
Proof.
  unfold Cropping.process_files. revert st.
  induction files as [|file files IH]; intros st; [simpl; lia|].
  cbn [fold_left List.filter]. rewrite IH, process_file_traces.
  destruct (Text.endswith_any (Text.lower file) image_suffixes);
    cbn [length]; lia.
Qed.

Lemma walk_loop_traces walk st :
  traces (walk_loop walk st) = traces st + length (image_files walk).
Proof.
  unfold Cropping.walk_loop, image_files. revert st.
  induction walk as [|[[root dirs] files] walk IH]; intros st; [simpl; lia|].
  cbn [fold_left flat_map fst snd].
  rewrite IH, process_files_traces, length_app. lia.
Qed.



(** X2.  Within one run no crop file is written twice: the paths of the
    files written are pairwise distinct, so no crop replaces another. *)
Theorem crops_never_overwritten
    (walk : list (string * list string * list string)) :
  NoDup (map fst (saved (face_cropping walk))).
Proof.
  destruct (face_cropping_numbered Image Tensor Picture image_open
              mtcnn_forward mtcnn_detect to_picture save output_dir walk)
    as [Hnames _].
  rewrite Hnames. apply NoDup_fmap_2.
  - intros n m. apply save_file_inj.
  - apply NoDup_ListNoDup, List.seq_NoDup.
Qed.


End CroppingAccounts.

(** * Further properties of the crop collection *)

Section OutputDirFacts.

Import Py Recognition.

Lemma entry_like_jpg (i : nat) : entry_like (Text.str i +:+ ".jpg") = true.
Proof.
  assert (Hlen : 4 < String.length (Text.str i +:+ ".jpg")).
  { rewrite string_app_length. pose proof (str_nonempty i). simpl. lia. }
  unfold entry_like. rewrite jpg_name_no_slash.
  destruct (String.eqb_spec (Text.str i +:+ ".jpg") EmptyString) as [H|_].
  { rewrite H in Hlen. simpl in Hlen. lia. }
  destruct (String.eqb_spec (Text.str i +:+ ".jpg") ".") as [H|_].
  { rewrite H in Hlen. simpl in Hlen. lia. }
  destruct (String.eqb_spec (Text.str i +:+ ".jpg") "..") as [H|_].
  { rewrite H in Hlen. simpl in Hlen. lia. }
  reflexivity.
Qed.

(** A numbered crop is an entry of the output directory. *)
Lemma entry_name_numbered_crop (d : string) (i : nat) :
  entry_name d (numbered_crop d i) = Some (Text.str i +:+ ".jpg").
Proof.
  unfold entry_name, numbered_crop.
  rewrite path_div_one_part by apply jpg_name_one_part.
  by rewrite strip_prefix_app, entry_like_jpg.
Qed.

(** A numbered crop file of the output directory is one of the files the
    clearing loop unlinks. *)
Lemma numbered_crop_is_stale (d : string) (i : nat) :
  stale_crop d (numbered_crop d i) File = true.
Proof.
  unfold stale_crop. rewrite entry_name_numbered_crop.
  rewrite suffix_jpg by apply str_nonempty. reflexivity.
Qed.

Lemma stale_crop_dir (d p : string) : stale_crop d p Dir = false.
Proof. unfold stale_crop. by destruct (entry_name d p). Qed.

(** The chain of a path starts with the path itself. *)
Lemma chain_from_head (root : string) (parts : list string) :
  forall before,
    parts <> [] ->
    exists up,
      Text.chain_from root before parts
      = Text.path_of root (before ++ parts) :: up.
Proof.
  induction parts as [|c parts IH]; intros before Hne; [done|].
  cbn [Text.chain_from]. destruct parts as [|c' parts].
  - by exists [].
  - destruct (IH (before ++ [c])) as [up Hup]; [done|].
    rewrite Hup, <- app_assoc. by eexists.
Qed.

Lemma path_chain_head (d : string) :
  Text.path_parts d <> [] -> exists up, Text.path_chain d = Text.path_str d :: up.
Proof. intros Hne. by apply (chain_from_head _ _ []). Qed.

(** [mkdir] keeps what exists, makes directories of the chain only, and
    leaves the path itself a directory. *)
Lemma mkdir_parents_spec (chain : list string) :
  forall fs fs' : FS,
    mkdir_parents chain fs = Ok fs' ->
    (forall p n, fs !! p = Some n -> fs' !! p = Some n)
    /\ (forall p n,
          fs' !! p = Some n ->
          fs !! p = Some n \/ (In p chain /\ n = Dir /\ fs !! p = None))
    /\ (forall p up, chain = p :: up -> fs' !! p = Some Dir).
Proof.
  induction chain as [|q up IH]; intros fs fs' H.
  - injection H as <-. split; [done|]. split; [by left|done].
  - cbn [mkdir_parents] in H.
    destruct (fs !! q) as [[|]|] eqn:Hq; [done| |].
    { injection H as <-. split; [done|]. split; [by left|].
      by intros p up' [= <- _]. }
    assert (Hins : forall fs0 : FS,
              (forall p n, fs !! p = Some n -> fs0 !! p = Some n) ->
              (forall p n,
                 fs0 !! p = Some n ->
                 fs !! p = Some n \/ (In p up /\ n = Dir /\ fs !! p = None)) ->
              (forall p n, fs !! p = Some n -> <[q := Dir]> fs0 !! p = Some n)
              /\ (forall p n,
                    <[q := Dir]> fs0 !! p = Some n ->
                    fs !! p = Some n
                    \/ (In p (q :: up) /\ n = Dir /\ fs !! p = None))
              /\ (forall p up', q :: up = p :: up' ->
                    <[q := Dir]> fs0 !! p = Some Dir)).
    { intros fs0 Hkeep Hnew. split; [|split].
      - intros p n Hp. rewrite lookup_insert_ne; [by apply Hkeep|].
        intros <-. congruence.
      - intros p n Hp. destruct (decide (q = p)) as [<-|Hne].
        + rewrite lookup_insert_eq in Hp. injection Hp as <-.
          right. split; [by left|done].
        + rewrite lookup_insert_ne in Hp by done.
          destruct (Hnew p n Hp) as [?|(? & ? & ?)]; [by left|].
          right. split; [by right|done].
      - intros p up' [= <- _]. apply lookup_insert_eq. }
    destruct (under_file up fs); [done|].
    destruct up as [|parent up'].
    { injection H as <-. apply Hins; [done|by left]. }
    destruct (fs !! parent) as [n|] eqn:Hparent.
    { injection H as <-. apply Hins; [done|by left]. }
    destruct (mkdir_parents (parent :: up') fs) as [fs0|e] eqn:Hup; [|done].
    cbn [mbind exc_bind] in H. injection H as <-.
    destruct (IH fs fs0 Hup) as (Hkeep & Hnew & _). by apply Hins.
Qed.

End OutputDirFacts.

Section OutputDirClaims.

Import Py Recognition.

Lemma prepare_output_dir_spec (d : string) (fs fs1 : FS) :
  prepare_output_dir d fs = Ok fs1 ->
  (forall p n,
     fs1 !! p = Some n ->
     stale_crop d p n = false
     /\ (fs !! p = Some n
         \/ (In p (Text.path_chain d) /\ n = Dir /\ fs !! p = None)))
  /\ (forall p n,
        fs !! p = Some n -> stale_crop d p n = false -> fs1 !! p = Some n)
  /\ (Text.path_parts d <> [] -> fs1 !! Text.path_str d = Some Dir).
Proof.
  unfold prepare_output_dir.
  destruct (mkdir_parents (Text.path_chain d) fs) as [fs0|e] eqn:Hmk; [|done].
  cbn [mbind exc_bind]. intros [= <-].
  destruct (mkdir_parents_spec _ _ _ Hmk) as (Hkeep & Hnew & Hhead).
  split; [|split].
  - intros p n Hp. apply map_lookup_filter_Some in Hp as [Hp Hstale].
    split; [done|]. by apply Hnew.
  - intros p n Hp Hstale. apply map_lookup_filter_Some.
    split; [by apply Hkeep|done].
  - intros Hne. destruct (path_chain_head d Hne) as [up Hchain].
    apply map_lookup_filter_Some. split; [by apply (Hhead _ up)|].
    apply stale_crop_dir.
Qed.

Lemma prepare_output_dir_no_crop (d : string) (fs fs1 : FS) (i : nat) :
  prepare_output_dir d fs = Ok fs1 ->
  fs1 !! numbered_crop d i <> Some File.
Proof.
  intros Hprep Hi.
  destruct (prepare_output_dir_spec d fs fs1 Hprep) as (Hlook & _ & _).
  apply Hlook in Hi as [Hi _].
  by rewrite numbered_crop_is_stale in Hi.
Qed.

(** The parents [mkdir] makes for a nested output directory. *)
Example path_chain_nested :
  Text.path_chain "out//crops/./pairs/" = ["out/crops/pairs"; "out/crops"; "out"]
  /\ Text.path_chain "/data/pairs" = ["/data/pairs"; "/data"]
  /\ Text.path_chain "./" = [].
Proof. vm_compute. repeat split; reflexivity. Qed.

(** X4.  When [mkdir] and the clearing loop of [crop_faces_from_directory]
    succeed, the output directory exists, none of the numbered crops
    [1.jpg], [2.jpg], ... is left as a file, nothing was created but the
    directory and those of its parents that were missing, and every path
    that is not an image file directly inside the directory is kept. *)
Theorem prepare_output_dir_clears_crops (d : string) (fs fs1 : FS) :
  prepare_output_dir d fs = Ok fs1 ->
  (Text.path_parts d <> [] -> fs1 !! Text.path_str d = Some Dir)
  /\ (forall i, fs1 !! numbered_crop d i <> Some File)
  /\ (forall p n,
        fs1 !! p = Some n ->
        fs !! p = Some n
        \/ (In p (Text.path_chain d) /\ n = Dir /\ fs !! p = None))
  /\ (forall p n,
        fs !! p = Some n -> stale_crop d p n = false -> fs1 !! p = Some n).
Proof.
  intros Hprep.
  destruct (prepare_output_dir_spec d fs fs1 Hprep) as (Hlook & Hkeep & Hdir).
  split; [done|]. split; [|split; [|done]].
  - intros i. by apply (prepare_output_dir_no_crop d fs fs1).
  - intros p n Hp. by apply Hlook.
Qed.

Lemma collect_saved_faces_numbered (fs : FS) d fuel :
  forall i acc l,
    collect_saved_faces fuel fs d i acc = Some l ->
    forall p, In p l ->
      In p acc \/ (exists j, p = numbered_crop d j /\ exists_ fs p = true).
Proof.
  induction fuel as [|fuel IH]; intros i acc l H p Hp; [done|].
  simpl in H. destruct (exists_ fs (numbered_crop d i)) eqn:Hex.
  - destruct (IH _ _ _ H p Hp) as [Hin|Hj]; [|by right].
    apply in_app_or in Hin as [Hin|[<-|[]]]; [by left|].
    right. by exists i.
  - injection H as <-. by left.
Qed.

(** X5.  A crop file returned by [crop_faces_from_directory] was not there
    as a file when the child process started: crops left by an earlier run
    never reach the comparison. *)
Theorem returned_crops_are_fresh
    (run_subprocess : list string -> FS -> CompletedProcess * FS)
    (sys_executable : string)
    (fuel : nat) (device input_dir output_dir : string)
    (fs fs1 fs' : FS) (faces : list string) :
  output_dir <> EmptyString ->
  prepare_output_dir output_dir fs = Ok fs1 ->
  crop_faces_from_directory run_subprocess sys_executable fuel device
    input_dir output_dir fs
  = Some (Ok faces, fs') ->
  forall p, In p faces ->
    is_Some (fs' !! p) /\ fs1 !! p <> Some File.
Proof.
  intros Hd Hprep Hrun p Hp.
  unfold crop_faces_from_directory in Hrun. rewrite Hprep in Hrun.
  destruct (run_subprocess _ fs1) as [result fs2].
  destruct (negb _); [by injection Hrun as <- _|].
  destruct (collect_saved_faces fuel fs2 output_dir 1 []) as [l|] eqn:Hl;
    [|done].
  injection Hrun as <- <-.
  destruct (collect_saved_faces_numbered _ _ _ _ _ _ Hl p Hp)
    as [[]|(j & -> & Hex)].
  split.
  - unfold exists_ in Hex. by apply bool_decide_eq_true in Hex.
  - by apply (prepare_output_dir_no_crop output_dir fs fs1).
Qed.

End OutputDirClaims.

(** * Further properties of the comparison and the report *)

Section ComparisonOrder.

Import Py Recognition.

Variable compare_faces : string -> string -> float.

Lemma row_sorted (i a k : nat) :
  StronglySorted lex_lt (map (pair i) (seq a k)).
Proof.
  revert a. induction k as [|k IH]; intros a; simpl; [constructor|].
  constructor; [apply IH|].
  apply List.Forall_forall. intros [i' j] Hin.
  apply in_map_iff in Hin as (j' & [= <- <-] & Hj). apply in_seq in Hj.
  right. simpl. lia.
Qed.

Lemma rows_sorted (n a k : nat) :
  StronglySorted lex_lt
    (flat_map (fun i => map (pair i) (range (i + 1) n)) (seq a k)).
Proof.
  revert a. induction k as [|k IH]; intros a; simpl; [constructor|].
  apply StronglySorted_app_2; [|apply row_sorted|apply IH].
  intros [i j] [i' j'] H1 H2.
  apply list_elem_of_In, in_map_iff in H1 as (? & [= <- <-] & _).
  apply list_elem_of_In, in_flat_map in H2 as (i2 & Hi2 & H2).
  apply in_map_iff in H2 as (? & [= <- <-] & _). apply in_seq in Hi2.
  left. simpl. lia.
Qed.

Lemma StronglySorted_lookup {A} (R : A -> A -> Prop) (l : list A) :
  StronglySorted R l ->
  forall k1 k2 a b,
    k1 < k2 -> l !! k1 = Some a -> l !! k2 = Some b -> R a b.
Proof.
  induction 1 as [|x l Hsorted IH Hall]; intros k1 k2 a b Hk Ha Hb; [done|].
  destruct k2 as [|k2]; [lia|]. simpl in Hb.
  destruct k1 as [|k1]; simpl in Ha.
  - injection Ha as <-. rewrite List.Forall_forall in Hall. apply Hall.
    by eapply list_elem_of_In, list_elem_of_lookup_2.
  - apply (IH k1 k2); [lia|done|done].
Qed.

Lemma pair_indices_sorted (n : nat) : StronglySorted lex_lt (pair_indices n).
Proof. unfold pair_indices, range at 2. apply rows_sorted. Qed.

(** X6.  [compare_all_pairs] lists the entries in dictionary order of the
    positions of their faces: first those of face 0 with the later faces,
    in the order of these, then those of face 1, and so on.  Of two
    entries of the result the earlier one holds the faces of a pair of
    positions that comes first in this order. *)
Theorem compare_all_pairs_in_index_order
    (faces : list string) (threshold : float) :
  compare_all_pairs compare_faces faces threshold
  = map
      (fun p =>
         (faces !!! p.1, faces !!! p.2,
          compare_faces (faces !!! p.1) (faces !!! p.2),
          PrimFloat.ltb (compare_faces (faces !!! p.1) (faces !!! p.2))
            threshold))
      (pair_indices (length faces))
  /\ StronglySorted lex_lt (pair_indices (length faces))
  /\ (forall i j,
        In (i, j) (pair_indices (length faces)) <-> i < j /\ j < length faces)
  /\ (forall k1 k2 r1 r2,
        k1 < k2 ->
        compare_all_pairs compare_faces faces threshold !! k1 = Some r1 ->
        compare_all_pairs compare_faces faces threshold !! k2 = Some r2 ->
        exists i1 j1 i2 j2 a1 b1 a2 b2,
          (i1 < i2 \/ (i1 = i2 /\ j1 < j2))
          /\ i1 < j1 /\ i2 < j2
          /\ faces !! i1 = Some a1 /\ faces !! j1 = Some b1
          /\ faces !! i2 = Some a2 /\ faces !! j2 = Some b2
          /\ r1 = (a1, b1, compare_faces a1 b1,
                   PrimFloat.ltb (compare_faces a1 b1) threshold)
          /\ r2 = (a2, b2, compare_faces a2 b2,
                   PrimFloat.ltb (compare_faces a2 b2) threshold)).
Proof.
  split; [apply compare_all_pairs_indices|].
  split; [apply pair_indices_sorted|]. split; [apply in_pair_indices|].
  intros k1 k2 r1 r2 Hk H1 H2.
  rewrite compare_all_pairs_lookup in H1, H2.
  destruct (pair_indices (length faces) !! k1) as [[i1 j1]|] eqn:Hp1; [|done].
  destruct (pair_indices (length faces) !! k2) as [[i2 j2]|] eqn:Hp2; [|done].
  injection H1 as <-. injection H2 as <-.
  pose proof (StronglySorted_lookup _ _ (pair_indices_sorted (length faces))
                k1 k2 _ _ Hk Hp1 Hp2) as Hlt.
  assert (Hin1 : i1 < j1 /\ j1 < length faces).
  { apply in_pair_indices, list_elem_of_In. by eapply list_elem_of_lookup_2. }
  assert (Hin2 : i2 < j2 /\ j2 < length faces).
  { apply in_pair_indices, list_elem_of_In. by eapply list_elem_of_lookup_2. }
  destruct (lookup_lt_is_Some_2 faces i1) as [a1 Ha1]; [lia|].
  destruct (lookup_lt_is_Some_2 faces j1) as [b1 Hb1]; [lia|].
  destruct (lookup_lt_is_Some_2 faces i2) as [a2 Ha2]; [lia|].
  destruct (lookup_lt_is_Some_2 faces j2) as [b2 Hb2]; [lia|].
  exists i1, j1, i2, j2, a1, b1, a2, b2.
  split; [exact Hlt|]. split; [lia|]. split; [lia|].
  do 4 (split; [done|]).
  split; by apply pair_entry_lookup.
Qed.

Lemma pair_entry_monotone faces t1 t2 i j :
  PrimFloat.leb t1 t2 = true ->
  res_same (pair_entry compare_faces faces t1 i j) = true ->
  res_same (pair_entry compare_faces faces t2 i j) = true.
Proof.
  unfold pair_entry, res_same. simpl. intros Hle Hlt.
  by eapply float_ltb_leb_trans.
Qed.

Lemma count_same_map_monotone faces t1 t2 idx :
  PrimFloat.leb t1 t2 = true ->
  count_same (map (fun p => pair_entry compare_faces faces t1 p.1 p.2) idx)
  <= count_same (map (fun p => pair_entry compare_faces faces t2 p.1 p.2) idx).
Proof.
  intros Hle. induction idx as [|[i j] idx IH]; [done|].
  cbn [map]. rewrite !count_same_cons. cbn [fst snd].
  pose proof (pair_entry_monotone faces t1 t2 i j Hle) as Hmono.
  destruct (res_same (pair_entry compare_faces faces t1 i j));
    [rewrite Hmono by done|destruct (res_same _)]; lia.
Qed.

(** X7.  Raising the threshold never turns a SAME pair into a DIFFERENT
    one: for thresholds [t1 <= t2] the two result lists hold the same
    pairs with the same distances, every pair labelled SAME at [t1] is
    labelled SAME at [t2], and the count of SAME pairs does not drop. *)
Theorem same_is_monotone_in_threshold
    (faces : list string) (t1 t2 : float) :
  PrimFloat.leb t1 t2 = true ->
  Forall2
    (fun r1 r2 =>
       res_img1 r1 = res_img1 r2 /\ res_img2 r1 = res_img2 r2
       /\ res_dist r1 = res_dist r2
       /\ (res_same r1 = true -> res_same r2 = true))
    (compare_all_pairs compare_faces faces t1)
    (compare_all_pairs compare_faces faces t2)
  /\ count_same (compare_all_pairs compare_faces faces t1)
     <= count_same (compare_all_pairs compare_faces faces t2).
Proof.
  intros Hle. rewrite !compare_all_pairs_indices. split.
  - induction (pair_indices (length faces)) as [|[i j] idx IH];
      constructor; [|done].
    split; [done|]. split; [done|]. split; [done|].
    by apply pair_entry_monotone.
  - by apply count_same_map_monotone.
Qed.

End ComparisonOrder.

Section MainOutcomes.

Import Py Recognition.

Variable run_subprocess : list string -> FS -> CompletedProcess * FS.
Variable sys_executable : string.
Variable compare_faces : string -> string -> float.
Variable compare_raises : string -> string -> option string.
Variable open_raises : FS -> string -> option string.
Variable resolve : string -> string.

Local Abbreviation comparison_error := (comparison_error compare_raises).
Local Abbreviation main :=
  (main run_subprocess sys_executable compare_faces compare_raises open_raises
     resolve).

Lemma compare_all_pairs_nil_iff (faces : list string) (threshold : float) :
  compare_all_pairs compare_faces faces threshold = [] <-> length faces < 2.
Proof.
  split.
  - intros H. apply (f_equal length) in H.
    rewrite compare_all_pairs_indices, length_map, length_pair_indices in H.
    cbn [length] in H.
    destruct (length faces) as [|[|n]]; [lia|lia|].
    exfalso. replace (S (S n) - 1) with (S n) in H by lia.
    assert (Hge : 1 <= S (S n) * S n / 2).
    { apply Nat.div_le_lower_bound; lia. }
    lia.
  - intros H. rewrite compare_all_pairs_indices.
    by rewrite pair_indices_small.
Qed.

Lemma head_omap_Some {A B} (f : A -> option B) (l : list A) (y : B) :
  head (omap f l) = Some y -> exists x, In x l /\ f x = Some y.
Proof.
  induction l as [|x l IH]; [done|]. cbn [omap list_omap].
  destruct (f x) as [y'|] eqn:Hx.
  - intros [= <-]. exists x. split; [by left|done].
  - intros H. destruct (IH H) as (x' & Hin & Hx'). exists x'.
    split; [by right|done].
Qed.

Lemma head_omap_None {A B} (f : A -> option B) (l : list A) :
  head (omap f l) = None -> forall x, In x l -> f x = None.
Proof.
  induction l as [|x l IH]; [done|]. cbn [omap list_omap].
  destruct (f x) as [y'|] eqn:Hx; [done|].
  intros H x' [<-|Hin]; [done|by apply IH].
Qed.

(** [compare_all_pairs] raises exactly when one of its comparisons
    does. *)
Lemma comparison_error_spec (faces : list string) :
  (forall msg,
     comparison_error faces = Some msg ->
     exists i j a b,
       i < j /\ faces !! i = Some a /\ faces !! j = Some b
       /\ compare_raises a b = Some msg)
  /\ (comparison_error faces = None ->
      forall i j a b,
        i < j -> faces !! i = Some a -> faces !! j = Some b ->
        compare_raises a b = None).
Proof.
  unfold Recognition.comparison_error.
  destruct (length faces <? 2) eqn:Hlen.
  - apply Nat.ltb_lt in Hlen. split; [done|].
    intros _ i j a b Hij Ha Hb. apply lookup_lt_Some in Hb. lia.
  - split.
    + intros msg H. apply head_omap_Some in H as (i & Hi & H).
      apply head_omap_Some in H as (j & Hj & H).
      unfold range in Hi, Hj. apply in_seq in Hi, Hj.
      destruct (lookup_lt_is_Some_2 faces i) as [a Ha]; [lia|].
      destruct (lookup_lt_is_Some_2 faces j) as [b Hb]; [lia|].
      rewrite (list_lookup_total_correct _ _ _ Ha),
        (list_lookup_total_correct _ _ _ Hb) in H.
      exists i, j, a, b. split; [lia|done].
    + intros H i j a b Hij Ha Hb.
      pose proof (lookup_lt_Some _ _ _ Hb) as Hj.
      pose proof (head_omap_None _ _ H i) as Hrow.
      cbv beta in Hrow.
      assert (Hi : In i (range 0 (length faces))).
      { unfold range. apply in_seq. lia. }
      specialize (Hrow Hi).
      pose proof (head_omap_None _ _ Hrow j) as Hcell. cbv beta in Hcell.
      rewrite (list_lookup_total_correct _ _ _ Ha),
        (list_lookup_total_correct _ _ _ Hb) in Hcell.
      apply Hcell. unfold range. apply in_seq. lia.
Qed.


End MainOutcomes.

Section ReportNames.

Import Py Recognition.

Lemma path_name_numbered_crop (d : string) (i : nat) :
  Text.path_name (numbered_crop d i) = Text.str i +:+ ".jpg".
Proof. apply path_name_path_div, jpg_name_one_part. Qed.

Lemma crop_run_lookup_total (d : string) (k i : nat) :
  i < k -> crop_run d k !!! i = numbered_crop d (S i).
Proof.
  intros Hi. apply list_lookup_total_correct.
  unfold crop_run. rewrite lookup_map, lookup_seq_lt by done. done.
Qed.

(** X9.  In the report the crops collected from any output directory are
    named by their number alone: the line of the pair at positions
    [i < j] of the run [1.jpg ... k.jpg] reads
    [(i+1).jpg vs (j+1).jpg -> distance (label)]. *)
Theorem report_names_crops_by_number
    (compare_faces : string -> string -> float)
    (d : string) (k i j : nat) (threshold : float) :
  i < j -> j < k ->
  report_line (pair_entry compare_faces (crop_run d k) threshold i j)
  = Text.str (S i) +:+ ".jpg" +:+ " vs " +:+ Text.str (S j) +:+ ".jpg"
    +:+ " -> "
    +:+ format_4f (compare_faces (numbered_crop d (S i)) (numbered_crop d (S j)))
    +:+ " ("
    +:+ (if PrimFloat.ltb
              (compare_faces (numbered_crop d (S i)) (numbered_crop d (S j)))
              threshold
         then "SAME" else "DIFFERENT")
    +:+ ")" +:+ nl.
Proof.
  intros Hij Hjk. unfold report_line, pair_entry, res_img1, res_img2,
    res_dist, res_same. cbn [fst snd].
  rewrite !crop_run_lookup_total by lia.
  rewrite !path_name_numbered_crop.
  by rewrite !string_app_assoc.
Qed.

End ReportNames.

(** * Further properties of the endpoints *)

Section ClearFacts.

Import Py Server.

Lemma clear_images_eq (w : World) :
  clear_images w
  = ({| status_code := 200; content := [("success", JBool true)] |},
     set_raw_dir (Some (cleared (raw_dir (disk w)))) w).
Proof.
  unfold clear_images, clear_raw_images, cleared.
  by destruct (raw_dir (disk w)).
Qed.

Lemma cleared_lookup (raw : option (gmap string entry)) (k : string) (e : entry) :
  cleared raw !! k = Some e
  <-> e = DirE /\ exists old, raw = Some old /\ old !! k = Some DirE.
Proof.
  unfold cleared. destruct raw as [old|].
  - rewrite map_lookup_filter_Some. cbn [snd]. split.
    + intros [Hk He]. destruct e; [done|]. split; [done|]. by exists old.
    + intros (-> & old' & [= <-] & Hk). done.
  - rewrite lookup_empty. split; [done|]. by intros (_ & old & ? & _).
Qed.

Lemma cleared_idemp (raw : option (gmap string entry)) :
  cleared (Some (cleared raw)) = cleared raw.
Proof.
  apply map_eq. intros k. apply option_eq. intros e.
  rewrite cleared_lookup. split.
  - intros (-> & old & [= <-] & Hk). done.
  - intros H. pose proof H as H'. apply cleared_lookup in H' as (-> & _).
    split; [done|]. by eexists.
Qed.

(** X11.  After [/clear] the input directory exists and holds no file;
    its sub-directories, the results file, the clock and the list of
    started child processes are untouched, the answer is [success: true],
    and clearing twice is the same as clearing once. *)
Theorem clear_leaves_no_file (w : World) :
  (clear_images w).1
  = {| status_code := 200; content := [("success", JBool true)] |}
  /\ (exists entries,
        raw_dir (disk (clear_images w).2) = Some entries
        /\ (forall k c, entries !! k <> Some (FileE c))
        /\ (forall k old,
              raw_dir (disk w) = Some old ->
              (entries !! k = Some DirE <-> old !! k = Some DirE)))
  /\ results_txt (disk (clear_images w).2) = results_txt (disk w)
  /\ ticks (clear_images w).2 = ticks w
  /\ invoked (clear_images w).2 = invoked w
  /\ (clear_images (clear_images w).2).2 = (clear_images w).2.
Proof.
  rewrite !clear_images_eq. cbn [fst snd].
  split; [done|]. split; [|split; [done|split; [done|split; [done|]]]].
  - eexists. split; [done|]. split.
    + intros k c H. by apply cleared_lookup in H as [? _].
    + intros k old Hold. rewrite cleared_lookup, Hold. split.
      * by intros (_ & old' & [= <-] & Hk).
      * intros Hk. split; [done|]. by exists old.
  - unfold set_raw_dir. cbn [disk raw_dir results_txt ticks invoked].
    by rewrite cleared_idemp.
Qed.

End ClearFacts.

Section CompareFacts.

Import Py Server.

Variable clock : nat -> float.
Variable run_subprocess : list string -> Disk -> CompletedProcess * Disk.
Variable str_float : float -> string.
Variable strip : string -> string.
Variable python_executable : string.
Variable base_dir : string.
Variable validation_detail : json.
Variable open_refused : Disk -> string -> option string.
Variable write_below : Disk -> string -> string -> Exc Disk.

Local Abbreviation write_upload :=
  (write_upload base_dir open_refused write_below).
Local Abbreviation save_uploads :=
  (save_uploads clock base_dir open_refused write_below).
Local Abbreviation request_names := (request_names clock).
Local Abbreviation pipeline_argv :=
  (pipeline_argv str_float python_executable base_dir).
Local Abbreviation compare_faces :=
  (compare_faces clock run_subprocess str_float strip python_executable
     base_dir validation_detail open_refused write_below).

Local Abbreviation pipeline_response := (pipeline_response strip).

Lemma compare_faces_two_or_more images threshold w :
  2 <= length images ->
  compare_faces images threshold w
  = match save_uploads images (cleared_world w) with
    | (Ok _, w2) =>
        (pipeline_response
           (run_subprocess (pipeline_argv threshold) (disk w2)).1
           (run_subprocess (pipeline_argv threshold) (disk w2)).2,
         {| disk := (run_subprocess (pipeline_argv threshold) (disk w2)).2;
            ticks := ticks w2;
            invoked := invoked w2 ++ [pipeline_argv threshold] |})
    | (Raise exc, w2) =>
        (json_response 500 [("success", JBool false); ("error", JStr exc)], w2)
    end.
Proof.
  intros Hlen. unfold Server.compare_faces, compare_body.
  destruct images as [|upload rest] eqn:Himages; [simpl in Hlen; lia|].
  rewrite <- Himages in *.
  assert (Hlt : (length images <? 2) = false) by (apply Nat.ltb_ge; lia).
  rewrite Hlt. unfold hbind at 1.
  assert (Hclear : clear_raw_images w = (Ok tt, cleared_world w)).
  { unfold clear_raw_images, cleared_world, cleared.
    by destruct (raw_dir (disk w)). }
  rewrite Hclear. unfold hbind at 1.
  destruct (save_uploads images (cleared_world w)) as [[[]|exc] w2]; [|done].
  unfold hbind, subprocess_run, pipeline_response.
  destruct (run_subprocess (pipeline_argv threshold) (disk w2)) as [result d].
  cbn [fst snd]. destruct (negb _); [done|].
  cbn [disk]. by destruct (results_txt d).
Qed.

Lemma write_upload_keeps name data w r w' :
  write_upload name data w = (r, w') ->
  invoked w' = invoked w /\ ticks w' = ticks w.
Proof.
  unfold Server.write_upload.
  destruct (raw_dir (disk w)) as [entries|]; [|by intros [= <- <-]].
  destruct (open_refused (disk w) name); [by intros [= <- <-]|].
  destruct (Text.path_parts name) as [|part [|part' parts]];
    [by intros [= <- <-]| |].
  - destruct (entries !! part) as [[c|]|]; by intros [= <- <-].
  - destruct (entries !! part) as [[c|]|]; try by intros [= <- <-].
    destruct (write_below (disk w) name data); by intros [= <- <-].
Qed.

(** Saving uploads starts no child process; when it completes it has read
    the clock once per upload. *)
Lemma save_uploads_keeps images :
  forall w r w',
    save_uploads images w = (r, w') ->
    invoked w' = invoked w
    /\ (r = Ok tt -> ticks w' = ticks w + length images).
Proof.
  induction images as [|upload rest IH]; intros w r w' H.
  - injection H as <- <-. simpl. split; [done|lia].
  - rewrite save_uploads_cons in H.
    destruct (saved_filename _ _) as [name|e]; [|by injection H as <- <-].
    destruct (write_upload name (file upload) (tick w)) as [[[]|e] w2] eqn:Hw.
    + apply write_upload_keeps in Hw as (Hi & Ht).
      destruct (IH _ _ _ H) as (Hi' & Ht').
      split; [by rewrite Hi', Hi|].
      intros ->. rewrite Ht' by done. rewrite Ht. simpl. lia.
    + injection H as <- <-.
      apply write_upload_keeps in Hw as (Hi & Ht). done.
Qed.

Lemma field_success_pipeline_response result d :
  field "success" (pipeline_response result d)
  = Some (JBool (status_code (pipeline_response result d) =? 200)).
Proof.
  unfold pipeline_response. destruct (negb _); [done|].
  by destruct (results_txt d).
Qed.

Lemma status_pipeline_response result d :
  status_code (pipeline_response result d) = 200
  \/ status_code (pipeline_response result d) = 500.
Proof.
  unfold pipeline_response. destruct (negb _); [by right|].
  destruct (results_txt d); [by left|by right].
Qed.

(** X12.  Whatever the request, the [/compare] endpoint answers with
    status 200, 400, 422 or 500: 422 for a request without an image, which
    the framework answers itself, and otherwise with a [success] field
    that is true exactly for status 200.  It starts at most one child
    process, with the interpreter, the script and the absolute paths of
    the input directory, the output directory and the results file as
    arguments; a 200 answer is given only after starting it, and none is
    started when an upload could not be saved. *)
Theorem compare_answers_and_child_process
    (images : list UploadFile) (threshold : float) (w : World) :
  (status_code (compare_faces images threshold w).1 = 200
   \/ status_code (compare_faces images threshold w).1 = 400
   \/ status_code (compare_faces images threshold w).1 = 422
   \/ status_code (compare_faces images threshold w).1 = 500)
  /\ (status_code (compare_faces images threshold w).1 = 422
      <-> images = [])
  /\ (images <> [] ->
      field "success" (compare_faces images threshold w).1
      = Some (JBool (status_code (compare_faces images threshold w).1 =? 200)))
  /\ (invoked (compare_faces images threshold w).2 = invoked w
      \/ invoked (compare_faces images threshold w).2
         = invoked w
           ++ [[python_executable; "Face_Recognition_System.py";
                "--input-dir"; Text.path_div base_dir "RawImages";
                "--output-dir"; Text.path_div base_dir "pairs";
                "--threshold"; str_float threshold;
                "--results-file"; Text.path_div base_dir "results.txt"]])
  /\ (status_code (compare_faces images threshold w).1 = 200 ->
      invoked (compare_faces images threshold w).2
      = invoked w ++ [pipeline_argv threshold])
  /\ (forall exc w2,
        2 <= length images ->
        save_uploads images (cleared_world w) = (Raise exc, w2) ->
        invoked (compare_faces images threshold w).2 = invoked w
        /\ status_code (compare_faces images threshold w).1 = 500).
Proof.
  destruct (Nat.lt_ge_cases (length images) 2) as [Hlt|Hge].
  - destruct images as [|upload [|upload' rest]]; [| |simpl in Hlt; lia].
    + cbn. split; [tauto|]. split; [done|]. split; [done|].
      split; [by left|]. split; [done|]. intros exc w2 Hge. simpl in Hge. lia.
    + cbn. split; [tauto|]. split; [done|]. split; [done|].
      split; [by left|]. split; [done|]. intros exc w2 Hge. simpl in Hge. lia.
  - assert (Hne : images <> []) by (intros ->; simpl in Hge; lia).
    rewrite (compare_faces_two_or_more images threshold w Hge).
    destruct (save_uploads images (cleared_world w)) as [[[]|exc] w2] eqn:Hsave;
      apply save_uploads_keeps in Hsave as (Hinv & _); cbn [fst snd invoked].
    + change (invoked (cleared_world w)) with (invoked w) in Hinv.
      rewrite Hinv.
      destruct (status_pipeline_response
                  (run_subprocess (pipeline_argv threshold) (disk w2)).1
                  (run_subprocess (pipeline_argv threshold) (disk w2)).2)
        as [Hst|Hst].
      * split; [tauto|]. split; [rewrite Hst; split; [done|by intros]|].
        split; [intros _; apply field_success_pipeline_response|].
        split; [by right|]. split; [done|]. intros exc w2' _ [=].
      * split; [tauto|]. split; [rewrite Hst; split; [done|by intros]|].
        split; [intros _; apply field_success_pipeline_response|].
        split; [by right|]. split; [done|]. intros exc w2' _ [=].
    + change (invoked (cleared_world w)) with (invoked w) in Hinv.
      rewrite Hinv. cbn [status_code json_response].
      split; [tauto|]. split; [split; [done|by intros]|]. split; [done|].
      split; [by left|]. split; [done|]. done.
Qed.

(** X13.  When the uploads of a request were all saved, one reading of
    the clock was taken per upload and the answer is made from the
    pipeline's exit status and the results file found afterwards.  When
    moreover no filename holds a slash, the pipeline is started on an
    input directory whose files are exactly uploads of this request (files
    staged before were unlinked) and with the results file as it was
    found: the handler never removes it.  So a pipeline that exits with
    status 0 without writing the file makes the handler return the text
    of an earlier request with [success: true]. *)
Theorem pipeline_runs_on_this_request_only
    (images : list UploadFile) (threshold : float) (w w2 : World)
    (entries2 : gmap string entry) :
  2 <= length images ->
  save_uploads images (cleared_world w) = (Ok tt, w2) ->
  raw_dir (disk w2) = Some entries2 ->
  ticks w2 = ticks w + length images
  /\ (compare_faces images threshold w).1
     = pipeline_response
         (run_subprocess (pipeline_argv threshold) (disk w2)).1
         (run_subprocess (pipeline_argv threshold) (disk w2)).2
  /\ (Forall (fun upload => Text.has_slash (filename upload) = false) images ->
      (forall k c,
         entries2 !! k = Some (FileE c) ->
         In (Ok k) (request_names (ticks w) images))
      /\ results_txt (disk w2) = results_txt (disk w)
      /\ (forall old,
            results_txt (disk w) = Some old ->
            returncode (run_subprocess (pipeline_argv threshold) (disk w2)).1
            = 0%Z ->
            results_txt (run_subprocess (pipeline_argv threshold) (disk w2)).2
            = results_txt (disk w2) ->
            (compare_faces images threshold w).1
            = json_response 200
                [("success", JBool true); ("results", JStr old);
                 ("output",
                  JStr (stdout
                          (run_subprocess (pipeline_argv threshold)
                             (disk w2)).1))])).
Proof.
  intros Hlen Hsave Hraw2.
  destruct (save_uploads_keeps images _ _ _ Hsave) as (_ & Hticks).
  change (ticks (cleared_world w)) with (ticks w) in Hticks.
  assert (Hresp :
    (compare_faces images threshold w).1
    = pipeline_response
        (run_subprocess (pipeline_argv threshold) (disk w2)).1
        (run_subprocess (pipeline_argv threshold) (disk w2)).2).
  { rewrite (compare_faces_two_or_more images threshold w Hlen).
    by rewrite Hsave. }
  split; [by apply Hticks|]. split; [done|]. intros Hplain.
  destruct (save_uploads_spec clock base_dir open_refused write_below images
              (cleared_world w) w2 (cleared (raw_dir (disk w))) Hplain Hsave
              eq_refl)
    as (names & entries' & Hnames & Hraw' & Hother & _ & Hres).
  change (results_txt (disk (cleared_world w))) with (results_txt (disk w)) in Hres.
  split; [|split; [done|]].
  - intros k c Hk.
    change (ticks (cleared_world w)) with (ticks w) in Hnames.
    rewrite Hraw2 in Hraw'. injection Hraw' as <-.
    rewrite Hnames. apply in_map.
    destruct (in_dec string_dec k names) as [Hin|Hout]; [done|].
    rewrite (Hother k Hout) in Hk. by apply cleared_lookup in Hk as [? _].
  - intros old Hold Hrc Hsame. rewrite Hresp. unfold pipeline_response.
    rewrite Hrc, Hsame, Hres, Hold. done.
Qed.

End CompareFacts.

(** * Properties of the triplet dataset *)

Section GroupingFacts.

Import Py Triplets.

Lemma table_get_setdefault_append (d : index_table) (label idx l : nat) :
  table_get (setdefault_append label idx d) l
  = if label =? l then Some (default [] (table_get d l) ++ [idx])
    else table_get d l.
Proof.
  induction d as [|[k m] d IH]; simpl.
  - destruct (label =? l) eqn:E; [done|done].
  - destruct (k =? label) eqn:Ek; simpl.
    + apply Nat.eqb_eq in Ek as ->.
      destruct (label =? l) eqn:E; [done|done].
    + destruct (k =? l) eqn:El; [|apply IH].
      apply Nat.eqb_eq in El as ->.
      rewrite Nat.eqb_sym in Ek. by rewrite Ek.
Qed.

Lemma keys_setdefault_append (d : index_table) (label idx : nat) :
  map fst (setdefault_append label idx d)
  = if bool_decide (label ∈ map fst d) then map fst d
    else map fst d ++ [label].
Proof.
  induction d as [|[k m] d IH]; cbn [setdefault_append map fst].
  - rewrite (bool_decide_eq_false_2 (label ∈ [])); [done|].
    apply not_elem_of_nil.
  - destruct (k =? label) eqn:Ek; cbn [map fst].
    + apply Nat.eqb_eq in Ek as ->.
      rewrite (bool_decide_eq_true_2 (label ∈ label :: map fst d)); [done|].
      apply list_elem_of_here.
    + apply Nat.eqb_neq in Ek. rewrite IH.
      destruct (decide (label ∈ map fst d)) as [Hin|Hout].
      * rewrite (bool_decide_eq_true_2 _ Hin).
        rewrite (bool_decide_eq_true_2 (label ∈ k :: map fst d)); [done|].
        by apply list_elem_of_further.
      * rewrite (bool_decide_eq_false_2 _ Hout).
        rewrite (bool_decide_eq_false_2 (label ∈ k :: map fst d)); [done|].
        intros [?|?]%elem_of_cons; [congruence|done].
Qed.

Lemma group_from_cons start path label samples d :
  group_from start ((path, label) :: samples) d
  = group_from (S start) samples (setdefault_append label start d).
Proof. reflexivity. Qed.

Lemma table_get_group_from (samples : list (string * nat)) :
  forall start d l,
    table_get (group_from start samples d) l
    = match table_get d l, indices_of l start samples with
      | None, [] => None
      | o, idxs => Some (default [] o ++ idxs)
      end.
Proof.
  induction samples as [|[path label] samples IH]; intros start d l.
  - change (group_from start [] d) with d. cbn [indices_of].
    destruct (table_get d l); simpl; [by rewrite app_nil_r|done].
  - rewrite group_from_cons, IH, table_get_setdefault_append.
    cbn [indices_of]. rewrite (Nat.eqb_sym label l).
    destruct (l =? label) eqn:E.
    + destruct (table_get d l); simpl; [|done].
      by rewrite <- app_assoc.
    + destruct (table_get d l); done.
Qed.

Lemma keys_group_from_NoDup (samples : list (string * nat)) :
  forall start d,
    NoDup (map fst d) -> NoDup (map fst (group_from start samples d)).
Proof.
  induction samples as [|[path label] samples IH]; intros start d Hd; [done|].
  rewrite group_from_cons. apply IH. rewrite keys_setdefault_append.
  destruct (bool_decide (label ∈ map fst d)) eqn:E; [done|].
  apply bool_decide_eq_false in E.
  apply NoDup_app. split; [done|]. split; [|apply NoDup_singleton].
  intros x Hx Hx'. apply list_elem_of_singleton in Hx' as ->. done.
Qed.

Lemma in_indices_of (label start i : nat) (samples : list (string * nat)) :
  In i (indices_of label start samples)
  <-> start <= i /\ exists path, samples !! (i - start) = Some (path, label).
Proof.
  revert start. induction samples as [|[p l] samples IH]; intros start.
  - simpl. split; [done|]. by intros (_ & path & ?).
  - cbn [indices_of].
    assert (Htail : In i (indices_of label (S start) samples)
                    <-> start < i /\ exists path,
                          ((p, l) :: samples) !! (i - start) = Some (path, label)).
    { rewrite IH. split.
      - intros (Hle & path & H). split; [lia|]. exists path.
        replace (i - start) with (S (i - S start)) by lia. done.
      - intros (Hlt & path & H). split; [lia|]. exists path.
        replace (i - start) with (S (i - S start)) in H by lia. done. }
    destruct (l =? label) eqn:E.
    + apply Nat.eqb_eq in E as ->. simpl. rewrite Htail. split.
      * intros [<-|(Hlt & path & H)].
        -- split; [lia|]. exists p. by rewrite Nat.sub_diag.
        -- split; [lia|]. by exists path.
      * intros (Hle & path & H).
        destruct (decide (i = start)) as [->|Hne]; [by left|].
        right. split; [lia|]. by exists path.
    + apply Nat.eqb_neq in E. rewrite Htail. split.
      * intros (Hlt & path & H). split; [lia|]. by exists path.
      * intros (Hle & path & H).
        destruct (decide (i = start)) as [->|Hne].
        -- rewrite Nat.sub_diag in H. simpl in H. congruence.
        -- split; [lia|]. by exists path.
Qed.

Lemma indices_of_NoDup (label start : nat) (samples : list (string * nat)) :
  NoDup (indices_of label start samples).
Proof.
  revert start. induction samples as [|[p l] samples IH]; intros start;
    [constructor|].
  cbn [indices_of]. destruct (l =? label); [|apply IH].
  apply NoDup_cons. split; [|apply IH].
  rewrite list_elem_of_In, in_indices_of. lia.
Qed.

Lemma table_get_key (d : index_table) (l : nat) :
  is_Some (table_get d l) <-> In l (map fst d).
Proof.
  induction d as [|[k m] d IH]; simpl.
  - split; [by intros [? ?]|done].
  - destruct (k =? l) eqn:E.
    + apply Nat.eqb_eq in E as ->. split; [by left|by eexists].
    + apply Nat.eqb_neq in E. rewrite IH. split; [by right|].
      by intros [?|?].
Qed.

End GroupingFacts.

Section DatasetClaims.

Import Py Triplets.

Lemma table_get_group_by_label (samples : list (string * nat)) (label : nat) :
  table_get (group_by_label samples) label
  = match indices_of label 0 samples with
    | [] => None
    | idxs => Some idxs
    end.
Proof.
  change (group_by_label samples) with (group_from 0 samples []).
  rewrite table_get_group_from. simpl.
  by destruct (indices_of label 0 samples).
Qed.

Lemma sample_is_grouped (samples : list (string * nat)) i path label :
  samples !! i = Some (path, label) ->
  exists l, table_get (group_by_label samples) label = Some l /\ In i l.
Proof.
  intros Hi.
  assert (Hin : In i (indices_of label 0 samples)).
  { apply in_indices_of. split; [lia|]. exists path.
    by rewrite Nat.sub_0_r. }
  rewrite table_get_group_by_label.
  destruct (indices_of label 0 samples) as [|j idxs]; [done|].
  by eexists.
Qed.

Lemma grouped_is_sample (samples : list (string * nat)) label l i :
  table_get (group_by_label samples) label = Some l -> In i l ->
  exists path, samples !! i = Some (path, label).
Proof.
  rewrite table_get_group_by_label. intros Hl Hi.
  assert (Hin : In i (indices_of label 0 samples)).
  { destruct (indices_of label 0 samples); [done|]. by injection Hl as <-. }
  apply in_indices_of in Hin as (_ & path & H).
  exists path. by rewrite Nat.sub_0_r in H.
Qed.

Lemma init_ok (samples class_to_idx : list (string * nat)) ds :
  init samples class_to_idx = Ok ds ->
  2 <= length (group_by_label samples)
  /\ ds = {| Triplets.samples := samples;
             Triplets.class_to_idx := class_to_idx;
             idx_to_class := invert class_to_idx;
             class_indices := group_by_label samples |}.
Proof.
  unfold init. destruct (_ <? 2) eqn:E; [done|].
  apply Nat.ltb_ge in E. by intros [= <-].
Qed.

(** X14.  A dataset built by [__init__] has at least two classes, and its
    table lists under every label exactly the indices of the samples with
    that label, in the order of the samples and without repetition: every
    sample is found under its own label and under no other, and no label
    has an empty list. *)
Theorem class_indices_group_the_samples
    (samples class_to_idx : list (string * nat)) (ds : TripletFaceDataset) :
  init samples class_to_idx = Ok ds ->
  2 <= length (class_indices ds)
  /\ NoDup (map fst (class_indices ds))
  /\ (forall label,
        table_get (class_indices ds) label
        = match indices_of label 0 samples with
          | [] => None
          | idxs => Some idxs
          end)
  /\ (forall i path label,
        samples !! i = Some (path, label) ->
        exists l, table_get (class_indices ds) label = Some l /\ In i l)
  /\ (forall label l i,
        table_get (class_indices ds) label = Some l -> In i l ->
        exists path, samples !! i = Some (path, label))
  /\ (forall label l,
        table_get (class_indices ds) label = Some l -> l <> [] /\ NoDup l).
Proof.
  intros Hinit. apply init_ok in Hinit as [Hlen ->]. cbn [class_indices].
  split; [done|]. split; [|split; [|split; [|split]]].
  - apply (keys_group_from_NoDup samples 0 []). constructor.
  - apply table_get_group_by_label.
  - apply sample_is_grouped.
  - apply grouped_is_sample.
  - intros label l. rewrite table_get_group_by_label.
    pose proof (indices_of_NoDup label 0 samples) as Hnd.
    destruct (indices_of label 0 samples); [done|]. by intros [= <-].
Qed.

Lemma NoDup_all_equal_short {A} (l : list A) :
  NoDup l -> (forall x y, In x l -> In y l -> x = y) -> length l < 2.
Proof.
  intros Hnd Heq. destruct l as [|a [|b l]]; simpl; [lia|lia|].
  exfalso. apply NoDup_cons in Hnd as [Hnotin _]. apply Hnotin.
  rewrite (Heq a b); [apply list_elem_of_here|by left|by right; left].
Qed.

(** The class check of [__init__] fails exactly when all samples carry
    one label. *)
Lemma init_single_class
    (samples class_to_idx : list (string * nat)) :
  (init samples class_to_idx
   = Raise "Dataset must contain at least 2 classes for negative sampling."
   <-> forall i j p q a b,
         samples !! i = Some (p, a) -> samples !! j = Some (q, b) -> a = b)
  /\ (forall ds,
        init samples class_to_idx = Ok ds ->
        Triplets.samples ds = samples /\ len ds = length samples).
Proof.
  split.
  - unfold init. split.
    + destruct (_ <? 2) eqn:E; [|done]. intros _.
      apply Nat.ltb_lt in E. intros i j p q a b Hi Hj.
      destruct (sample_is_grouped samples i p a Hi) as (la & Ha & _).
      destruct (sample_is_grouped samples j q b Hj) as (lb & Hb & _).
      assert (Hka : In a (map fst (group_by_label samples))).
      { apply table_get_key. by eexists. }
      assert (Hkb : In b (map fst (group_by_label samples))).
      { apply table_get_key. by eexists. }
      rewrite <- (length_map fst) in E.
      destruct (map fst (group_by_label samples)) as [|k [|k' ks]];
        simpl in *; [done| |lia].
      destruct Hka as [<-|[]], Hkb as [<-|[]]. done.
    + intros Hsame.
      assert (Hshort : length (map fst (group_by_label samples)) < 2).
      { apply NoDup_all_equal_short.
        - apply (keys_group_from_NoDup samples 0 []). constructor.
        - intros a b Ha Hb.
          apply table_get_key in Ha as [la Ha], Hb as [lb Hb].
          pose proof Ha as Ha'. pose proof Hb as Hb'.
          rewrite table_get_group_by_label in Ha', Hb'.
          destruct (indices_of a 0 samples) as [|i la'] eqn:Ea; [done|].
          destruct (indices_of b 0 samples) as [|j lb'] eqn:Eb; [done|].
          injection Ha' as <-. injection Hb' as <-.
          destruct (grouped_is_sample samples a _ i Ha) as [p Hp]; [by left|].
          destruct (grouped_is_sample samples b _ j Hb) as [q Hq]; [by left|].
          by eapply Hsame. }
      rewrite length_map in Hshort. apply Nat.ltb_lt in Hshort.
      by rewrite Hshort.
  - intros ds Hinit. apply init_ok in Hinit as [_ ->]. done.
Qed.

(** X15.  [__init__] raises what [ImageFolder] raises, as it does for a
    root without class folders or files.  When [ImageFolder] returns,
    [__init__] raises its [ValueError] exactly when all the samples
    returned carry one and the same label, and otherwise it returns a
    dataset over these samples and this class table. *)
Theorem init_raises_iff_single_class
    (image_folder : string -> Exc (list (string * nat) * list (string * nat)))
    (root : string) :
  (forall msg,
     image_folder root = Raise msg -> init_root image_folder root = Raise msg)
  /\ (forall samples class_to_idx,
        image_folder root = Ok (samples, class_to_idx) ->
        (init_root image_folder root
         = Raise "Dataset must contain at least 2 classes for negative sampling."
         <-> forall i j p q a b,
               samples !! i = Some (p, a) -> samples !! j = Some (q, b) ->
               a = b)
        /\ (forall ds,
              init_root image_folder root = Ok ds ->
              Triplets.samples ds = samples
              /\ Triplets.class_to_idx ds = class_to_idx
              /\ len ds = length samples)
        /\ (init_root image_folder root
            = Raise "Dataset must contain at least 2 classes for negative sampling."
            \/ exists ds, init_root image_folder root = Ok ds)).
Proof.
  unfold init_root. split.
  - intros msg ->. done.
  - intros samples class_to_idx ->. cbn [mbind exc_bind fst snd].
    destruct (init_single_class samples class_to_idx) as [Hiff Hok].
    split; [exact Hiff|]. split.
    + intros ds Hds. destruct (Hok ds Hds) as [Hs Hl].
      split; [done|]. split; [|done].
      unfold init in Hds. destruct (_ <? 2); [done|]. by injection Hds as <-.
    + unfold init. destruct (_ <? 2); [by left|right; by eexists].
Qed.

End DatasetClaims.

Section InvertFacts.

Import Py Triplets.

Lemma invert_from_other (l : list (string * nat)) (m : gmap nat string) idx :
  ~ In idx (map snd l) ->
  fold_left (fun m kv => <[kv.2 := kv.1]> m) l m !! idx = m !! idx.
Proof.
  revert m. induction l as [|[k v] l IH]; intros m Hout; [done|].
  simpl in *. rewrite IH by tauto.
  apply lookup_insert_ne. intros ->. apply Hout. by left.
Qed.

Lemma invert_from_lookup (l : list (string * nat)) (m : gmap nat string)
    idx name :
  NoDup (map snd l) ->
  fold_left (fun m kv => <[kv.2 := kv.1]> m) l m !! idx = Some name ->
  In (name, idx) l \/ (~ In idx (map snd l) /\ m !! idx = Some name).
Proof.
  revert m. induction l as [|[k v] l IH]; intros m Hnd H.
  - simpl in H. right. split; [by intros []|done].
  - simpl in *. apply NoDup_cons in Hnd as [Hv Hnd].
    rewrite list_elem_of_In in Hv.
    destruct (IH _ Hnd H) as [Hin|[Hout Hm]]; [by left; right|].
    destruct (decide (v = idx)) as [->|Hne].
    + rewrite lookup_insert_eq in Hm. injection Hm as ->. by left; left.
    + rewrite lookup_insert_ne in Hm by done. right. split; [|done].
      by intros [?|?].
Qed.

(** X16.  When no two classes share an index, [idx_to_class] is the
    inverse of [class_to_idx]: an index is mapped to a name exactly when
    the class table maps that name to the index. *)
Theorem idx_to_class_inverts_class_to_idx
    (samples class_to_idx : list (string * nat)) (ds : TripletFaceDataset) :
  init samples class_to_idx = Ok ds ->
  NoDup (map snd class_to_idx) ->
  forall name idx,
    idx_to_class ds !! idx = Some name <-> In (name, idx) class_to_idx.
Proof.
  intros Hinit Hnd name idx. apply init_ok in Hinit as [_ ->].
  cbn [idx_to_class]. unfold invert. split.
  - intros H. apply invert_from_lookup in H as [?|[_ H]]; [done| |done].
    by rewrite lookup_empty in H.
  - revert Hnd. generalize (∅ : gmap nat string).
    induction class_to_idx as [|[k v] l IH]; intros m Hnd Hin; [done|].
    simpl. apply NoDup_cons in Hnd as [Hv Hnd].
    rewrite list_elem_of_In in Hv.
    destruct Hin as [[= -> ->]|Hin].
    + rewrite invert_from_other by done. apply lookup_insert_eq.
    + by apply IH.
Qed.

End InvertFacts.

Section SamplingFacts.

Import Py Triplets.

Variable Img : Type.
Variable load : string -> Img.
Variable draw : nat -> nat.

Local Abbreviation choice := (Triplets.choice draw).
Local Abbreviation positive_loop := (positive_loop draw).
Local Abbreviation negative_loop := (negative_loop draw).
Local Abbreviation getitem := (getitem Img load draw).
Local Abbreviation dataset_getitem := (dataset_getitem Img load).

Lemma choice_in {A} (k : nat) (l : list A) (a : A) :
  choice k l = Ok a -> In a l.
Proof.
  unfold Triplets.choice. destruct l as [|b l]; [done|].
  destruct (_ !! _) as [c|] eqn:E; [|done]. intros [= <-].
  by eapply list_elem_of_In, list_elem_of_lookup_2.
Qed.

Lemma choice_nonempty {A} (k : nat) (l : list A) :
  l <> [] -> exists a, choice k l = Ok a /\ l !! (draw k mod length l) = Some a.
Proof.
  intros Hne. unfold Triplets.choice. destruct l as [|b l]; [done|].
  destruct (lookup_lt_is_Some_2 (b :: l) (draw k mod length (b :: l)))
    as [a Ha].
  { apply Nat.mod_upper_bound. simpl. lia. }
  exists a. by rewrite Ha.
Qed.

(** The first loop leaves with an index other than the anchor's, drawn
    from the anchor's class, after at least one draw. *)
Lemma positive_loop_post (fuel : nat) ds index label :
  forall pos k p k',
    positive_loop fuel ds index label pos k = Some (Ok (p, k')) ->
    p <> index
    /\ ((p = pos /\ k' = k)
        \/ (k < k'
            /\ exists l, table_get (class_indices ds) label = Some l /\ In p l)).
Proof.
  induction fuel as [|fuel IH]; intros pos k p k' H.
  - simpl in H. destruct (pos =? index) eqn:E; [done|].
    apply Nat.eqb_neq in E. injection H as <- <-. split; [done|by left].
  - cbn [Triplets.positive_loop] in H.
    destruct (pos =? index) eqn:E.
    + unfold members in H.
      destruct (table_get (class_indices ds) label) as [l|] eqn:Hl;
        cbn [mbind exc_bind] in H; [|done].
      destruct (choice k l) as [q|e] eqn:Hq; [|done].
      apply IH in H as [Hne [[-> ->]|(Hk & l' & Hl' & Hin)]].
      * split; [done|]. right. split; [lia|]. exists l. split; [done|].
        by eapply choice_in.
      * split; [done|]. right. split; [lia|]. by exists l'.
    + apply Nat.eqb_neq in E. injection H as <- <-. split; [done|by left].
Qed.

Lemma negative_loop_post (fuel : nat) ds label :
  forall neg k n k',
    negative_loop fuel ds label neg k = Some (Ok (n, k')) ->
    n <> label
    /\ ((n = neg /\ k' = k)
        \/ (k < k' /\ In n (map fst (class_indices ds)))).
Proof.
  induction fuel as [|fuel IH]; intros neg k n k' H.
  - simpl in H. destruct (neg =? label) eqn:E; [done|].
    apply Nat.eqb_neq in E. injection H as <- <-. split; [done|by left].
  - cbn [Triplets.negative_loop] in H.
    destruct (neg =? label) eqn:E.
    + destruct (choice k (map fst (class_indices ds))) as [q|e] eqn:Hq;
        [|done].
      apply IH in H as [Hne [[-> ->]|(Hk & Hin)]].
      * split; [done|]. right. split; [lia|]. by eapply choice_in.
      * split; [done|]. right. split; [lia|done].
    + apply Nat.eqb_neq in E. injection H as <- <-. split; [done|by left].
Qed.

(** X17.  When [__getitem__] of a dataset built by [__init__] returns, the
    anchor is the sample at the index asked for, the positive is another
    sample with the anchor's label, the negative is a sample with a
    different label, the label returned is the anchor's, and at least
    three random draws were made. *)
Theorem getitem_returns_a_triplet
    (samples class_to_idx : list (string * nat)) (ds : TripletFaceDataset)
    (fuel index k k' : nat) (anchor positive negative : Img) (label : nat) :
  init samples class_to_idx = Ok ds ->
  getitem fuel ds index k = Some (Ok (anchor, positive, negative, label, k')) ->
  exists pa pp pn ip ineg ln,
    samples !! index = Some (pa, label) /\ anchor = load pa
    /\ ip <> index
    /\ samples !! ip = Some (pp, label) /\ positive = load pp
    /\ samples !! ineg = Some (pn, ln) /\ ln <> label /\ negative = load pn
    /\ k + 3 <= k'.
Proof.
  intros Hinit Hget.
  pose proof (init_ok _ _ _ Hinit) as [_ Hds].
  assert (Hsamples : Triplets.samples ds = samples) by by rewrite Hds.
  assert (Htable : class_indices ds = group_by_label samples) by by rewrite Hds.
  unfold Triplets.getitem, Triplets.dataset_getitem in Hget.
  rewrite Hsamples in Hget.
  destruct (samples !! index) as [[pa la]|] eqn:Ha; [|done].
  destruct (positive_loop fuel ds index la index k) as [[[ip k1]|e]|] eqn:Hpos;
    [|done|done].
  destruct (samples !! ip) as [[pp lp]|] eqn:Hp; [|done].
  destruct (negative_loop fuel ds la la k1) as [[[ln k2]|e]|] eqn:Hneg;
    [|done|done].
  unfold members in Hget.
  destruct (table_get (class_indices ds) ln) as [l|] eqn:Hl;
    cbn [mbind exc_bind] in Hget; [|done].
  destruct (choice k2 l) as [ineg|e] eqn:Hch;
    cbn [mbind exc_bind] in Hget; [|done].
  destruct (samples !! ineg) as [[pn ln']|] eqn:Hn;
    cbn [mbind exc_bind] in Hget; [|done].
  injection Hget as <- <- <- <- <-.
  apply positive_loop_post in Hpos as [Hip [[? ?]|(Hk1 & lpos & Hlpos & Hin)]];
    [done|].
  apply negative_loop_post in Hneg as [Hln [[? ?]|(Hk2 & _)]]; [done|].
  rewrite Htable in Hlpos, Hl.
  destruct (grouped_is_sample samples la lpos ip Hlpos Hin) as [pp' Hpp'].
  rewrite Hp in Hpp'. injection Hpp' as <- ->.
  apply choice_in in Hch.
  destruct (grouped_is_sample samples ln l ineg Hl Hch) as [pn' Hpn'].
  rewrite Hn in Hpn'. injection Hpn' as <- ->.
  exists pa, pp, pn, ip, ineg, ln. repeat split; try done. lia.
Qed.

Lemma positive_loop_alone (fuel : nat) ds index label :
  table_get (class_indices ds) label = Some [index] ->
  forall k, positive_loop fuel ds index label index k = None.
Proof.
  intros Hl. induction fuel as [|fuel IH]; intros k.
  - simpl. by rewrite Nat.eqb_refl.
  - cbn [Triplets.positive_loop]. rewrite Nat.eqb_refl.
    unfold members. rewrite Hl. cbn [mbind exc_bind].
    unfold Triplets.choice. cbn [length]. rewrite Nat.mod_1_r. simpl.
    apply IH.
Qed.

(** X18.  For a sample that is the only one of its class [__getitem__]
    never returns: whatever the random draws and however many of them are
    allowed, the loop looking for a positive is still running. *)
Theorem getitem_loops_on_single_member_class
    (samples class_to_idx : list (string * nat)) (ds : TripletFaceDataset)
    (index : nat) (path : string) (label : nat) :
  init samples class_to_idx = Ok ds ->
  samples !! index = Some (path, label) ->
  indices_of label 0 samples = [index] ->
  forall fuel k, getitem fuel ds index k = None.
Proof.
  intros Hinit Hsample Honly fuel k.
  pose proof (init_ok _ _ _ Hinit) as [_ Hds].
  assert (Hsamples : Triplets.samples ds = samples) by by rewrite Hds.
  assert (Htable : table_get (class_indices ds) label = Some [index]).
  { rewrite Hds. cbn [class_indices].
    by rewrite table_get_group_by_label, Honly. }
  unfold Triplets.getitem, Triplets.dataset_getitem.
  rewrite Hsamples, Hsample.
  by rewrite (positive_loop_alone fuel ds index label Htable).
Qed.

Lemma choice_lookup {A} (k : nat) (l : list A) (a : A) :
  l !! (draw k mod length l) = Some a -> choice k l = Ok a.
Proof.
  intros H. unfold Triplets.choice. destruct l as [|b l]; [done|].
  by rewrite H.
Qed.

Lemma positive_loop_leaves (fuel : nat) ds index label p k :
  p <> index -> positive_loop fuel ds index label p k = Some (Ok (p, k)).
Proof.
  intros Hne. apply Nat.eqb_neq in Hne.
  destruct fuel; simpl; by rewrite Hne.
Qed.

Lemma negative_loop_leaves (fuel : nat) ds label n k :
  n <> label -> negative_loop fuel ds label n k = Some (Ok (n, k)).
Proof.
  intros Hne. apply Nat.eqb_neq in Hne.
  destruct fuel; simpl; by rewrite Hne.
Qed.

(** X19.  [__getitem__] returns as soon as the draws allow it: when the
    first draw picks another member of the anchor's class and the second
    draw picks another label, one round of each loop suffices, three draws
    are used, and the triplet is made of the anchor, the member picked and
    the sample the third draw picks in the class of that label. *)
Theorem getitem_returns_after_three_draws
    (samples class_to_idx : list (string * nat)) (ds : TripletFaceDataset)
    (fuel index k : nat) (pa : string) (label : nat)
    (l : list nat) (ip ln : nat) :
  init samples class_to_idx = Ok ds ->
  samples !! index = Some (pa, label) ->
  table_get (class_indices ds) label = Some l ->
  l !! (draw k mod length l) = Some ip ->
  ip <> index ->
  map fst (class_indices ds)
    !! (draw (S k) mod length (map fst (class_indices ds)))
  = Some ln ->
  ln <> label ->
  exists pp pn lneg ineg,
    samples !! ip = Some (pp, label)
    /\ table_get (class_indices ds) ln = Some lneg
    /\ lneg !! (draw (S (S k)) mod length lneg) = Some ineg
    /\ samples !! ineg = Some (pn, ln)
    /\ getitem (S fuel) ds index k
       = Some (Ok (load pa, load pp, load pn, label, S (S (S k)))).
Proof.
  intros Hinit Hsample Hl Hip Hne Hln Hlabel.
  pose proof (init_ok _ _ _ Hinit) as [_ Hds].
  assert (Hsamples : Triplets.samples ds = samples) by by rewrite Hds.
  assert (Htable : class_indices ds = group_by_label samples) by by rewrite Hds.
  assert (Hpp : exists pp, samples !! ip = Some (pp, label)).
  { rewrite Htable in Hl. apply (grouped_is_sample samples label l ip Hl).
    by eapply list_elem_of_In, list_elem_of_lookup_2. }
  destruct Hpp as [pp Hpp].
  assert (Hkey : is_Some (table_get (class_indices ds) ln)).
  { apply table_get_key. by eapply list_elem_of_In, list_elem_of_lookup_2. }
  destruct Hkey as [lneg Hlneg].
  assert (Hnonempty : lneg <> []).
  { rewrite Htable, table_get_group_by_label in Hlneg.
    destruct (indices_of ln 0 samples); [done|]. by injection Hlneg as <-. }
  destruct (choice_nonempty (S (S k)) lneg Hnonempty) as (ineg & Hch & Hineg).
  assert (Hpn : exists pn, samples !! ineg = Some (pn, ln)).
  { rewrite Htable in Hlneg.
    apply (grouped_is_sample samples ln lneg ineg Hlneg).
    by eapply list_elem_of_In, list_elem_of_lookup_2. }
  destruct Hpn as [pn Hpn].
  exists pp, pn, lneg, ineg. repeat split; try done.
  unfold Triplets.getitem, Triplets.dataset_getitem.
  rewrite Hsamples, Hsample.
  cbn [Triplets.positive_loop]. rewrite Nat.eqb_refl.
  unfold members at 1. rewrite Hl. cbn [mbind exc_bind].
  rewrite (choice_lookup k l ip Hip).
  rewrite (positive_loop_leaves fuel ds index label ip (S k) Hne).
  rewrite Hpp.
  cbn [Triplets.negative_loop]. rewrite Nat.eqb_refl.
  rewrite (choice_lookup (S k) _ ln Hln).
  rewrite (negative_loop_leaves fuel ds label ln (S (S k)) Hlabel).
  unfold members. rewrite Hlneg. cbn [mbind exc_bind].
  rewrite Hch. cbn [mbind exc_bind]. rewrite Hpn. done.
Qed.

End SamplingFacts.

(** * Properties of the evaluation *)

Section OutputFacts.

Import Py Evaluation.

Variable Tensor : Type.

Lemma first_tensor_app (pre post : list (output Tensor)) :
  Forall (fun x => element_tensor x = None) pre ->
  first_tensor (pre ++ post) = first_tensor post.
Proof.
  induction 1 as [|x pre Hx _ IH]; [done|]. simpl. by rewrite Hx.
Qed.

Lemma first_tensor_none (l : list (output Tensor)) :
  Forall (fun x => element_tensor x = None) l -> first_tensor l = None.
Proof.
  intros H. rewrite <- (app_nil_r l). by rewrite first_tensor_app.
Qed.

(** X20.  [ensure_tensor] looks one level deep and no further.  A tensor
    [logits] attribute is returned before any item is looked at; otherwise
    the first item of a tuple or list that is a tensor or has a tensor
    [logits] decides, whatever follows it; and a tuple or list whose items
    are themselves tuples or lists without such an attribute raises the
    [TypeError], whatever tensors these hold. *)
Theorem ensure_tensor_one_level
    (name : string) (logits : option (output Tensor)) :
  (forall (t : Tensor) items,
     ensure_tensor (OObject name (Some (OTensor t)) items) = Ok t)
  /\ (forall pre e post (t : Tensor),
        tensor_logits (OObject name logits (Some (pre ++ e :: post))) = None ->
        Forall (fun x => element_tensor x = None) pre ->
        element_tensor e = Some t ->
        ensure_tensor (OObject name logits (Some (pre ++ e :: post))) = Ok t)
  /\ (forall inner : list (string * list (output Tensor)),
        ensure_tensor
          (OObject name None
             (Some (map (fun p => OObject p.1 None (Some p.2)) inner)))
        = Raise ("Unsupported model output: " +:+ name)).
Proof.
  split; [done|]. split.
  - intros pre e post t Hlogits Hpre He.
    unfold ensure_tensor. rewrite Hlogits.
    rewrite first_tensor_app by done. simpl. by rewrite He.
  - intros inner. unfold ensure_tensor. cbn [tensor_logits].
    rewrite first_tensor_none; [done|].
    apply List.Forall_forall. intros x Hx.
    apply in_map_iff in Hx as ([n l] & <- & _). done.
Qed.

End OutputFacts.

Section EvaluateFacts.

Import Py Evaluation.

Variables Batch Tensor Dist Mean : Type.
Variable model : Batch -> output Tensor.
Variable criterion : Tensor -> Tensor -> Tensor -> float.
Variable row_norms : Tensor -> Tensor -> list Dist.
Variable below above : Dist -> float -> bool.
Variable size0 : Batch -> nat.
Variable float_div : float -> nat -> float.
Variable int_div : nat -> nat -> float.
Variable mean : list Dist -> Mean.

Local Abbreviation batch_step :=
  (batch_step Batch Tensor Dist model criterion row_norms below above size0).
Local Abbreviation run_batches :=
  (run_batches Batch Tensor Dist model criterion row_norms below above size0).
Local Abbreviation epoch_summary :=
  (epoch_summary Dist Mean float_div int_div mean).
Local Abbreviation run_epochs :=
  (run_epochs Batch Tensor Dist Mean model criterion row_norms below above
     size0 float_div int_div mean).
Local Abbreviation evaluate :=
  (evaluate Batch Tensor Dist Mean model criterion row_norms below above
     size0 float_div int_div mean).
Local Abbreviation Totals := (Totals Dist).
Local Abbreviation Histories := (Histories Mean).
Local Abbreviation rows_match :=
  (rows_match Batch Tensor Dist model row_norms size0).

Lemma count_true_le (test : Dist -> bool) (l : list Dist) :
  count_true Dist test l <= length l.
Proof. unfold count_true. apply List.filter_length_le. Qed.

Lemma run_batches_counts (threshold : float) (batches : list (Batch * Batch * Batch)) :
  forall acc t,
    rows_match batches ->
    run_batches threshold acc batches = Ok t ->
    exists c m,
      correct t = correct acc + c
      /\ total_pairs t = total_pairs acc + 2 * m
      /\ length (all_ap_dist t) = length (all_ap_dist acc) + m
      /\ length (all_an_dist t) = length (all_an_dist acc) + m
      /\ c <= 2 * m
      /\ total_samples t = total_samples acc + length batches.
Proof.
  induction batches as [|[[anchor positive] negative] batches IH];
    intros acc t Hrows H.
  - injection H as <-. exists 0, 0. simpl. lia.
  - cbn [Evaluation.run_batches] in H.
    unfold Evaluation.batch_step in H.
    destruct (ensure_tensor (model anchor)) as [a|e] eqn:Ha;
      cbn [mbind exc_bind] in H; [|done].
    destruct (ensure_tensor (model positive)) as [p|e] eqn:Hp;
      cbn [mbind exc_bind] in H; [|done].
    destruct (ensure_tensor (model negative)) as [n|e] eqn:Hn;
      cbn [mbind exc_bind] in H; [|done].
    destruct (Hrows anchor positive negative a p n) as [Hap Han];
      [by left|done..|].
    apply IH in H; [|intros ? ? ? ? ? ? Hin; apply Hrows; by right].
    destruct H as (c & m & Hc & Hp' & Hlap & Hlan & Hle & Hs).
    cbn [correct total_pairs total_samples all_ap_dist all_an_dist] in *.
    rewrite !length_app, ?Hap, ?Han in *.
    pose proof (count_true_le (fun d => below d threshold) (row_norms a p)).
    pose proof (count_true_le (fun d => above d threshold) (row_norms a n)).
    eexists (_ + c), (size0 anchor + m). cbn [length].
    split; [rewrite Hc; rewrite <- Nat.add_assoc; reflexivity|]. lia.
Qed.

(** X21.  In every epoch the number of pairs counted as correct is at most
    the number of pairs counted in all, which is twice the number of
    distances collected for the positives and for the negatives, and one
    sample is counted per batch: the accuracy is a quotient of a count by
    a count that is not smaller. *)
Theorem correct_pairs_bounded
    (threshold : float) (batches : list (Batch * Batch * Batch)) (t : Totals) :
  rows_match batches ->
  run_batches threshold (zero_totals Dist) batches = Ok t ->
  correct t <= total_pairs t
  /\ total_pairs t = 2 * length (all_ap_dist t)
  /\ length (all_an_dist t) = length (all_ap_dist t)
  /\ total_samples t = length batches.
Proof.
  intros Hrows H.
  apply run_batches_counts in H as (c & m & H); [|done].
  cbn [zero_totals correct total_pairs total_samples all_ap_dist all_an_dist
       length] in H.
  lia.
Qed.

Lemma run_epochs_ok (dataloader : nat -> list (Batch * Batch * Batch))
    (threshold : float) (todo : nat) :
  forall epoch (h h' : Histories),
    run_epochs dataloader threshold todo epoch h = Ok h' ->
    length h'.1.1.1 = length h.1.1.1 + todo
    /\ length h'.1.1.2 = length h.1.1.2 + todo
    /\ length h'.1.2 = length h.1.2 + todo
    /\ length h'.2 = length h.2 + todo
    /\ forall i, i < todo -> dataloader (epoch + i) <> [].
Proof.
  induction todo as [|todo IH]; intros epoch h h' H.
  - injection H as <-. repeat split; lia.
  - cbn [Evaluation.run_epochs] in H.
    destruct (dataloader epoch) as [|batch batches] eqn:Hdl.
    { done. }
    destruct (run_batches threshold (zero_totals Dist) (batch :: batches))
      as [t|e]; cbn [mbind exc_bind] in H; [|done].
    destruct (epoch_summary t) as [[[[avg acc] ap] an]|e];
      cbn [mbind exc_bind] in H; [|done].
    destruct h as [[[lh ah] aph] anh].
    apply IH in H as (H1 & H2 & H3 & H4 & Hne).
    cbn [fst snd] in *. rewrite !length_app in *. cbn [length] in *.
    repeat split; try lia.
    intros [|i] Hi.
    + rewrite Nat.add_0_r, Hdl. done.
    + replace (epoch + S i) with (S epoch + i) by lia. apply Hne. lia.
Qed.

(** X22.  [evaluate] with no epoch returns four empty histories.  With at
    least one epoch and a dataloader that yields no batch it raises a
    division by zero: the means of the distances are not guarded the way
    the loss and the accuracy are.  Whenever it returns, each history has
    one entry per epoch and every epoch had at least one batch. *)
Theorem evaluate_needs_a_batch_per_epoch
    (dataloader : nat -> list (Batch * Batch * Batch))
    (epochs : nat) (threshold : float) :
  evaluate dataloader 0 threshold = Ok ([], [], [], [])
  /\ (1 <= epochs -> dataloader 0 = [] ->
      evaluate dataloader epochs threshold = Raise "division by zero")
  /\ (forall h : Histories,
        evaluate dataloader epochs threshold = Ok h ->
        length h.1.1.1 = epochs /\ length h.1.1.2 = epochs
        /\ length h.1.2 = epochs /\ length h.2 = epochs
        /\ forall epoch, epoch < epochs -> dataloader epoch <> []).
Proof.
  split; [done|]. split.
  - intros Hpos Hempty. unfold Evaluation.evaluate.
    destruct epochs as [|epochs]; [lia|].
    cbn [Evaluation.run_epochs]. by rewrite Hempty.
  - intros h H. apply run_epochs_ok in H as (H1 & H2 & H3 & H4 & Hne).
    simpl in *. repeat split; done.
Qed.

End EvaluateFacts.

(** * The further properties on concrete runs *)

Section WalkExamples.

Import Py Cropping Scenarios.


End WalkExamples.

Section PipelineExamples.

Import Py Recognition Scenarios.

(** An output directory below a directory that is missing: both are
    made.  And the stale crop 3 of an output directory that exists is
    unlinked. *)
Lemma prepare_output_dir_clears_crops_witness :
  prepare_output_dir "out//pairs/" ∅
  = Ok (<["out/pairs" := Dir]> (<["out" := Dir]> ∅))
  /\ prepare_output_dir "pairs" stale_fs = Ok prepared_fs
  /\ (forall i, prepared_fs !! numbered_crop "pairs" i <> Some File)
  /\ (forall p n,
        prepared_fs !! p = Some n ->
        stale_fs !! p = Some n
        \/ (In p (Text.path_chain "pairs") /\ n = Dir /\ stale_fs !! p = None)).
Proof.
  split; [vm_compute; reflexivity|].
  assert (Hprep : prepare_output_dir "pairs" stale_fs = Ok prepared_fs)
    by (vm_compute; reflexivity).
  split; [exact Hprep|].
  destruct (prepare_output_dir_clears_crops "pairs" stale_fs prepared_fs Hprep)
    as (_ & Hcrops & Hnew & _).
  split; [exact Hcrops|exact Hnew].
Defined.

(** The crops 1 and 2 of a run over a directory that held crop 3. *)
Lemma returned_crops_are_fresh_witness :
  crop_faces_from_directory gapped_run "python3" 8 "cpu" "RawImages" "pairs"
    stale_fs
  = Some (Ok ["pairs/1.jpg"; "pairs/2.jpg"], (gapped_run [] prepared_fs).2)
  /\ forall p, In p ["pairs/1.jpg"; "pairs/2.jpg"] ->
       is_Some ((gapped_run [] prepared_fs).2 !! p)
       /\ prepared_fs !! p <> Some File.
Proof.
  split; [vm_compute; reflexivity|].
  apply (returned_crops_are_fresh gapped_run "python3" 8 "cpu" "RawImages"
           "pairs" stale_fs prepared_fs (gapped_run [] prepared_fs).2
           ["pairs/1.jpg"; "pairs/2.jpg"]).
  - discriminate.
  - vm_compute. reflexivity.
  - vm_compute. reflexivity.
Defined.

(** Thresholds 1 and 1.75 over the distances 0.5, 1.5 and 2. *)
Lemma same_is_monotone_in_threshold_witness :
  PrimFloat.leb 1 1.75 = true
  /\ Forall2
       (fun r1 r2 =>
          res_img1 r1 = res_img1 r2 /\ res_img2 r1 = res_img2 r2
          /\ res_dist r1 = res_dist r2
          /\ (res_same r1 = true -> res_same r2 = true))
       (compare_all_pairs mocked_distance (crop_run "pairs" 3) 1)
       (compare_all_pairs mocked_distance (crop_run "pairs" 3) 1.75)
  /\ count_same (compare_all_pairs mocked_distance (crop_run "pairs" 3) 1)
     <= count_same (compare_all_pairs mocked_distance (crop_run "pairs" 3) 1.75).
Proof.
  split; [reflexivity|].
  apply (same_is_monotone_in_threshold mocked_distance (crop_run "pairs" 3)
           1 1.75).
  reflexivity.
Defined.


(** A crop that cannot be decoded, or a results file in a directory that
    is missing, ends [main] with the exception, and no report is
    written. *)
Example main_ends_with_the_exception :
  main three_crops_run "python3" mocked_distance second_unreadable writable id
    8 "cpu" example_args ∅
  = Some (Raise "cannot identify image file 'pairs/2.jpg'")
  /\ main three_crops_run "python3" mocked_distance all_readable no_folder id
       8 "cpu"
       {| input_dir := "RawImages"; output_dir := "pairs";
          threshold := 1.0%float; results_file := "out/results.txt" |} ∅
     = Some (Raise "[Errno 2] No such file or directory: 'out/results.txt'").
Proof. split; vm_compute; reflexivity. Qed.

(** The first line of the report of three crops. *)
Lemma report_names_crops_by_number_witness :
  report_line (pair_entry mocked_distance (crop_run "pairs" 3) 1 0 1)
  = "1.jpg vs 2.jpg -> 0.5000 (SAME)" +:+ nl.
Proof.
  refine (eq_trans
    (report_names_crops_by_number mocked_distance "pairs" 3 0 1 1 _ _) _).
  - lia.
  - lia.
  - vm_compute. reflexivity.
Defined.

End PipelineExamples.

Section RequestExamples.

Import Py Server Scenarios.

(** Two uploads to a server that holds a staged file and an earlier
    report, the pipeline writing nothing: the earlier report is returned
    with [success: true]. *)
Lemma pipeline_runs_on_this_request_only_witness :
  raw_dir
    (disk
       (save_uploads burst_clock "/srv/app" never_refused no_subdirectory
          two_named (cleared_world served_world)).2)
  = Some {[ "1700000000125_left.jpg" := FileE "first";
            "1700000000125_right.jpg" := FileE "second" ]}
  /\ (compare_faces burst_clock silent_pipeline repr_threshold no_strip
        "python3" "/srv/app" field_required never_refused no_subdirectory
        two_named 1.0%float served_world).1
     = json_response 200
         [("success", JBool true); ("results", JStr "earlier report");
          ("output", JStr EmptyString)].
Proof.
  assert (Hraw :
    raw_dir
      (disk
         (save_uploads burst_clock "/srv/app" never_refused no_subdirectory
            two_named (cleared_world served_world)).2)
    = Some {[ "1700000000125_left.jpg" := FileE "first";
              "1700000000125_right.jpg" := FileE "second" ]})
    by (vm_compute; reflexivity).
  split; [exact Hraw|].
  destruct (pipeline_runs_on_this_request_only burst_clock silent_pipeline
              repr_threshold no_strip "python3" "/srv/app" field_required
              never_refused no_subdirectory two_named 1.0%float served_world
              (save_uploads burst_clock "/srv/app" never_refused
                 no_subdirectory two_named (cleared_world served_world)).2
              _ ltac:(simpl; lia) ltac:(vm_compute; reflexivity) Hraw)
    as (_ & _ & Hplain).
  destruct (Hplain ltac:(repeat constructor)) as (_ & _ & Hearlier).
  apply (Hearlier "earlier report"); reflexivity.
Defined.

(** A filename that ends with a slash: [RAW_DIR / filename] drops the
    slash, so the file on disk does not carry the name computed for the
    upload.  A filename that leads through a directory that is missing
    ends the request with the error of [open], after the input directory
    was cleared and the first upload saved. *)
Example slash_in_a_filename :
  request_names burst_clock 0
    [{| filename := "left.jpg/"; file := "first" |};
     {| filename := "right.jpg"; file := "second" |}]
  = [Ok "1700000000125_left.jpg/"; Ok "1700000000125_right.jpg"]
  /\ save_uploads burst_clock "/srv/app" never_refused no_subdirectory
       [{| filename := "left.jpg/"; file := "first" |};
        {| filename := "right.jpg"; file := "second" |}]
       (cleared_world served_world)
     = (Ok tt,
        {| disk :=
             {| raw_dir :=
                  Some {[ "1700000000125_left.jpg" := FileE "first";
                          "1700000000125_right.jpg" := FileE "second" ]};
                results_txt := Some "earlier report" |};
           ticks := 2;
           invoked := [] |})
  /\ compare_faces burst_clock idle_pipeline repr_threshold no_strip "python3"
       "/srv/app" field_required never_refused no_subdirectory
       [{| filename := "left.jpg"; file := "first" |};
        {| filename := "faces/right.jpg"; file := "second" |}]
       1.0%float served_world
     = (json_response 500
          [("success", JBool false);
           ("error",
            JStr ("[Errno 2] No such file or directory: "
                  +:+ "'/srv/app/RawImages/1700000000125_faces/right.jpg'"))],
        {| disk :=
             {| raw_dir := Some {[ "1700000000125_left.jpg" := FileE "first" ]};
                results_txt := Some "earlier report" |};
           ticks := 2;
           invoked := [] |}).
Proof. repeat split; vm_compute; reflexivity. Qed.

End RequestExamples.

Section DatasetExamples.

Import Py Triplets Scenarios.

(** Two samples of class 0 and one of class 1. *)
Lemma class_indices_group_the_samples_witness :
  init demo_samples demo_classes = Ok demo_dataset
  /\ class_indices demo_dataset = [(0, [0; 1]); (1, [2])]
  /\ 2 <= length (class_indices demo_dataset)
  /\ (forall i path label,
        demo_samples !! i = Some (path, label) ->
        exists l, table_get (class_indices demo_dataset) label = Some l
                  /\ In i l).
Proof.
  split; [reflexivity|]. split; [reflexivity|].
  destruct (class_indices_group_the_samples demo_samples demo_classes
              demo_dataset eq_refl) as (Hlen & _ & _ & Hin & _).
  split; [exact Hlen|exact Hin].
Defined.

Lemma idx_to_class_inverts_class_to_idx_witness :
  NoDup (map snd demo_classes)
  /\ forall name idx,
       idx_to_class demo_dataset !! idx = Some name
       <-> In (name, idx) demo_classes.
Proof.
  assert (Hnd : NoDup (map snd demo_classes)).
  { apply (bool_decide_unpack _). vm_compute. exact I. }
  split; [exact Hnd|].
  apply (idx_to_class_inverts_class_to_idx demo_samples demo_classes
           demo_dataset eq_refl Hnd).
Defined.

(** The triplet returned for the first sample with the draws 1, 1, 0. *)
Lemma getitem_returns_a_triplet_witness :
  getitem string (fun p => p) demo_draw 5 demo_dataset 0 0
  = Some (Ok ("faces/ann/1.jpg", "faces/ann/2.jpg", "faces/bob/1.jpg", 0, 3))
  /\ exists pa pp pn ip ineg ln,
       demo_samples !! 0 = Some (pa, 0) /\ "faces/ann/1.jpg" = pa
       /\ ip <> 0
       /\ demo_samples !! ip = Some (pp, 0) /\ "faces/ann/2.jpg" = pp
       /\ demo_samples !! ineg = Some (pn, ln) /\ ln <> 0
       /\ "faces/bob/1.jpg" = pn
       /\ 0 + 3 <= 3.
Proof.
  split; [reflexivity|].
  apply (getitem_returns_a_triplet string (fun p => p) demo_draw demo_samples
           demo_classes demo_dataset 5 0 0 3 "faces/ann/1.jpg"
           "faces/ann/2.jpg" "faces/bob/1.jpg" 0).
  - reflexivity.
  - reflexivity.
Defined.

(** The only sample of class 1. *)
Lemma getitem_loops_on_single_member_class_witness :
  indices_of 1 0 demo_samples = [2]
  /\ forall fuel k,
       getitem string (fun p => p) demo_draw fuel demo_dataset 2 k = None.
Proof.
  split; [reflexivity|].
  apply (getitem_loops_on_single_member_class string (fun p => p) demo_draw
           demo_samples demo_classes demo_dataset 2 "faces/bob/1.jpg" 1).
  - reflexivity.
  - reflexivity.
  - reflexivity.
Defined.

Lemma getitem_returns_after_three_draws_witness :
  exists pp pn lneg ineg,
    demo_samples !! 1 = Some (pp, 0)
    /\ table_get (class_indices demo_dataset) 1 = Some lneg
    /\ lneg !! (demo_draw 2 mod length lneg) = Some ineg
    /\ demo_samples !! ineg = Some (pn, 1)
    /\ getitem string (fun p => p) demo_draw 1 demo_dataset 0 0
       = Some (Ok ("faces/ann/1.jpg", pp, pn, 0, 3)).
Proof.
  apply (getitem_returns_after_three_draws string (fun p => p) demo_draw
           demo_samples demo_classes demo_dataset 0 0 0 "faces/ann/1.jpg" 0
           [0; 1] 1 1).
  - reflexivity.
  - reflexivity.
  - reflexivity.
  - reflexivity.
  - discriminate.
  - reflexivity.
  - discriminate.
Defined.

End DatasetExamples.

Section EpochExamples.

Import Py Evaluation Scenarios.

(** One batch of two triplets at threshold 1: both positives are within
    the threshold and one of the negatives is beyond it. *)
Lemma correct_pairs_bounded_witness :
  run_batches (list float) (list float) float line_model line_loss line_norms
    PrimFloat.ltb (fun d t => PrimFloat.ltb t d) (@length float) 1
    (zero_totals float) demo_batches
  = Ok {| total_loss := 0.5; total_samples := 1; correct := 3;
          total_pairs := 4; all_ap_dist := [0.25; 0.5]%float;
          all_an_dist := [2; 0.25]%float |}
  /\ 3 <= 4 /\ 4 = 2 * 2 /\ 2 = 2 /\ 1 = 1.
Proof.
  split; [reflexivity|].
  apply (correct_pairs_bounded (list float) (list float) float line_model
           line_loss line_norms PrimFloat.ltb (fun d t => PrimFloat.ltb t d)
           (@length float) 1 demo_batches
           {| total_loss := 0.5; total_samples := 1; correct := 3;
              total_pairs := 4; all_ap_dist := [0.25; 0.5]%float;
              all_an_dist := [2; 0.25]%float |}).
  - intros anchor positive negative a p n [[= <- <- <-]|[]] [= <-] [= <-] [= <-].
    split; reflexivity.
  - reflexivity.
Defined.

End EpochExamples.
